(** * harmony-index-parser: a shallow embedding of [parse_indexfiles.py]

    The script scans the sub-folders of an export directory, derives a plate
    barcode from each folder name, reads the measurement signature (a UUID
    inside a URL) from the first data row of [indexfile.txt] and writes the
    pairs, sorted by barcode as an integer, to a CSV file.

    Modelling conventions.
    - A Python [str] is a list of 8-bit characters ([str := list ascii]).
      The program only inspects ASCII characters (tab, line ends, white
      space, slash, dash, underscore, digits, letters); a character above
      127 stands for a non-ASCII code point and is treated as an opaque
      letter without case, so Unicode white space, Unicode case mappings and
      Unicode digits are outside the model.
    - An exception is a value of [exn]; a call that may raise returns a
      [result].
    - [print] appends a line to an explicit list of messages; the file
      cursor, the file at the output path and the directory listing are
      passed explicitly.
    - [int] is modelled without the interpreter's configurable limit on the
      number of digits (4300 by default): a folder name is at most 255 bytes
      long.
    - The file system is a tree of readable files, files that cannot be
      opened and directories. Every directory can be listed and searched, so
      [iterdir()], [is_dir()] and [exists()] do not raise; a name that is
      absent or bound to a readable file can be opened for writing. A
      directory without search or write permission and a read-only output
      file are outside the model.
    - [main] is modelled from behind [parser.parse_args()]: the command line
      has been accepted and [--input-dir] has its value. A command line that
      [argparse] refuses ends the process with status 2 before any of the
      modelled code runs. *)

From Stdlib Require Import Ascii String ZArith Lia Bool Arith List.
From Stdlib Require Import DecimalString.
From Stdlib Require Import Permutation Sorted.
Import ListNotations.
Local Open Scope list_scope.
Set Warnings "-register-all".

(** ** Python values *)

Definition str := list ascii.

(** A string literal of the source. *)
Definition py (s : string) : str := list_ascii_of_string s.

Definition TAB : ascii := "009"%char.
Definition LF : ascii := "010"%char.
Definition CR : ascii := "013"%char.
Definition DQUOTE : ascii := "034"%char.
Definition COMMA : ascii := ","%char.
Definition SLASH : ascii := "/"%char.
Definition DASH : ascii := "-"%char.
Definition UNDERSCORE : ascii := "_"%char.
Definition BACKSLASH : ascii := "092"%char.

Inductive exn : Type :=
| ValueError
| IndexError
| OSError (msg : str).

Inductive result (A : Type) : Type :=
| Ok (a : A)
| Raise (e : exn).
Arguments Ok {A} a.
Arguments Raise {A} e.

Definition bind {A B} (r : result A) (k : A -> result B) : result B :=
  match r with
  | Ok a => k a
  | Raise e => Raise e
  end.

Notation "x <- r ;; k" := (bind r (fun x => k))
  (at level 61, r at next level, right associativity).

(** ** Characters *)

Definition code (c : ascii) : nat := nat_of_ascii c.

(** [lo <= c <= hi], the test behind a range [lo-hi] of a character class. *)
Definition in_range (lo hi c : ascii) : bool :=
  (code lo <=? code c) && (code c <=? code hi).

(** White space of [str.strip()] and [str.isspace()] among the ASCII
    characters: TAB, LF, VT, FF, CR, FS, GS, RS, US and the blank. *)
Definition is_space (c : ascii) : bool :=
  ((9 <=? code c) && (code c <=? 13))
  || ((28 <=? code c) && (code c <=? 31))
  || (code c =? 32).

(** White space skipped by [int()] around the number: C's [isspace]. *)
Definition is_int_space (c : ascii) : bool :=
  ((9 <=? code c) && (code c <=? 13)) || (code c =? 32).

Definition is_digit (c : ascii) : bool := in_range "0" "9" c.

Definition digit_value (c : ascii) : Z := Z.of_nat (code c - 48).

(** [str.upper()] on one character. *)
Definition upper_char (c : ascii) : ascii :=
  if in_range "a" "z" c then ascii_of_nat (code c - 32) else c.

Definition eqc (a b : ascii) : bool := Ascii.eqb a b.

(** ** String methods *)

Definition upper (s : str) : str := map upper_char s.

(** Drop the leading characters that satisfy [p]. *)
Fixpoint lstrip_by (p : ascii -> bool) (s : str) : str :=
  match s with
  | [] => []
  | c :: r => if p c then lstrip_by p r else s
  end.

Definition rstrip_by (p : ascii -> bool) (s : str) : str :=
  rev (lstrip_by p (rev s)).

Definition strip_by (p : ascii -> bool) (s : str) : str :=
  rstrip_by p (lstrip_by p s).

(** [s.strip()] *)
Definition strip (s : str) : str := strip_by is_space s.

Fixpoint str_eqb (a b : str) : bool :=
  match a, b with
  | [], [] => true
  | x :: a', y :: b' => eqc x y && str_eqb a' b'
  | _, _ => false
  end.

(** [sep.join(l)] *)
Fixpoint join (sep : str) (l : list str) : str :=
  match l with
  | [] => []
  | x :: r =>
      match r with
      | [] => x
      | _ :: _ => x ++ sep ++ join sep r
      end
  end.

(** [str(n)] for a length. *)
Definition str_of_nat (n : nat) : str :=
  py (DecimalString.NilEmpty.string_of_uint (Nat.to_uint n)).

(** [s.startswith(p)] *)
Fixpoint startswith (p s : str) : bool :=
  match p, s with
  | [], _ => true
  | _ :: _, [] => false
  | a :: p', b :: s' => eqc a b && startswith p' s'
  end.

(** [s.endswith(p)] *)
Definition endswith (p s : str) : bool := startswith (rev p) (rev s).

(** [s.find(sub)]: the lowest index at which [sub] occurs, [None] for -1. *)
Fixpoint find (sub s : str) : option nat :=
  if startswith sub s then Some 0
  else match s with
       | [] => None
       | _ :: r => option_map S (find sub r)
       end.

(** [sub in s] *)
Definition contains (sub s : str) : bool :=
  match find sub s with
  | Some _ => true
  | None => false
  end.

(** [s.split(sep)] for a non-empty [sep]: cut at the first occurrence of
    [sep], then go on behind it. [fuel] bounds the number of cuts. *)
Fixpoint split_from (fuel : nat) (sep s : str) : list str :=
  match fuel with
  | 0 => [s]
  | S fuel' =>
      match find sep s with
      | None => [s]
      | Some i => firstn i s :: split_from fuel' sep (skipn (i + length sep) s)
      end
  end.

Definition split (sep s : str) : result (list str) :=
  match sep with
  | [] => Raise ValueError
  | _ :: _ => Ok (split_from (length s) sep s)
  end.

(** [l[i]] *)
Definition getitem {A} (l : list A) (i : nat) : result A :=
  match nth_error l i with
  | Some a => Ok a
  | None => Raise IndexError
  end.

(** [bool(s)] *)
Definition truthy (s : str) : bool :=
  match s with
  | [] => false
  | _ :: _ => true
  end.

(** [file.readline()] on a text file opened with the default [newline=None]:
    the line up to and including its end, where LF, CR and CR LF all end a
    line and are handed out as LF; the second component is what is left to
    read. At the end of the file the line is empty. *)
Fixpoint readline (s : str) : str * str :=
  match s with
  | [] => ([], [])
  | c :: r =>
      if eqc c LF then ([LF], r)
      else if eqc c CR then
        match r with
        | c' :: r' => if eqc c' LF then ([LF], r') else ([LF], r)
        | [] => ([LF], r)
        end
      else let (l, rest) := readline r in (c :: l, rest)
  end.

(** ** The fragment of [re] the script uses

    The pattern is a sequence of single-character atoms, each repeated a
    fixed number of times, with one capturing group; there is no choice and
    no backtracking. *)

Inductive atom : Type :=
| Chr (c : ascii)
| Cls (ranges : list (ascii * ascii)).

Definition atom_ok (a : atom) (c : ascii) : bool :=
  match a with
  | Chr c' => eqc c' c
  | Cls ranges => existsb (fun r => in_range (fst r) (snd r) c) ranges
  end.

(** [Rep a n] is [a{n}]. *)
Inductive item : Type :=
| Rep (a : atom) (n : nat).

Record regex : Type := {
  re_before : list item;
  re_group : list item;
  re_after : list item
}.

Record match_obj : Type := {
  m_start : nat;
  m_group0 : str;
  m_group1 : str
}.

Fixpoint match_rep (a : atom) (n : nat) (s : str) : option (str * str) :=
  match n with
  | 0 => Some ([], s)
  | S k =>
      match s with
      | [] => None
      | c :: r =>
          if atom_ok a c then
            match match_rep a k r with
            | Some (m, rest) => Some (c :: m, rest)
            | None => None
            end
          else None
      end
  end.

Fixpoint match_items (items : list item) (s : str) : option (str * str) :=
  match items with
  | [] => Some ([], s)
  | Rep a n :: items' =>
      match match_rep a n s with
      | Some (m, rest) =>
          match match_items items' rest with
          | Some (m', rest') => Some (m ++ m', rest')
          | None => None
          end
      | None => None
      end
  end.

(** An attempt at position [pos], where [s] is the text from there on. *)
Definition match_at (rx : regex) (pos : nat) (s : str) : option match_obj :=
  match match_items (re_before rx) s with
  | Some (b, s1) =>
      match match_items (re_group rx) s1 with
      | Some (g, s2) =>
          match match_items (re_after rx) s2 with
          | Some (a, _) =>
              Some {| m_start := pos; m_group0 := b ++ g ++ a; m_group1 := g |}
          | None => None
          end
      | None => None
      end
  | None => None
  end.

Fixpoint search_from (rx : regex) (pos : nat) (s : str) : option match_obj :=
  match match_at rx pos s with
  | Some m => Some m
  | None =>
      match s with
      | [] => None
      | _ :: r => search_from rx (S pos) r
      end
  end.

(** [re.search(rx, s)]: the match at the leftmost position. *)
Definition re_search (rx : regex) (s : str) : option match_obj :=
  search_from rx 0 s.

(** ** [extract_measurement_signature] *)

Definition hex_class : atom := Cls [("a"%char, "f"%char); ("0"%char, "9"%char)].

(** [/([a-f0-9]{8}-[a-f0-9]{4}-[a-f0-9]{4}-[a-f0-9]{4}-[a-f0-9]{12})/] *)
Definition pattern : regex := {|
  re_before := [Rep (Chr SLASH) 1];
  re_group := [Rep hex_class 8; Rep (Chr DASH) 1;
               Rep hex_class 4; Rep (Chr DASH) 1;
               Rep hex_class 4; Rep (Chr DASH) 1;
               Rep hex_class 4; Rep (Chr DASH) 1;
               Rep hex_class 12];
  re_after := [Rep (Chr SLASH) 1]
|}.

Definition extract_measurement_signature (url : str) : option str :=
  match re_search pattern url with
  | Some m => Some (m_group1 m)
  | None => None
  end.

(** ** [extract_plate_barcode] *)

Definition extract_plate_barcode (folder_name : str) : result str :=
  parts <- split (py "__") folder_name ;;
  getitem parts 0.

(** ** The file system as the script sees it

    A file that opens and decodes, a file whose [open] raises an [OSError]
    with text [err], or a directory with its entries in the order
    [iterdir()] yields them. *)

Inductive node : Type :=
| File (text : str)
| Unreadable (err : str)
| Dir (children : list (str * node)).

Fixpoint lookup (name : str) (children : list (str * node)) : option node :=
  match children with
  | [] => None
  | (n, nd) :: r => if str_eqb n name then Some nd else lookup name r
  end.

(** Replace the entry [name], or add it. *)
Fixpoint set_child (name : str) (nd : node) (children : list (str * node))
  : list (str * node) :=
  match children with
  | [] => [(name, nd)]
  | (n, old) :: r =>
      if str_eqb n name then (n, nd) :: r else (n, old) :: set_child name nd r
  end.

(** [str(p / name)] from [str(p)], for a [name] without a slash. *)
Definition path_join (p name : str) : str :=
  if str_eqb p (py ".") then name
  else if endswith [SLASH] p then p ++ name
  else p ++ [SLASH] ++ name.

(** Two lowercase hexadecimal digits. *)
Definition hex2 (n : nat) : str :=
  [nth (n / 16) (py "0123456789abcdef") "0"%char;
   nth (n mod 16) (py "0123456789abcdef") "0"%char].

(** One character inside [repr(s)], between quotes [quote]. *)
Definition repr_char (quote c : ascii) : str :=
  if eqc c quote || eqc c BACKSLASH then [BACKSLASH; c]
  else if eqc c TAB then [BACKSLASH; "t"%char]
  else if eqc c LF then [BACKSLASH; "n"%char]
  else if eqc c CR then [BACKSLASH; "r"%char]
  else if (code c <? 32) || (code c =? 127) then
    [BACKSLASH; "x"%char] ++ hex2 (code c)
  else [c].

(** [repr(s)]: single quotes, unless the string holds a single quote and no
    double quote; the quote, the backslash and the control characters are
    escaped. A character above 127 is taken as printable. *)
Definition py_repr (s : str) : str :=
  let quote :=
    if existsb (eqc "'"%char) s && negb (existsb (eqc DQUOTE) s)
    then DQUOTE else "'"%char in
  [quote] ++ flat_map (repr_char quote) s ++ [quote].

(** [str(e)] for the [IsADirectoryError] of [open(path, ...)]: the file name
    is shown as [repr] gives it. *)
Definition is_a_directory (path : str) : exn :=
  OSError (py "[Errno 21] Is a directory: " ++ py_repr path).

(** [open(path, 'r', encoding='utf-8')]: the text to read. *)
Definition open_read (path : str) (f : node) : result str :=
  match f with
  | File text => Ok text
  | Unreadable err => Raise (OSError err)
  | Dir _ => Raise (is_a_directory path)
  end.

(** [open(path, 'w', ...)] on what is at [path]: the file is created or
    truncated. *)
Definition open_write (path : str) (old : option node) : result str :=
  match old with
  | None => Ok []
  | Some (File _) => Ok []
  | Some (Unreadable err) => Raise (OSError err)
  | Some (Dir _) => Raise (is_a_directory path)
  end.

(** [str(e)] *)
Definition exn_str (e : exn) : str :=
  match e with
  | ValueError => py "ValueError"
  | IndexError => py "list index out of range"
  | OSError msg => msg
  end.

(** ** [process_indexfile] *)

(** The loop over [enumerate(header_cols)], entered with counter [i]. *)
Fixpoint find_url_col (i : nat) (header_cols : list str) : option nat :=
  match header_cols with
  | [] => None
  | col :: rest =>
      if contains (py "URL") (upper col) then Some i
      else find_url_col (S i) rest
  end.

(** What a call leaves behind: the value returned, the lines printed, and
    what was still unread when the file was closed ([None] when it was never
    opened). *)
Record read_outcome : Type := {
  ro_value : option str;
  ro_printed : list str;
  ro_unread : option str
}.

(** The body of the [try] block. *)
Definition indexfile_try (indexfile_path : str) (f : node)
  : result (option str * list str * str) :=
  text <- open_read indexfile_path f ;;
  let (line1, rest1) := readline text in
  let header := strip line1 in
  header_cols <- split [TAB] header ;;
  match find_url_col 0 header_cols with
  | None =>
      Ok (None,
          [py "Warning: No URL column found in " ++ indexfile_path],
          rest1)
  | Some url_col_index =>
      let (line2, rest2) := readline rest1 in
      let first_line := strip line2 in
      if truthy first_line then
        columns <- split [TAB] first_line ;;
        if url_col_index <? length columns then
          url <- getitem columns url_col_index ;;
          Ok (extract_measurement_signature url, [], rest2)
        else Ok (None, [], rest2)
      else Ok (None, [], rest2)
  end.

Definition process_indexfile (indexfile_path : str) (f : node) : read_outcome :=
  match indexfile_try indexfile_path f with
  | Ok (v, printed, rest) =>
      {| ro_value := v; ro_printed := printed; ro_unread := Some rest |}
  | Raise e =>
      {| ro_value := None;
         ro_printed := [py "Error processing " ++ indexfile_path
                          ++ py ": " ++ exn_str e];
         ro_unread := None |}
  end.

(** ** [process_indexfiles_directory] *)

Definition scan_state : Type := (list (str * str) * list str)%type.

(** One turn of the loop over [indexfiles_dir.iterdir()]. *)
Definition scan_step (indexfiles_dir : str) (st : scan_state)
  (entry : str * node) : result scan_state :=
  let (results, out) := st in
  let (name, nd) := entry in
  match nd with
  | Dir children =>
      plate_barcode <- extract_plate_barcode name ;;
      let folder_path := path_join indexfiles_dir name in
      let indexfile_path := path_join folder_path (py "indexfile.txt") in
      match lookup (py "indexfile.txt") children with
      | Some f =>
          let r := process_indexfile indexfile_path f in
          match ro_value r with
          | Some measurement_signature =>
              if truthy measurement_signature then
                Ok (results ++ [(plate_barcode, measurement_signature)],
                    out ++ ro_printed r
                      ++ [py "Processed: " ++ plate_barcode ++ py " -> "
                            ++ measurement_signature])
              else
                Ok (results,
                    out ++ ro_printed r
                      ++ [py "Warning: No measurement signature found for "
                            ++ plate_barcode])
          | None =>
              Ok (results,
                  out ++ ro_printed r
                    ++ [py "Warning: No measurement signature found for "
                          ++ plate_barcode])
          end
      | None =>
          Ok (results,
              out ++ [py "Warning: indexfile.txt not found in " ++ folder_path])
      end
  | File _ => Ok st
  | Unreadable _ => Ok st
  end.

Fixpoint scan_loop (indexfiles_dir : str) (entries : list (str * node))
  (st : scan_state) : result scan_state :=
  match entries with
  | [] => Ok st
  | entry :: rest =>
      st' <- scan_step indexfiles_dir st entry ;;
      scan_loop indexfiles_dir rest st'
  end.

(** The list returned and the lines printed. *)
Definition process_indexfiles_directory (indexfiles_dir : str)
  (entries : list (str * node)) : result scan_state :=
  scan_loop indexfiles_dir entries ([], []).

(** ** [int], [sorted] and [csv.writer] *)

Fixpoint int_digits (acc : Z) (after_underscore : bool) (s : str) : option Z :=
  match s with
  | [] => if after_underscore then None else Some acc
  | c :: r =>
      if is_digit c then int_digits (10 * acc + digit_value c) false r
      else if eqc c UNDERSCORE then
        if after_underscore then None else int_digits acc true r
      else None
  end.

(** [int(s)] for a string: white space around, an optional sign, then
    decimal digits, where single underscores may separate digits. *)
Definition py_int (s : str) : result Z :=
  let t := strip_by is_int_space s in
  let (negative, body) :=
    match t with
    | c :: r =>
        if eqc c DASH then (true, r)
        else if eqc c "+"%char then (false, r)
        else (false, t)
    | [] => (false, t)
    end in
  match body with
  | [] => Raise ValueError
  | c :: _ =>
      if is_digit c then
        match int_digits 0 false body with
        | Some n => Ok (if negative then (- n)%Z else n)
        | None => Raise ValueError
        end
      else Raise ValueError
  end.

(** Keys are computed for all elements, front to back, before any
    comparison; the first key that raises ends the call. *)
Fixpoint decorate {A} (key : A -> result Z) (l : list A)
  : result (list (Z * A)) :=
  match l with
  | [] => Ok []
  | x :: r =>
      k <- key x ;;
      d <- decorate key r ;;
      Ok ((k, x) :: d)
  end.

(** Insertion in front of the first element whose key is not smaller. *)
Fixpoint insert_key {A} (k : Z) (x : A) (l : list (Z * A)) : list (Z * A) :=
  match l with
  | [] => [(k, x)]
  | (k', y) :: r =>
      if (k <=? k')%Z then (k, x) :: l else (k', y) :: insert_key k x r
  end.

(** A stable sort by key: elements with equal keys keep their order. *)
Fixpoint sort_keyed {A} (l : list (Z * A)) : list (Z * A) :=
  match l with
  | [] => []
  | (k, x) :: r => insert_key k x (sort_keyed r)
  end.

(** [sorted(l, key=key)] *)
Definition sorted {A} (key : A -> result Z) (l : list A) : result (list A) :=
  d <- decorate key l ;;
  Ok (map snd (sort_keyed d)).

(** The default dialect: a field is quoted when it holds the delimiter, the
    quote character or a character of the line terminator; quotes inside are
    doubled. *)
Definition is_special (c : ascii) : bool :=
  eqc c COMMA || eqc c DQUOTE || eqc c CR || eqc c LF.

Definition needs_quote (field : str) : bool := existsb is_special field.

Definition quote_field (field : str) : str :=
  DQUOTE
    :: flat_map (fun c => if eqc c DQUOTE then [DQUOTE; DQUOTE] else [c]) field
    ++ [DQUOTE].

Definition csv_field (field : str) : str :=
  if needs_quote field then quote_field field else field.

(** The text [writer.writerow(row)] writes; a row that is one empty field is
    written as two quotes. *)
Definition writerow (row : list str) : str :=
  match row with
  | [[]] => [DQUOTE; DQUOTE; CR; LF]
  | _ => join [COMMA] (map csv_field row) ++ [CR; LF]
  end.

(** ** [csv.reader], to read the written file back

    The reader of the standard library with the default dialect, on a file
    opened with [newline=''], without the configurable limit on the size of
    a field. *)

(** The lines the file hands to the reader: LF, CR and CR LF end a line and
    stay in it. [cur] is the line read so far. *)
Fixpoint file_lines_from (cur : str) (s : str) : list str :=
  match s with
  | [] =>
      match cur with
      | [] => []
      | _ :: _ => [cur]
      end
  | c :: r =>
      if eqc c LF then (cur ++ [LF]) :: file_lines_from [] r
      else if eqc c CR then
        match r with
        | c' :: r' =>
            if eqc c' LF then (cur ++ [CR; LF]) :: file_lines_from [] r'
            else (cur ++ [CR]) :: file_lines_from [] r
        | [] => [cur ++ [CR]]
        end
      else file_lines_from (cur ++ [c]) r
  end.

Definition file_lines (s : str) : list str := file_lines_from [] s.

Inductive parser_state : Type :=
| START_RECORD
| START_FIELD
| IN_FIELD
| IN_QUOTED_FIELD
| QUOTE_IN_QUOTED_FIELD
| EAT_CRNL.

Record parser : Type := {
  p_state : parser_state;
  p_field : str;
  p_fields : list (str)
}.

Definition parse_reset : parser :=
  {| p_state := START_RECORD; p_field := []; p_fields := [] |}.

Definition parse_save_field (p : parser) (next : parser_state) : parser :=
  {| p_state := next; p_field := []; p_fields := p_fields p ++ [p_field p] |}.

Definition parse_add_char (p : parser) (c : ascii) (next : parser_state)
  : parser :=
  {| p_state := next; p_field := p_field p ++ [c]; p_fields := p_fields p |}.

Definition set_state (p : parser) (next : parser_state) : parser :=
  {| p_state := next; p_field := p_field p; p_fields := p_fields p |}.

Definition is_newline (c : ascii) : bool := eqc c LF || eqc c CR.

(** The end of a line, or a character of it. *)
Definition after_line_end (c : option ascii) : parser_state :=
  match c with
  | None => START_RECORD
  | Some _ => EAT_CRNL
  end.

Definition ends_line (c : option ascii) : bool :=
  match c with
  | None => true
  | Some c => is_newline c
  end.

Definition is_char (x : ascii) (c : option ascii) : bool :=
  match c with
  | None => false
  | Some c => eqc c x
  end.

Definition start_field (p : parser) (c : option ascii) : result parser :=
  if ends_line c then Ok (parse_save_field p (after_line_end c))
  else if is_char DQUOTE c then Ok (set_state p IN_QUOTED_FIELD)
  else if is_char COMMA c then Ok (parse_save_field p START_FIELD)
  else match c with
       | Some c => Ok (parse_add_char p c IN_FIELD)
       | None => Ok p
       end.

(** One step of the reader: [None] is the mark at the end of each line. *)
Definition parse_process_char (p : parser) (c : option ascii) : result parser :=
  match p_state p with
  | START_RECORD =>
      match c with
      | None => Ok p
      | Some c' =>
          if is_newline c' then Ok (set_state p EAT_CRNL)
          else start_field (set_state p START_FIELD) c
      end
  | START_FIELD => start_field p c
  | IN_FIELD =>
      if ends_line c then Ok (parse_save_field p (after_line_end c))
      else if is_char COMMA c then Ok (parse_save_field p START_FIELD)
      else match c with
           | Some c => Ok (parse_add_char p c IN_FIELD)
           | None => Ok p
           end
  | IN_QUOTED_FIELD =>
      match c with
      | None => Ok p
      | Some c' =>
          if eqc c' DQUOTE then Ok (set_state p QUOTE_IN_QUOTED_FIELD)
          else Ok (parse_add_char p c' IN_QUOTED_FIELD)
      end
  | QUOTE_IN_QUOTED_FIELD =>
      if is_char DQUOTE c then
        match c with
        | Some c => Ok (parse_add_char p c IN_QUOTED_FIELD)
        | None => Ok p
        end
      else if is_char COMMA c then Ok (parse_save_field p START_FIELD)
      else if ends_line c then Ok (parse_save_field p (after_line_end c))
      else match c with
           | Some c => Ok (parse_add_char p c IN_FIELD)
           | None => Ok p
           end
  | EAT_CRNL =>
      match c with
      | None => Ok (set_state p START_RECORD)
      | Some c' => if is_newline c' then Ok p else Raise ValueError
      end
  end.

Fixpoint parse_line (p : parser) (line : str) : result parser :=
  match line with
  | [] => Ok p
  | c :: r =>
      p' <- parse_process_char p (Some c) ;;
      parse_line p' r
  end.

Definition state_eqb (a b : parser_state) : bool :=
  match a, b with
  | START_RECORD, START_RECORD => true
  | START_FIELD, START_FIELD => true
  | IN_FIELD, IN_FIELD => true
  | IN_QUOTED_FIELD, IN_QUOTED_FIELD => true
  | QUOTE_IN_QUOTED_FIELD, QUOTE_IN_QUOTED_FIELD => true
  | EAT_CRNL, EAT_CRNL => true
  | _, _ => false
  end.

(** [list(reader)]: a record is complete when a line ends in the state
    [START_RECORD]; at the end of the input an unfinished record is handed
    out as it is. *)
Fixpoint read_records (lines : list str) (p : parser)
  : result (list (list str)) :=
  match lines with
  | [] =>
      if truthy (p_field p) || state_eqb (p_state p) IN_QUOTED_FIELD then
        Ok [p_fields (parse_save_field p START_RECORD)]
      else Ok []
  | line :: rest =>
      p1 <- parse_line p line ;;
      p2 <- parse_process_char p1 None ;;
      if state_eqb (p_state p2) START_RECORD then
        records <- read_records rest parse_reset ;;
        Ok (p_fields p2 :: records)
      else read_records rest p2
  end.

Definition csv_read (text : str) : result (list (list str)) :=
  read_records (file_lines text) parse_reset.

(** ** [save_results_to_csv] *)

Definition csv_header : list str :=
  [py "Plate_Barcode"; py "Measurement_Signature"].

(** The value returned (or the exception), what is at [output_path]
    afterwards, and the lines printed. *)
Definition save_results_to_csv (results : list (str * str)) (output_path : str)
  (old : option node) : result unit * option node * list str :=
  match sorted (fun x => py_int (fst x)) results with
  | Raise e => (Raise e, old, [])
  | Ok sorted_results =>
      match open_write output_path old with
      | Raise e => (Raise e, old, [])
      | Ok empty =>
          let csvfile := empty ++ writerow csv_header in
          let csvfile :=
            fold_left
              (fun file (r : str * str) =>
                 let (plate_barcode, measurement_signature) := r in
                 file ++ writerow [plate_barcode; measurement_signature])
              sorted_results csvfile in
          (Ok tt, Some (File csvfile), [py "Results saved to: " ++ output_path])
      end
  end.

(** ** [main], behind the argument parser *)

Definition output_name : str := py "plates_measurement_signatures.csv".

(** The exit status (or the uncaught exception), the lines printed, and the
    input directory afterwards. [root] is what is at [indexfiles_dir]. *)
Definition main (indexfiles_dir : str) (root : option node)
  : result Z * list str * option node :=
  match root with
  | None =>
      (Ok 1%Z,
       [py "Error: Directory " ++ indexfiles_dir ++ py " does not exist"],
       root)
  | Some (Dir entries) =>
      let out0 := [py "Processing indexfiles directory: " ++ indexfiles_dir] in
      match process_indexfiles_directory indexfiles_dir entries with
      | Raise e => (Raise e, out0, root)
      | Ok (results, out1) =>
          if (length results =? 0)%nat then
            (Ok 1%Z,
             out0 ++ out1
               ++ [py "No results found. Please check your directory structure and indexfile.txt files."],
             root)
          else
            let output_path := path_join indexfiles_dir output_name in
            match save_results_to_csv results output_path
                    (lookup output_name entries) with
            | (Raise e, _, out2) => (Raise e, out0 ++ out1 ++ out2, root)
            | (Ok _, written, out2) =>
                (Ok 0%Z,
                 out0 ++ out1 ++ out2
                   ++ [py "Successfully processed "
                         ++ str_of_nat (length results) ++ py " indexfiles"],
                 match written with
                 | Some nd => Some (Dir (set_child output_name nd entries))
                 | None => root
                 end)
            end
      end
  | Some _ =>
      (Ok 1%Z, [py "Error: " ++ indexfiles_dir ++ py " is not a directory"], root)
  end.

(** ** Vocabulary of the specification *)

(** *** Occurrences and the UUID form *)

(** [sub] occurs in [s] behind [pre], and nowhere further left. *)
Definition first_occurrence (sub s pre post : str) : Prop :=
  s = pre ++ sub ++ post /\
  forall pre' post', s = pre' ++ sub ++ post' -> length pre <= length pre'.

Definition occurs (sub s : str) : Prop :=
  exists pre post, s = pre ++ sub ++ post.

(** A lowercase hexadecimal digit. *)
Definition lower_hex (c : ascii) : Prop := In c (py "0123456789abcdef").

Definition hex_group (n : nat) (g : str) : Prop :=
  length g = n /\ Forall lower_hex g.

(** The canonical textual form of a UUID: lowercase hexadecimal groups of
    8, 4, 4, 4 and 12 digits, joined by dashes. *)
Definition is_uuid (s : str) : Prop :=
  exists g1 g2 g3 g4 g5,
    s = g1 ++ [DASH] ++ g2 ++ [DASH] ++ g3 ++ [DASH] ++ g4 ++ [DASH] ++ g5
    /\ hex_group 8 g1 /\ hex_group 4 g2 /\ hex_group 4 g3
    /\ hex_group 4 g4 /\ hex_group 12 g5.

(** [seg] is a path segment of [url] in UUID form, enclosed by slashes. *)
Definition uuid_segment (url pre seg post : str) : Prop :=
  url = pre ++ [SLASH] ++ seg ++ [SLASH] ++ post /\ is_uuid seg.

Definition has_uuid_segment (url : str) : Prop :=
  exists pre seg post, uuid_segment url pre seg post.

(** The UUID segment that starts furthest to the left. *)
Definition leftmost_uuid_segment (url seg : str) : Prop :=
  exists pre post,
    uuid_segment url pre seg post /\
    forall pre' seg' post',
      uuid_segment url pre' seg' post' -> length pre <= length pre'.

Definition is_upper (c : ascii) : bool := in_range "A" "Z" c.

(** The strings a list of items matches: one block per item, of the item's
    length, all of whose characters the atom accepts. *)
Fixpoint accepts (items : list item) (m : str) : Prop :=
  match items with
  | [] => m = []
  | Rep a n :: items' =>
      exists m1 m2,
        m = m1 ++ m2 /\ length m1 = n
        /\ Forall (fun c => atom_ok a c = true) m1 /\ accepts items' m2
  end.

(** *** The URL column and the reader *)

(** The name of a column holds URL, in any mix of cases. *)
Definition contains_url_ci (col : str) : Prop :=
  exists pre u r l post,
    col = pre ++ [u; r; l] ++ post
    /\ (u = "u"%char \/ u = "U"%char)
    /\ (r = "r"%char \/ r = "R"%char)
    /\ (l = "l"%char \/ l = "L"%char).

(** One of the letters of URL. *)
Definition url_letter (c : ascii) : bool :=
  eqc c "u" || eqc c "U" || eqc c "r" || eqc c "R" || eqc c "l" || eqc c "L".

(** Column [i] is the leftmost one whose name holds URL. *)
Definition first_url_column (cols : list str) (i : nat) : Prop :=
  (exists col, nth_error cols i = Some col /\ contains_url_ci col)
  /\ forall j col, j < i -> nth_error cols j = Some col -> ~ contains_url_ci col.

(** The reader reports a failure of its own: it prints a line about it. *)
Definition reports_failure (r : read_outcome) : Prop := ro_printed r <> [].

(** The claim that a short first data line makes the reader fail with a
    condition of its own, at one file: whenever the line has fewer columns
    than the index of the URL column, the reader reports a failure and gives
    no signature. *)
Definition malformed_row_reported (path text : str) : Prop :=
  forall line1 rest line2 rest2 header_cols columns i,
    readline text = (line1, rest) ->
    split [TAB] (strip line1) = Ok header_cols ->
    first_url_column header_cols i ->
    readline rest = (line2, rest2) ->
    split [TAB] (strip line2) = Ok columns ->
    length columns < i ->
    reports_failure (process_indexfile path (File text))
    /\ ro_value (process_indexfile path (File text)) = None.

(** *** The scan *)

Definition indexfile_name : str := py "indexfile.txt".

(** The path the scanner hands to the reader for folder [name]. *)
Definition indexfile_path_of (indexfiles_dir name : str) : str :=
  path_join (path_join indexfiles_dir name) indexfile_name.

(** The folder gives no signature: it has no metadata file, or the reader
    returns [None] on it. *)
Definition no_signature (indexfiles_dir name : str)
  (children : list (str * node)) : Prop :=
  match lookup indexfile_name children with
  | Some f =>
      ro_value (process_indexfile (indexfile_path_of indexfiles_dir name) f)
      = None
  | None => True
  end.

(** The warning the scanner prints for such a folder. *)
Definition skip_warning (indexfiles_dir name barcode : str)
  (children : list (str * node)) : str :=
  match lookup indexfile_name children with
  | Some _ => py "Warning: No measurement signature found for " ++ barcode
  | None =>
      py "Warning: indexfile.txt not found in " ++ path_join indexfiles_dir name
  end.

(** What one turn of the loop adds to the results and to the output. *)
Definition step_delta (indexfiles_dir : str) (entry : str * node) : scan_state :=
  match scan_step indexfiles_dir ([], []) entry with
  | Ok st => st
  | Raise _ => ([], [])
  end.

(** *** Sorting and the CSV file *)

(** Order of decorated elements. *)
Definition key_le {A} (a b : Z * A) : Prop := (fst a <= fst b)%Z.

(** The keys of two elements are defined, in ascending order. *)
Definition key_ok_le {A} (key : A -> result Z) (a b : A) : Prop :=
  exists x y, key a = Ok x /\ key b = Ok y /\ (x <= y)%Z.

(** The key of an element is [k]. *)
Definition key_is {A} (key : A -> result Z) (k : Z) (x : A) : bool :=
  match key x with
  | Ok n => (n =? k)%Z
  | Raise _ => false
  end.

(** The key of the writer: the barcode as an integer. *)
Definition barcode_int (r : str * str) : result Z := py_int (fst r).

(** The barcodes of two pairs parse as integers, in ascending order. *)
Definition int_le (a b : str * str) : Prop := key_ok_le barcode_int a b.


(** The text of the data rows of a CSV file. *)
Definition csv_rows (rows : list (str * str)) : str :=
  concat (map (fun r => writerow [fst r; snd r]) rows).

(** [open(path, 'w')] succeeds on what is at the path. *)
Definition writable (old : option node) : Prop :=
  old = None \/ exists text, old = Some (File text).

(** A decimal digit; a non-empty string of them. *)
Definition decimal_digit (c : ascii) : Prop := In c (py "0123456789").

Definition digit_string (b : str) : Prop :=
  b <> [] /\ Forall decimal_digit b.

(** The rows a reader gets for a list of pairs. *)
Definition rows_of (rows : list (str * str)) : list (list str) :=
  map (fun r => [fst r; snd r]) rows.

(** A field the writer leaves as it is. *)
Definition plain (field : str) : Prop :=
  Forall (fun c => is_special c = false) field.

(** *** Inputs of the examples *)

(** The well-formed file of the specification. *)
Definition well_formed_file : str :=
  py "Row" ++ [TAB] ++ py "URL" ++ [TAB] ++ py "Date" ++ [LF]
    ++ py "1" ++ [TAB]
    ++ py "http://host/abc12345-1111-2222-3333-444455556666/file"
    ++ [TAB] ++ py "2024-01-01" ++ [LF].

(** A header with a URL column and nothing behind it. *)
Definition header_only_file : str :=
  py "Row" ++ [TAB] ++ py "URL" ++ [TAB] ++ py "Date" ++ [LF].

(** A header without URL column. *)
Definition file_without_url_column : str :=
  py "Row" ++ [TAB] ++ py "Date" ++ [LF]
    ++ py "1" ++ [TAB]
    ++ py "http://host/abc12345-1111-2222-3333-444455556666/file" ++ [LF].

(** A first data line shorter than the header. *)
Definition file_with_short_row : str :=
  py "Row" ++ [TAB] ++ py "Date" ++ [TAB] ++ py "URL" ++ [LF]
    ++ py "1" ++ [LF].

(** A root with a complete folder, a folder without metadata file and a
    plain file. *)
Definition example_root : list (str * node) :=
  [(py "100__A", Dir [(py "indexfile.txt", File well_formed_file)]);
   (py "200__B", Dir []);
   (py "notes.txt", File (py "not a folder"))].

(** Pairs as a scan returns them, not in order. *)
Definition round_trip_results : list (str * str) :=
  [(py "200", py "abc12345-1111-2222-3333-444455556666");
   (py "10", py "00000000-0000-0000-0000-00000000000f")].

(** *** Tactics for the examples *)

Ltac solve_lower_hex :=
  unfold lower_hex; simpl; repeat (first [left; reflexivity | right]).

Ltac solve_hex_group :=
  split; [reflexivity|];
  repeat (apply Forall_cons; [solve_lower_hex|]); apply Forall_nil.

Ltac solve_decimal_digit :=
  unfold decimal_digit; simpl; repeat (first [left; reflexivity | right]).

(** *** Vocabulary of the further properties *)

(** The folder is complete: it has a metadata file on which the reader
    returns a signature. *)
Definition has_signature (indexfiles_dir : str) (entry : str * node) : bool :=
  match entry with
  | (name, Dir children) =>
      match lookup indexfile_name children with
      | Some f =>
          match ro_value
                  (process_indexfile (indexfile_path_of indexfiles_dir name) f)
          with
          | Some _ => true
          | None => false
          end
      | None => false
      end
  | (_, File _) => false
  | (_, Unreadable _) => false
  end.

(** Two files with the same first two lines and different later rows. *)
Definition two_rows_file : str :=
  well_formed_file
    ++ py "2" ++ [TAB]
    ++ py "http://host/ffffffff-1111-2222-3333-444455556666/file"
    ++ [TAB] ++ py "2024-01-02" ++ [LF].

(** A root whose only folder has a metadata file that cannot be opened. *)
Definition unreadable_root : list (str * node) :=
  [(py "300__C", Dir [(py "indexfile.txt", Unreadable (py "Permission denied"))])].

(** A root without any complete folder. *)
Definition empty_handed_root : list (str * node) :=
  [(py "200__B", Dir []);
   (py "notes.txt", File (py "not a folder"));
   (py "400__D", Dir [(py "indexfile.txt", File header_only_file)])].

(** No character of the string ends a line. *)
Definition one_line (l : str) : Prop :=
  Forall (fun c => eqc c LF = false /\ eqc c CR = false) l.

(** The first digit is not a zero. *)
Definition no_leading_zero (b : str) : Prop :=
  match b with
  | [] => True
  | c :: _ => c <> "0"%char
  end.

(** [b] stands somewhere in front of [a] in the list. *)
Definition precedes {A} (b a : A) (l : list A) : Prop :=
  exists l1 l2 l3, l = l1 ++ b :: l2 ++ a :: l3.

(** The content of a quoted field: every quote is doubled. *)
Definition escape (field : str) : str :=
  flat_map (fun c => if eqc c DQUOTE then [DQUOTE; DQUOTE] else [c]) field.

(** The records the reader hands out on the text [s], when [cur] is the part
    of the current line read so far and [p] the parser at the start of that
    line. *)
Definition read_from (p : parser) (cur s : str) : result (list (list str)) :=
  read_records (file_lines_from cur s) p.

(** Pairs whose barcodes need quotes: a comma-free barcode with a line end
    in front, and one with white space behind. *)
Definition quoted_results : list (str * str) :=
  [([LF] ++ py "12", py "abc12345-1111-2222-3333-444455556666");
   (py "7 ", py "sig,with" ++ [DQUOTE] ++ py "quote")].

(** A root with two complete folders, listed with the larger barcode
    first, and one folder without metadata file. *)
Definition two_plates_root : list (str * node) :=
  [(py "200__B", Dir [(py "indexfile.txt", File well_formed_file)]);
   (py "300__C", Dir []);
   (py "10__A", Dir [(py "indexfile.txt", File two_rows_file)])].

(** *** Lines without the white space around them *)

(** White space at the ends of a line: TAB, LF, VT, FF, CR, the four
    separators FS, GS, RS, US and the blank. *)
Definition white_space (c : ascii) : Prop :=
  In c [TAB; LF; "011"%char; "012"%char; CR;
        "028"%char; "029"%char; "030"%char; "031"%char; " "%char].

(** Neither the first nor the last character is white space. *)
Definition trimmed (t : str) : Prop :=
  match t with
  | [] => True
  | c :: _ => ~ white_space c
  end
  /\ match rev t with
     | [] => True
     | c :: _ => ~ white_space c
     end.

(** [t] is [line] without the white space at its two ends. *)
Definition stripped_of (line t : str) : Prop :=
  exists front back,
    line = front ++ t ++ back
    /\ Forall white_space front /\ Forall white_space back /\ trimmed t.

(** [body] is [line] without its line end. *)
Definition without_line_end (line body : str) : Prop :=
  line = body ++ [LF]
  \/ (line = body /\ match rev body with
                     | [] => True
                     | c :: _ => c <> LF
                     end).

(** The claim that the URL column is the leftmost column of the header line
    as it stands, at one file: the cell of the first data line at the index
    of that column, counted in the line as it stands, is what the reader
    hands to the extractor. *)
Definition url_column_of_header_line (path text : str) : Prop :=
  forall line1 rest header cols i line2 rest2 row cells,
    readline text = (line1, rest) ->
    without_line_end line1 header ->
    split [TAB] header = Ok cols ->
    first_url_column cols i ->
    readline rest = (line2, rest2) ->
    without_line_end line2 row ->
    split [TAB] row = Ok cells ->
    ro_value (process_indexfile path (File text))
    = match nth_error cells i with
      | Some url => extract_measurement_signature url
      | None => None
      end.

(** A header line that begins with a tab: its URL column is the second
    column of the line, and the first data line has the URL in its second
    cell. *)
Definition file_with_leading_tab : str :=
  [TAB] ++ py "URL" ++ [LF]
    ++ py "0" ++ [TAB]
    ++ py "http://host/abc12345-1111-2222-3333-444455556666/file" ++ [LF].

(** A header line with two tabs in front of the URL column, and a first data
    line that is one cell. *)
Definition file_with_leading_tabs : str :=
  [TAB; TAB] ++ py "URL" ++ [LF]
    ++ py "/abc12345-1111-2222-3333-444455556666/" ++ [LF].

Ltac solve_white_space :=
  unfold white_space; simpl; repeat (first [left; reflexivity | right]).

Ltac solve_not_white_space :=
  let H := fresh "H" in
  unfold white_space; simpl; intros H;
  repeat (destruct H as [H|H]; [discriminate H|]); exact H.

(** [line] is [front ++ t ++ back] for the concrete [front] and [back]. *)
Ltac solve_stripped_of front back :=
  exists front, back;
  split; [reflexivity|];
  split; [repeat (apply Forall_cons; [solve_white_space|]); apply Forall_nil|];
  split; [repeat (apply Forall_cons; [solve_white_space|]); apply Forall_nil|];
  split; first [exact I | solve_not_white_space].

(** *** The rows of the file and the value of a barcode *)










(** * Properties *)

(** ** Characters and strings *)

Lemma eqc_eq (a b : ascii) : eqc a b = true <-> a = b.
Proof. apply Ascii.eqb_eq. Qed.

Lemma eqc_refl (a : ascii) : eqc a a = true.
Proof. apply Ascii.eqb_refl. Qed.

Lemma eqc_neq (a b : ascii) : eqc a b = false <-> a <> b.
Proof. apply Ascii.eqb_neq. Qed.

Lemma str_eqb_eq (a b : str) : str_eqb a b = true <-> a = b.
Proof.
  revert b; induction a as [|x a IH]; intros [|y b]; simpl;
    try (split; [discriminate | discriminate]); try tauto.
  rewrite andb_true_iff, eqc_eq, IH. split.
  - intros [-> ->]; reflexivity.
  - intros H; injection H; auto.
Qed.

Lemma startswith_app (p r : str) : startswith p (p ++ r) = true.
Proof. induction p as [|a p IH]; simpl; [|rewrite eqc_refl]; auto. Qed.

Lemma startswith_inv (p s : str) :
  startswith p s = true -> exists r, s = p ++ r.
Proof.
  revert s; induction p as [|a p IH]; intros s H.
  - exists s; reflexivity.
  - destruct s as [|b s]; simpl in H; [discriminate|].
    apply andb_true_iff in H as [Hab Hps]. apply eqc_eq in Hab as ->.
    destruct (IH _ Hps) as [r ->]. exists r; reflexivity.
Qed.

(** [find] returns an index at which [sub] occurs... *)
Lemma find_Some_inv (sub s : str) (i : nat) :
  find sub s = Some i ->
  exists post, s = firstn i s ++ sub ++ post /\ length (firstn i s) = i.
Proof.
  revert i; induction s as [|c s IH]; intros i H.
  - simpl in H. destruct (startswith sub []) eqn:E; [|discriminate].
    injection H as <-. apply startswith_inv in E as [r E].
    exists r; simpl; auto.
  - simpl in H. destruct (startswith sub (c :: s)) eqn:E.
    + injection H as <-. apply startswith_inv in E as [r E].
      exists r; simpl; auto.
    + destruct (find sub s) as [j|] eqn:F; [|discriminate].
      injection H as <-. destruct (IH j eq_refl) as [post [Hs Hl]].
      exists post; simpl. rewrite Hl. split; [f_equal; exact Hs | reflexivity].
Qed.

(** ... the lowest one ... *)
Lemma find_least (sub s pre post : str) (i : nat) :
  find sub s = Some i -> s = pre ++ sub ++ post -> i <= length pre.
Proof.
  revert s i; induction pre as [|c pre IH]; intros s i H ->.
  - simpl in H. destruct sub; simpl in H.
    + destruct post; injection H as <-; auto.
    + rewrite eqc_refl, startswith_app in H. injection H as <-; auto.
  - simpl app in H. simpl in H.
    destruct (startswith sub (c :: pre ++ sub ++ post)).
    + injection H as <-; simpl; lia.
    + destruct (find sub (pre ++ sub ++ post)) as [j|] eqn:F; [|discriminate].
      injection H as <-. simpl. specialize (IH _ _ F eq_refl). lia.
Qed.

(** ... and finds every string that holds [sub]. *)
Lemma find_complete (sub pre post : str) :
  find sub (pre ++ sub ++ post) <> None.
Proof.
  induction pre as [|c pre IH].
  - simpl app. destruct sub; simpl.
    + destruct post; discriminate.
    + rewrite eqc_refl, startswith_app. discriminate.
  - simpl app. simpl.
    destruct (startswith sub (c :: pre ++ sub ++ post)); [discriminate|].
    destruct (find sub (pre ++ sub ++ post)); [discriminate | contradiction].
Qed.

Lemma find_None_inv (sub s pre post : str) :
  find sub s = None -> s <> pre ++ sub ++ post.
Proof. intros H ->. exact (find_complete _ _ _ H). Qed.

(** Any fuel from the length of the string on gives the same list: the
    string gets shorter at each cut. *)
Lemma split_from_fuel (sep s : str) (f1 f2 : nat) :
  sep <> [] -> length s <= f1 -> length s <= f2 ->
  split_from f1 sep s = split_from f2 sep s.
Proof.
  intros Hsep. revert s f2; induction f1 as [|f1 IH]; intros s f2 H1 H2.
  - destruct s; [|simpl in H1; lia].
    destruct f2; simpl; [reflexivity|].
    destruct (startswith sep []) eqn:E; [|reflexivity].
    apply startswith_inv in E as [r E]. destruct sep; [contradiction|discriminate].
  - destruct f2 as [|f2].
    + destruct s; [|simpl in H2; lia]. simpl.
      destruct (startswith sep []) eqn:E; [|reflexivity].
      apply startswith_inv in E as [r E].
      destruct sep; [contradiction|discriminate].
    + simpl. destruct (find sep s) as [i|] eqn:F; [|reflexivity].
      f_equal. destruct (find_Some_inv _ _ _ F) as [post [Hs Hl]].
      assert (Hlen : length s = i + length sep + length post).
      { rewrite Hs at 1. rewrite !length_app, Hl. lia. }
      assert (0 < length sep) by (destruct sep; [contradiction | simpl; lia]).
      apply IH; rewrite length_skipn; lia.
Qed.

(** The equation of [split]: cut at the first occurrence, go on behind. *)
Lemma split_from_unfold (sep s : str) :
  sep <> [] ->
  split_from (length s) sep s =
  match find sep s with
  | None => [s]
  | Some i =>
      let rest := skipn (i + length sep) s in
      firstn i s :: split_from (length rest) sep rest
  end.
Proof.
  intros Hsep. destruct (find sep s) as [i|] eqn:F.
  - destruct s as [|c s].
    + simpl in F. destruct (startswith sep []) eqn:E; [|discriminate].
      apply startswith_inv in E as [r E].
      destruct sep; [contradiction|discriminate].
    + cbn [length split_from]. rewrite F. cbv zeta. f_equal.
      destruct (find_Some_inv _ _ _ F) as [post [Hs Hl]].
      assert (Hlen : length (c :: s) = i + length sep + length post).
      { rewrite Hs at 1. rewrite !length_app, Hl. lia. }
      assert (0 < length sep) by (destruct sep; [contradiction | simpl; lia]).
      cbn [length] in Hlen.
      apply split_from_fuel; auto; rewrite length_skipn; cbn [length]; lia.
  - destruct (length s); simpl; [|rewrite F]; reflexivity.
Qed.

Lemma split_head (sep s : str) (fuel : nat) :
  hd_error (split_from fuel sep s) =
  match fuel, find sep s with
  | S _, Some i => Some (firstn i s)
  | _, _ => Some s
  end.
Proof. destruct fuel; simpl; [|destruct (find sep s)]; reflexivity. Qed.

(** ** [extract_plate_barcode] *)

Lemma extract_plate_barcode_total (folder_name : str) :
  exists barcode, extract_plate_barcode folder_name = Ok barcode.
Proof.
  unfold extract_plate_barcode, split, py, getitem.
  cbn [list_ascii_of_string bind].
  destruct (length folder_name); cbn [split_from]; [simpl; eauto|].
  destruct (find _ folder_name); simpl; eauto.
Qed.

(** C7. A folder name that holds the delimiter [__] gives the text in front
    of its first occurrence; a folder name without it is returned whole; no
    folder name raises. *)
Theorem extract_plate_barcode_spec (folder_name : str) :
  (forall pre post,
      first_occurrence (py "__") folder_name pre post ->
      extract_plate_barcode folder_name = Ok pre)
  /\ (~ occurs (py "__") folder_name ->
      extract_plate_barcode folder_name = Ok folder_name)
  /\ (exists barcode, extract_plate_barcode folder_name = Ok barcode).
Proof.
  unfold extract_plate_barcode, split, py, getitem. cbn [list_ascii_of_string bind].
  set (sep := ["_"%char; "_"%char]).
  assert (Hhd : forall l : list str,
             nth_error l 0 = hd_error l) by (intros []; reflexivity).
  rewrite Hhd, split_head. repeat split.
  - intros pre post [Hs Hmin].
    destruct (find sep folder_name) as [i|] eqn:F.
    + destruct (find_Some_inv _ _ _ F) as [post' [Hs' Hl]].
      pose proof (find_least _ _ _ _ _ F Hs) as Hle.
      pose proof (Hmin _ _ Hs') as Hge. rewrite Hl in Hge.
      assert (i = length pre) by lia. subst i.
      destruct (length folder_name) eqn:L.
      * rewrite Hs, !length_app in L. simpl in L. lia.
      * rewrite Hs at 1. rewrite firstn_app, firstn_all, Nat.sub_diag.
        simpl. rewrite app_nil_r. reflexivity.
    + exfalso. exact (find_None_inv _ _ _ _ F Hs).
  - intros Hno. destruct (find sep folder_name) as [i|] eqn:F.
    + exfalso. apply Hno. destruct (find_Some_inv _ _ _ F) as [post [Hs _]].
      exists (firstn i folder_name), post. exact Hs.
    + destruct (length folder_name); reflexivity.
  - destruct (length folder_name); [eauto|].
    destruct (find sep folder_name); eauto.
Qed.

Lemma extract_plate_barcode_spec_witness :
  extract_plate_barcode (py "30082__2025-05-31T01_01_45-Measurement 1")
  = Ok (py "30082")
  /\ extract_plate_barcode (py "30082") = Ok (py "30082").
Proof.
  split.
  - apply (proj1 (extract_plate_barcode_spec _) (py "30082")
             (py "2025-05-31T01_01_45-Measurement 1")).
    split; [reflexivity|]. intros pre' post' H.
    refine (find_least _ _ _ _ 5 _ H). reflexivity.
  - apply (proj1 (proj2 (extract_plate_barcode_spec _))).
    intros [pre [post H]].
    refine (find_None_inv _ _ _ _ _ H). reflexivity.
Defined.

(** ** The matcher *)

Lemma match_rep_sound (a : atom) (n : nat) (s m r : str) :
  match_rep a n s = Some (m, r) ->
  s = m ++ r /\ length m = n /\ Forall (fun c => atom_ok a c = true) m.
Proof.
  revert s m; induction n as [|n IH]; intros s m H; simpl in H.
  - injection H as <- <-. auto.
  - destruct s as [|c s]; [discriminate|].
    destruct (atom_ok a c) eqn:E; [|discriminate].
    destruct (match_rep a n s) as [[m' r']|] eqn:M; [|discriminate].
    injection H as <- <-. destruct (IH _ _ M) as [-> [<- Hall]].
    repeat split; auto.
Qed.

Lemma match_rep_complete (a : atom) (m r : str) :
  Forall (fun c => atom_ok a c = true) m ->
  match_rep a (length m) (m ++ r) = Some (m, r).
Proof.
  induction 1 as [|c m Hc _ IH]; simpl; [reflexivity|].
  rewrite Hc, IH. reflexivity.
Qed.

Lemma match_items_sound (items : list item) (s m r : str) :
  match_items items s = Some (m, r) -> s = m ++ r /\ accepts items m.
Proof.
  revert s m; induction items as [|[a n] items IH]; intros s m H; simpl in H.
  - injection H as <- <-. simpl; auto.
  - destruct (match_rep a n s) as [[m1 r1]|] eqn:M1; [|discriminate].
    destruct (match_items items r1) as [[m2 r2]|] eqn:M2; [|discriminate].
    injection H as <- <-.
    destruct (match_rep_sound _ _ _ _ _ M1) as [-> [Hn Hall]].
    destruct (IH _ _ M2) as [-> Hacc].
    split; [apply app_assoc|]. simpl. exists m1, m2. auto.
Qed.

Lemma match_items_complete (items : list item) (m r : str) :
  accepts items m -> match_items items (m ++ r) = Some (m, r).
Proof.
  revert m; induction items as [|[a n] items IH]; intros m H; simpl in *.
  - subst m; reflexivity.
  - destruct H as [m1 [m2 [-> [<- [Hall Hacc]]]]].
    rewrite <- app_assoc, (match_rep_complete _ _ _ Hall), (IH _ Hacc).
    reflexivity.
Qed.

Lemma match_at_start (rx : regex) (pos : nat) (s : str) (m : match_obj) :
  match_at rx pos s = Some m -> m_start m = pos.
Proof.
  unfold match_at.
  destruct (match_items (re_before rx) s) as [[b s1]|]; [|discriminate].
  destruct (match_items (re_group rx) s1) as [[g s2]|]; [|discriminate].
  destruct (match_items (re_after rx) s2) as [[a s3]|]; [|discriminate].
  intros H; injection H as <-. reflexivity.
Qed.

(** Whether an attempt succeeds does not depend on the position counter. *)
Lemma match_at_None_pos (rx : regex) (p q : nat) (s : str) :
  match_at rx p s = None -> match_at rx q s = None.
Proof.
  unfold match_at.
  destruct (match_items (re_before rx) s) as [[b s1]|]; [|reflexivity].
  destruct (match_items (re_group rx) s1) as [[g s2]|]; [|reflexivity].
  destruct (match_items (re_after rx) s2) as [[a s3]|]; [|reflexivity].
  discriminate.
Qed.

(** [search_from] stops at the first position where an attempt succeeds. *)
Lemma search_from_sound (rx : regex) (pos : nat) (s : str) (m : match_obj) :
  search_from rx pos s = Some m ->
  exists pre rest,
    s = pre ++ rest /\ match_at rx (pos + length pre) rest = Some m
    /\ forall pre' rest' k,
        s = pre' ++ rest' -> length pre' < length pre ->
        match_at rx k rest' = None.
Proof.
  revert pos; induction s as [|c s IH]; intros pos H; simpl in H.
  - destruct (match_at rx pos []) eqn:E; [|discriminate].
    injection H as ->. exists [], []. rewrite Nat.add_0_r.
    repeat split; auto. simpl; intros; lia.
  - destruct (match_at rx pos (c :: s)) eqn:E.
    + injection H as ->. exists [], (c :: s). rewrite Nat.add_0_r.
      repeat split; auto. simpl; intros; lia.
    + destruct (IH _ H) as [pre [rest [-> [Hm Hleft]]]].
      exists (c :: pre), rest. simpl length.
      rewrite Nat.add_succ_r. repeat split; auto.
      intros [|c' pre'] rest' k Heq Hlt.
      * simpl in Heq. subst rest'. exact (match_at_None_pos _ _ _ _ E).
      * simpl in Heq. injection Heq as -> Heq.
        apply (Hleft pre'); [exact Heq | simpl in Hlt; lia].
Qed.

Lemma search_from_None (rx : regex) (pos : nat) (s : str) :
  search_from rx pos s = None ->
  forall pre rest k, s = pre ++ rest -> match_at rx k rest = None.
Proof.
  revert pos; induction s as [|c s IH]; intros pos H pre rest k Heq; simpl in H.
  - destruct (match_at rx pos []) eqn:E; [discriminate|].
    destruct pre; [|discriminate]. simpl in Heq; subst rest.
    exact (match_at_None_pos _ _ _ _ E).
  - destruct (match_at rx pos (c :: s)) eqn:E; [discriminate|].
    destruct pre as [|c' pre]; simpl in Heq.
    + subst rest. exact (match_at_None_pos _ _ _ _ E).
    + injection Heq as -> Heq. exact (IH _ H _ _ _ Heq).
Qed.

(** ** The UUID pattern *)

Lemma hex_class_digits (c : ascii) :
  atom_ok hex_class c = existsb (eqc c) (py "0123456789abcdef").
Proof. destruct c as [[] [] [] [] [] [] [] []]; reflexivity. Qed.

(** The class [[a-f0-9]] is the set of lowercase hexadecimal digits. *)
Lemma hex_class_lower_hex (c : ascii) :
  atom_ok hex_class c = true <-> lower_hex c.
Proof.
  rewrite hex_class_digits, existsb_exists. unfold lower_hex. split.
  - intros [x [Hin Hx]]. apply eqc_eq in Hx. subst x. exact Hin.
  - intros Hin. exists c. split; [exact Hin | apply eqc_refl].
Qed.

Lemma Forall_hex_class (g : str) :
  Forall (fun c => atom_ok hex_class c = true) g <-> Forall lower_hex g.
Proof.
  split; intros H; eapply Forall_impl; try exact H;
    intros c Hc; apply hex_class_lower_hex; exact Hc.
Qed.

Lemma accepts_chr (c : ascii) (items : list item) (m : str) :
  accepts (Rep (Chr c) 1 :: items) m <-> exists m', m = c :: m' /\ accepts items m'.
Proof.
  simpl. split.
  - intros [m1 [m2 [-> [Hl [Hall Hacc]]]]].
    destruct m1 as [|x [|y m1]]; try discriminate.
    inversion Hall as [|? ? Hx _]; subst. simpl in Hx. apply eqc_eq in Hx.
    subst x. exists m2; auto.
  - intros [m' [-> Hacc]]. exists [c], m'. repeat split; auto.
    constructor; [apply eqc_refl | constructor].
Qed.

Lemma accepts_hex (n : nat) (items : list item) (m : str) :
  accepts (Rep hex_class n :: items) m <->
  exists g m', m = g ++ m' /\ hex_group n g /\ accepts items m'.
Proof.
  simpl. unfold hex_group. split.
  - intros [m1 [m2 [-> [Hl [Hall Hacc]]]]]. exists m1, m2.
    rewrite <- Forall_hex_class. auto.
  - intros [g [m' [-> [[Hl Hall] Hacc]]]]. exists g, m'.
    rewrite Forall_hex_class. auto.
Qed.

(** The group of the pattern matches the UUID forms, and nothing else. *)
Lemma group_accepts_uuid (seg : str) :
  accepts (re_group pattern) seg <-> is_uuid seg.
Proof.
  unfold pattern, re_group, is_uuid. split.
  - intros H.
    apply accepts_hex in H as [g1 [m1 [-> [H1 H]]]].
    apply accepts_chr in H as [m1' [-> H]].
    apply accepts_hex in H as [g2 [m2 [-> [H2 H]]]].
    apply accepts_chr in H as [m2' [-> H]].
    apply accepts_hex in H as [g3 [m3 [-> [H3 H]]]].
    apply accepts_chr in H as [m3' [-> H]].
    apply accepts_hex in H as [g4 [m4 [-> [H4 H]]]].
    apply accepts_chr in H as [m4' [-> H]].
    apply accepts_hex in H as [g5 [m5 [-> [H5 H]]]].
    simpl in H. subst m5. rewrite app_nil_r.
    exists g1, g2, g3, g4, g5. split; [reflexivity | tauto].
  - intros [g1 [g2 [g3 [g4 [g5 [-> [H1 [H2 [H3 [H4 H5]]]]]]]]]].
    apply accepts_hex. exists g1; eexists; split; [reflexivity|]. split; [exact H1|].
    apply accepts_chr. eexists; split; [reflexivity|].
    apply accepts_hex. exists g2; eexists; split; [reflexivity|]. split; [exact H2|].
    apply accepts_chr. eexists; split; [reflexivity|].
    apply accepts_hex. exists g3; eexists; split; [reflexivity|]. split; [exact H3|].
    apply accepts_chr. eexists; split; [reflexivity|].
    apply accepts_hex. exists g4; eexists; split; [reflexivity|]. split; [exact H4|].
    apply accepts_chr. eexists; split; [reflexivity|].
    apply accepts_hex. exists g5, []. rewrite app_nil_r. simpl. auto.
Qed.

Lemma slash_accepts (m : str) :
  accepts [Rep (Chr SLASH) 1] m <-> m = [SLASH].
Proof.
  rewrite accepts_chr. simpl. split.
  - intros [m' [-> ->]]; reflexivity.
  - intros ->. exists []; auto.
Qed.

(** An attempt succeeds exactly on a slash, a UUID, a slash. *)
Lemma match_at_sound (pos : nat) (s : str) (m : match_obj) :
  match_at pattern pos s = Some m ->
  exists post,
    s = [SLASH] ++ m_group1 m ++ [SLASH] ++ post /\ is_uuid (m_group1 m).
Proof.
  unfold match_at.
  destruct (match_items (re_before pattern) s) as [[b s1]|] eqn:B; [|discriminate].
  destruct (match_items (re_group pattern) s1) as [[g s2]|] eqn:G; [|discriminate].
  destruct (match_items (re_after pattern) s2) as [[a s3]|] eqn:A; [|discriminate].
  intros H; injection H as <-. simpl.
  apply match_items_sound in B as [-> Hb].
  apply match_items_sound in G as [-> Hg].
  apply match_items_sound in A as [-> Ha].
  apply slash_accepts in Hb, Ha. subst a b.
  apply group_accepts_uuid in Hg. exists s3. auto.
Qed.

Lemma match_at_complete (pos : nat) (seg post : str) :
  is_uuid seg ->
  exists m,
    match_at pattern pos ([SLASH] ++ seg ++ [SLASH] ++ post) = Some m
    /\ m_group1 m = seg.
Proof.
  intros H. apply group_accepts_uuid in H. unfold match_at.
  rewrite (match_items_complete (re_before pattern) [SLASH] _
             (proj2 (slash_accepts _) eq_refl)).
  rewrite (match_items_complete _ _ _ H).
  rewrite (match_items_complete (re_after pattern) [SLASH] _
             (proj2 (slash_accepts _) eq_refl)).
  eexists; split; reflexivity.
Qed.

(** ** [extract_measurement_signature] *)

Lemma extract_Some_leftmost (url seg : str) :
  extract_measurement_signature url = Some seg ->
  leftmost_uuid_segment url seg.
Proof.
  unfold extract_measurement_signature, re_search.
  destruct (search_from pattern 0 url) as [m|] eqn:S; [|discriminate].
  intros H; injection H as <-.
  destruct (search_from_sound _ _ _ _ S) as [pre [rest [-> [Hm Hleft]]]].
  destruct (match_at_sound _ _ _ Hm) as [post [-> Hu]].
  exists pre, post. split; [split; auto|].
  intros pre' seg' post' [Heq Hu'].
  destruct (Nat.le_gt_cases (length pre) (length pre')) as [|Hlt]; [assumption|].
  destruct (match_at_complete 0 seg' post' Hu') as [m' [Hm' _]].
  rewrite (Hleft pre' _ 0 Heq Hlt) in Hm'. discriminate.
Qed.

Lemma extract_None_no_segment (url : str) :
  extract_measurement_signature url = None -> ~ has_uuid_segment url.
Proof.
  unfold extract_measurement_signature, re_search.
  destruct (search_from pattern 0 url) as [m|] eqn:S; [discriminate|].
  intros _ [pre [seg [post [Heq Hu]]]].
  destruct (match_at_complete 0 seg post Hu) as [m [Hm _]].
  rewrite (search_from_None _ _ _ S pre _ 0 Heq) in Hm. discriminate.
Qed.

(** Two UUID segments that start at the same place are the same. *)
Lemma uuid_segment_same_start (url pre seg post pre' seg' post' : str) :
  uuid_segment url pre seg post -> uuid_segment url pre' seg' post' ->
  length pre = length pre' -> seg = seg'.
Proof.
  intros [H1 U1] [H2 U2] Hl.
  assert (L : forall x, is_uuid x -> length x = 36).
  { intros x [g1 [g2 [g3 [g4 [g5 [-> [[L1 _] [[L2 _] [[L3 _] [[L4 _] [L5 _]]]]]]]]]]].
    rewrite !length_app. simpl. lia. }
  rewrite H1 in H2. apply app_eq_app in H2 as [l [[E1 E2]|[E1 E2]]].
  - assert (l = []) by (destruct l; [reflexivity|];
                        rewrite E1, length_app in Hl; simpl in Hl; lia).
    subst l. simpl in E2. injection E2 as E2.
    apply app_eq_app in E2 as [l [[E3 E4]|[E3 E4]]];
      (assert (l = []) by (destruct l; [reflexivity|];
         apply (f_equal (@length ascii)) in E3; rewrite length_app in E3;
         rewrite (L _ U1), (L _ U2) in E3; simpl in E3; lia));
      subst l; rewrite app_nil_r in E3; auto.
  - assert (l = []) by (destruct l; [reflexivity|];
                        rewrite E1, length_app in Hl; simpl in Hl; lia).
    subst l. simpl in E2. injection E2 as E2.
    apply app_eq_app in E2 as [l [[E3 E4]|[E3 E4]]];
      (assert (l = []) by (destruct l; [reflexivity|];
         apply (f_equal (@length ascii)) in E3; rewrite length_app in E3;
         rewrite (L _ U1), (L _ U2) in E3; simpl in E3; lia));
      subst l; rewrite app_nil_r in E3; auto.
Qed.

Lemma lower_hex_not_upper (c : ascii) : lower_hex c -> is_upper c = false.
Proof.
  unfold lower_hex. simpl.
  intros H; repeat (destruct H as [<-|H]; [reflexivity|]). contradiction.
Qed.

Lemma is_uuid_no_upper (seg : str) :
  is_uuid seg -> Forall (fun c => is_upper c = false) seg.
Proof.
  intros [g1 [g2 [g3 [g4 [g5 [-> [[_ H1] [[_ H2] [[_ H3] [[_ H4] [_ H5]]]]]]]]]]].
  assert (G : forall g, Forall lower_hex g ->
                        Forall (fun c => is_upper c = false) g).
  { intros g Hg. eapply Forall_impl; [|exact Hg]. apply lower_hex_not_upper. }
  repeat (apply Forall_app; split); auto; repeat constructor.
Qed.

(** C1. On a URL that holds a path segment in the canonical lowercase UUID
    form, enclosed by slashes, the function returns such a segment: the
    leftmost one, hence that very segment when the URL holds no other. On a
    URL without such a segment it returns [None]. A segment with an
    uppercase letter is never the result. *)
Theorem extract_measurement_signature_spec (url : str) :
  (forall seg,
      leftmost_uuid_segment url seg ->
      extract_measurement_signature url = Some seg)
  /\ (has_uuid_segment url ->
     exists seg, extract_measurement_signature url = Some seg
                 /\ leftmost_uuid_segment url seg)
  /\ (forall pre seg post,
        uuid_segment url pre seg post ->
        (forall pre' seg' post', uuid_segment url pre' seg' post' -> seg' = seg) ->
        extract_measurement_signature url = Some seg)
  /\ (~ has_uuid_segment url -> extract_measurement_signature url = None)
  /\ (forall seg,
        Exists (fun c => is_upper c = true) seg ->
        extract_measurement_signature url <> Some seg).
Proof.
  assert (Hfound : has_uuid_segment url ->
            exists seg, extract_measurement_signature url = Some seg
                        /\ leftmost_uuid_segment url seg).
  { intros Hhas. destruct (extract_measurement_signature url) as [seg|] eqn:E.
    - exists seg. split; [reflexivity | exact (extract_Some_leftmost _ _ E)].
    - exfalso. exact (extract_None_no_segment _ E Hhas). }
  split; [|split; [exact Hfound|]]; [|split; [|split]].
  - intros seg [pre [post [Hseg Hleft]]].
    destruct Hfound as [seg' [E [pre' [post' [Hseg' Hleft']]]]].
    { exists pre, seg, post; exact Hseg. }
    rewrite E. f_equal.
    apply (uuid_segment_same_start url pre' seg' post' pre seg post); auto.
    apply Nat.le_antisymm; [exact (Hleft' _ _ _ Hseg) | exact (Hleft _ _ _ Hseg')].
  - intros pre seg post Hseg Honly.
    destruct Hfound as [seg' [E [pre' [post' [Hseg' _]]]]].
    { exists pre, seg, post; exact Hseg. }
    rewrite E. f_equal. exact (Honly _ _ _ Hseg').
  - intros Hno. destruct (extract_measurement_signature url) as [seg|] eqn:E;
      [|reflexivity].
    exfalso. apply Hno.
    destruct (extract_Some_leftmost _ _ E) as [pre [post [Hseg _]]].
    exists pre, seg, post; exact Hseg.
  - intros seg Hup E.
    destruct (extract_Some_leftmost _ _ E) as [pre [post [[_ Hu] _]]].
    pose proof (is_uuid_no_upper _ Hu) as Hlow.
    apply Exists_exists in Hup as [c [Hin Hc]].
    rewrite Forall_forall in Hlow. rewrite (Hlow _ Hin) in Hc. discriminate.
Qed.

Lemma extract_measurement_signature_spec_witness :
  exists seg,
    extract_measurement_signature
      (py "http://host/abc12345-1111-2222-3333-444455556666/file") = Some seg
    /\ leftmost_uuid_segment
         (py "http://host/abc12345-1111-2222-3333-444455556666/file") seg.
Proof.
  apply (proj1 (proj2 (extract_measurement_signature_spec _))).
  exists (py "http://host"), (py "abc12345-1111-2222-3333-444455556666"),
    (py "file").
  split; [reflexivity|].
  exists (py "abc12345"), (py "1111"), (py "2222"), (py "3333"),
    (py "444455556666").
  split; [reflexivity|].
  repeat (split; [solve_hex_group|]). solve_hex_group.
Defined.

(** An uppercase UUID is not found. *)
Example extract_measurement_signature_uppercase :
  extract_measurement_signature
    (py "http://host/ABC12345-1111-2222-3333-444455556666/file") = None.
Proof. reflexivity. Qed.

(** A UUID at the end of the URL, with no slash behind it, is not found. *)
Example extract_measurement_signature_no_closing_slash :
  extract_measurement_signature
    (py "http://host/abc12345-1111-2222-3333-444455556666") = None.
Proof. reflexivity. Qed.

(** ** The URL column *)

Lemma contains_occurs (sub s : str) : contains sub s = true <-> occurs sub s.
Proof.
  unfold contains, occurs. destruct (find sub s) as [i|] eqn:F; split.
  - intros _. destruct (find_Some_inv _ _ _ F) as [post [Hs _]].
    exists (firstn i s), post. exact Hs.
  - reflexivity.
  - discriminate.
  - intros [pre [post Hs]]. exfalso. exact (find_None_inv _ _ _ _ F Hs).
Qed.

Lemma upper_char_U (c : ascii) :
  eqc (upper_char c) "U" = eqc c "u" || eqc c "U".
Proof. destruct c as [[] [] [] [] [] [] [] []]; reflexivity. Qed.

Lemma upper_char_R (c : ascii) :
  eqc (upper_char c) "R" = eqc c "r" || eqc c "R".
Proof. destruct c as [[] [] [] [] [] [] [] []]; reflexivity. Qed.

Lemma upper_char_L (c : ascii) :
  eqc (upper_char c) "L" = eqc c "l" || eqc c "L".
Proof. destruct c as [[] [] [] [] [] [] [] []]; reflexivity. Qed.

Lemma upper_char_is (c X x : ascii) :
  eqc (upper_char c) X = eqc c x || eqc c X ->
  upper_char c = X <-> (c = x \/ c = X).
Proof.
  intros H. rewrite <- !eqc_eq, H, orb_true_iff. reflexivity.
Qed.

(** ['URL' in col.upper()] says that [col] holds URL in some mix of cases. *)
Lemma contains_URL_upper (col : str) :
  contains (py "URL") (upper col) = true <-> contains_url_ci col.
Proof.
  rewrite contains_occurs. unfold occurs, contains_url_ci, upper. split.
  - intros [pre [post H]].
    apply map_eq_app in H as [pre0 [rest0 [-> [Hpre H]]]].
    destruct rest0 as [|u [|r [|l post0]]]; try discriminate.
    simpl in H. injection H as Hu Hr Hl Hpost.
    exists pre0, u, r, l, post0. split; [reflexivity|].
    rewrite <- (upper_char_is u _ _ (upper_char_U u)).
    rewrite <- (upper_char_is r _ _ (upper_char_R r)).
    rewrite <- (upper_char_is l _ _ (upper_char_L l)). auto.
  - intros [pre [u [r [l [post [-> [Hu [Hr Hl]]]]]]]].
    apply (upper_char_is u _ _ (upper_char_U u)) in Hu.
    apply (upper_char_is r _ _ (upper_char_R r)) in Hr.
    apply (upper_char_is l _ _ (upper_char_L l)) in Hl.
    exists (map upper_char pre), (map upper_char post).
    rewrite map_app. simpl. rewrite Hu, Hr, Hl. reflexivity.
Qed.

Lemma contains_URL_upper_false (col : str) :
  contains (py "URL") (upper col) = false <-> ~ contains_url_ci col.
Proof.
  rewrite <- contains_URL_upper. destruct (contains _ _); split; auto;
    try discriminate. intros H; exfalso; apply H; reflexivity.
Qed.

Lemma find_url_col_Some (cols : list str) (i0 i : nat) :
  find_url_col i0 cols = Some i ->
  exists k, i = i0 + k /\ first_url_column cols k.
Proof.
  revert i0; induction cols as [|col cols IH]; intros i0 H;
    cbn [find_url_col] in H.
  - discriminate.
  - destruct (contains (py "URL") (upper col)) eqn:E.
    + injection H as <-. exists 0. split; [lia|]. split.
      * exists col. split; [reflexivity | apply contains_URL_upper; exact E].
      * intros j c Hj; lia.
    + destruct (IH _ H) as [k [-> [[c [Hc Hci]] Hleft]]].
      exists (S k). split; [lia|]. split.
      * exists c; auto.
      * intros [|j] c' Hj Hn; simpl in Hn.
        -- injection Hn as <-. apply contains_URL_upper_false; exact E.
        -- apply (Hleft j); [lia | exact Hn].
Qed.

Lemma find_url_col_None (cols : list str) (i0 : nat) :
  find_url_col i0 cols = None <->
  forall col, In col cols -> ~ contains_url_ci col.
Proof.
  revert i0; induction cols as [|col cols IH]; intros i0;
    cbn [find_url_col].
  - split; [intros _ c [] | reflexivity].
  - destruct (contains (py "URL") (upper col)) eqn:E.
    + split; [discriminate|]. intros H. exfalso.
      apply (H col); [left; reflexivity | apply contains_URL_upper; exact E].
    + rewrite IH. split.
      * intros H c [<-|Hin]; [apply contains_URL_upper_false; exact E | auto].
      * intros H c Hin. apply H. right; exact Hin.
Qed.

Lemma first_url_column_unique (cols : list str) (i j : nat) :
  first_url_column cols i -> first_url_column cols j -> i = j.
Proof.
  intros [[ci [Hi Hci]] Li] [[cj [Hj Hcj]] Lj].
  destruct (Nat.lt_trichotomy i j) as [H|[H|H]]; [|assumption|].
  - exfalso. exact (Lj _ _ H Hi Hci).
  - exfalso. exact (Li _ _ H Hj Hcj).
Qed.

(** The loop finds the leftmost column whose name holds URL. *)
Lemma find_url_col_first (cols : list str) (i : nat) :
  find_url_col 0 cols = Some i <-> first_url_column cols i.
Proof.
  split.
  - intros H. destruct (find_url_col_Some _ _ _ H) as [k [-> Hk]]. exact Hk.
  - intros Hi. destruct (find_url_col 0 cols) as [j|] eqn:F.
    + destruct (find_url_col_Some _ _ _ F) as [k [-> Hk]].
      f_equal. simpl. exact (first_url_column_unique _ _ _ Hk Hi).
    + exfalso. destruct Hi as [[c [Hc Hci]] _].
      rewrite find_url_col_None in F.
      exact (F c (nth_error_In _ _ Hc) Hci).
Qed.

(** *** The columns of a line and of the stripped line *)

Lemma find_char_cons (c x : ascii) (s : str) :
  find [c] (x :: s) = if eqc c x then Some 0 else option_map S (find [c] s).
Proof. cbn [find startswith]. destruct (eqc c x); reflexivity. Qed.

(** Splitting on one character, read from the front of the string. *)
Lemma split_char_cons (c x : ascii) (s : str) :
  split_from (S (length s)) [c] (x :: s) =
  if eqc c x then [] :: split_from (length s) [c] s
  else match split_from (length s) [c] s with
       | h :: t => (x :: h) :: t
       | [] => [[x]]
       end.
Proof.
  change (split_from (S (length s)) [c] (x :: s))
    with (match find [c] (x :: s) with
          | None => [x :: s]
          | Some i =>
              firstn i (x :: s)
                :: split_from (length s) [c] (skipn (i + length [c]) (x :: s))
          end).
  rewrite find_char_cons. destruct (eqc c x); [reflexivity|].
  rewrite (split_from_unfold [c] s) by discriminate.
  destruct (find [c] s) as [i|] eqn:F; cbn [option_map]; [|reflexivity].
  cbv zeta. cbn [firstn length]. f_equal.
  rewrite Nat.add_succ_l. cbn [skipn].
  apply split_from_fuel; [discriminate| |]; rewrite ?length_skipn; lia.
Qed.

(** The first column is a prefix of the line. *)
Lemma split_char_head (c : ascii) (s : str) :
  exists h t rest, split_from (length s) [c] s = h :: t /\ s = h ++ rest.
Proof.
  induction s as [|x s IH].
  - exists [], [], []. auto.
  - cbn [length]. rewrite split_char_cons.
    destruct IH as [h [t [rest [E Hs]]]]. rewrite E.
    destruct (eqc c x).
    + exists [], (h :: t), (x :: s). auto.
    + exists (x :: h), t, rest. rewrite Hs at 1. auto.
Qed.

Lemma contains_url_ci_app_l (a b : str) :
  contains_url_ci a -> contains_url_ci (a ++ b).
Proof.
  intros [pre [u [r [l [post [-> H]]]]]].
  exists pre, u, r, l, (post ++ b). rewrite <- !app_assoc. auto.
Qed.

Lemma contains_url_ci_app_r (a b : str) :
  contains_url_ci b -> contains_url_ci (a ++ b).
Proof.
  intros [pre [u [r [l [post [-> H]]]]]].
  exists (a ++ pre), u, r, l, post. rewrite <- !app_assoc. auto.
Qed.

Lemma contains_url_ci_cons (x : ascii) (s : str) :
  contains_url_ci s -> contains_url_ci (x :: s).
Proof. apply (contains_url_ci_app_r [x]). Qed.

(** A character that is none of the letters of URL is in no occurrence. *)
Lemma contains_url_ci_skip (x : ascii) (s : str) :
  url_letter x = false -> contains_url_ci (x :: s) -> contains_url_ci s.
Proof.
  intros Hx [pre [u [r [l [post [E [Hu Hrl]]]]]]].
  destruct pre as [|y pre]; cbn [app] in E; injection E as -> E.
  - exfalso. unfold url_letter in Hx.
    destruct Hu as [-> | ->]; discriminate.
  - exists pre, u, r, l, post. tauto.
Qed.

(** The line holds URL if and only if one of its columns does. *)
Lemma contains_url_ci_columns (s : str) :
  contains_url_ci s <->
  exists col, In col (split_from (length s) [TAB] s) /\ contains_url_ci col.
Proof.
  induction s as [|x s IH].
  - split.
    + intros [pre [u [r [l [post [E _]]]]]]. destruct pre; discriminate.
    + intros [col [[<-|[]] [pre [u [r [l [post [E _]]]]]]]].
      destruct pre; discriminate.
  - cbn [length]. rewrite split_char_cons.
    destruct (split_char_head TAB s) as [h [t [rest [E Hs]]]]. rewrite E in *.
    destruct (eqc TAB x) eqn:Ex.
    + apply eqc_eq in Ex. subst x. split.
      * intros H. apply contains_url_ci_skip in H; [|reflexivity].
        apply IH in H as [col [Hin Hc]]. exists col. split; [right|]; auto.
      * intros [col [[<-|Hin] Hc]].
        -- destruct Hc as [pre [u [r [l [post [Ec _]]]]]].
           destruct pre; discriminate.
        -- apply contains_url_ci_cons. apply IH. exists col; auto.
    + split.
      * intros H.
        destruct H as [pre [u [r [l [post [Ec Hurl]]]]]].
        destruct pre as [|y pre]; cbn [app] in Ec.
        -- exists (x :: h). split; [left; reflexivity|].
           injection Ec as -> Ec.
           assert (Hnt : forall c, (c = r \/ c = l) -> eqc TAB c = false).
           { intros c [-> | ->]; destruct Hurl as [_ [[-> | ->] [-> | ->]]];
               reflexivity. }
           clear IH. subst s. rewrite Ec in E.
           pose proof (split_char_cons TAB r (l :: post)) as E1.
           pose proof (split_char_cons TAB l post) as E2.
           rewrite (Hnt r (or_introl eq_refl)) in E1.
           rewrite (Hnt l (or_intror eq_refl)) in E2.
           change (length (r :: l :: post)) with (S (length (l :: post))) in E.
           rewrite E1 in E.
           change (length (l :: post)) with (S (length post)) in E.
           rewrite E2 in E.
           destruct (split_char_head TAB post) as [h' [t' [rest' [E' _]]]].
           rewrite E' in E. injection E as <- _.
           exists [], u, r, l, h'. tauto.
        -- injection Ec as -> Ec.
           assert (Hs' : contains_url_ci s).
           { exists pre, u, r, l, post. tauto. }
           apply IH in Hs' as [col [[<-|Hin] Hc]].
           ++ exists (y :: h). split; [left; reflexivity|].
              apply contains_url_ci_cons. exact Hc.
           ++ exists col. split; [right; exact Hin | exact Hc].
      * intros [col [[<-|Hin] Hc]].
        -- rewrite Hs. apply (contains_url_ci_app_l (x :: h)). exact Hc.
        -- apply contains_url_ci_cons. apply IH. exists col.
           split; [right; exact Hin | exact Hc].
Qed.

Lemma is_space_not_url_letter (c : ascii) :
  is_space c = true -> url_letter c = false.
Proof. destruct c as [[] [] [] [] [] [] [] []]; try reflexivity; discriminate. Qed.

Lemma lstrip_split (s : str) :
  exists ws,
    s = ws ++ lstrip_by is_space s /\ Forall (fun c => is_space c = true) ws.
Proof.
  induction s as [|c s IH]; cbn [lstrip_by].
  - exists []. auto.
  - destruct (is_space c) eqn:E.
    + destruct IH as [ws [Hs Hws]]. exists (c :: ws).
      split; [cbn [app]; f_equal; exact Hs | constructor; assumption].
    + exists []. auto.
Qed.

Lemma contains_url_ci_drop_left (ws s : str) :
  Forall (fun c => is_space c = true) ws ->
  contains_url_ci (ws ++ s) -> contains_url_ci s.
Proof.
  induction 1 as [|c ws Hc _ IH]; intros H; [exact H|].
  apply IH. apply (contains_url_ci_skip c); [|exact H].
  apply is_space_not_url_letter. exact Hc.
Qed.

Lemma contains_url_ci_drop_right (s ws : str) :
  Forall (fun c => is_space c = true) ws ->
  contains_url_ci (s ++ ws) -> contains_url_ci s.
Proof.
  intros Hws. induction ws as [|c ws IH] using rev_ind; intros H.
  - rewrite app_nil_r in H. exact H.
  - apply Forall_app in Hws as [Hws Hc]. inversion Hc as [|? ? Hsp _]; subst.
    apply IH; [exact Hws|].
    destruct H as [pre [u [r [l [post [E Hurl]]]]]].
    destruct post as [|z post _] using rev_ind.
    + exfalso. rewrite app_nil_r in E.
      change (pre ++ [u; r; l]) with (pre ++ [u; r] ++ [l]) in E.
      rewrite !app_assoc in E. apply app_inj_tail in E as [_ <-].
      apply is_space_not_url_letter in Hsp. unfold url_letter in Hsp.
      destruct Hurl as [_ [_ [-> | ->]]]; discriminate.
    + rewrite !app_assoc in E. apply app_inj_tail in E as [E _].
      exists pre, u, r, l, post. rewrite E, <- !app_assoc. tauto.
Qed.

(** Stripping a line neither adds nor removes an occurrence of URL. *)
Lemma contains_url_ci_strip (s : str) :
  contains_url_ci (strip s) <-> contains_url_ci s.
Proof.
  unfold strip, strip_by, rstrip_by.
  destruct (lstrip_split s) as [ws [Hs Hws]].
  set (t := lstrip_by is_space s) in *.
  destruct (lstrip_split (rev t)) as [ws' [Ht Hws']].
  set (t' := lstrip_by is_space (rev t)) in *.
  assert (Et : t = rev t' ++ rev ws').
  { rewrite <- rev_app_distr, <- Ht, rev_involutive. reflexivity. }
  split.
  - intros H. rewrite Hs, Et. apply contains_url_ci_app_r.
    apply contains_url_ci_app_l. exact H.
  - intros H. rewrite Hs in H. apply contains_url_ci_drop_left in H; [|exact Hws].
    rewrite Et in H. apply contains_url_ci_drop_right in H; [exact H|].
    apply Forall_rev. exact Hws'.
Qed.

(** The stripped line has a column with URL exactly when the line has. *)
Lemma stripped_columns_url (line : str) :
  (exists col, In col (split_from (length (strip line)) [TAB] (strip line))
               /\ contains_url_ci col)
  <-> (exists col, In col (split_from (length line) [TAB] line)
                   /\ contains_url_ci col).
Proof.
  rewrite <- !contains_url_ci_columns. apply contains_url_ci_strip.
Qed.

(** *** A line and the line without the white space around it *)

Lemma is_space_white_space (c : ascii) : is_space c = true <-> white_space c.
Proof.
  split.
  - destruct c as [[] [] [] [] [] [] [] []]; intros H; try discriminate H;
      solve_white_space.
  - unfold white_space. simpl. intros H.
    repeat (destruct H as [<-|H]; [reflexivity|]). destruct H.
Qed.

Lemma not_white_space (c : ascii) : ~ white_space c -> is_space c = false.
Proof.
  intros H. destruct (is_space c) eqn:E; [|reflexivity].
  apply is_space_white_space in E. contradiction.
Qed.

Lemma white_space_all (ws : str) :
  Forall white_space ws -> Forall (fun c => is_space c = true) ws.
Proof.
  intros H. eapply Forall_impl; [|exact H].
  intros c. apply is_space_white_space.
Qed.

Lemma lstrip_by_front (p : ascii -> bool) (ws s : str) :
  Forall (fun c => p c = true) ws -> lstrip_by p (ws ++ s) = lstrip_by p s.
Proof.
  induction 1 as [|c ws Hc _ IH]; [reflexivity|].
  cbn [app lstrip_by]. rewrite Hc. exact IH.
Qed.

Lemma lstrip_by_all (p : ascii -> bool) (ws : str) :
  Forall (fun c => p c = true) ws -> lstrip_by p ws = [].
Proof.
  intros H. rewrite <- (app_nil_r ws). rewrite (lstrip_by_front p ws [] H).
  reflexivity.
Qed.

(** The line without the white space around it is what [strip()] gives. *)
Lemma strip_stripped_of (line t : str) : stripped_of line t -> strip line = t.
Proof.
  intros [front [back [-> [Hf [Hb [Hh Hl]]]]]].
  apply white_space_all in Hf, Hb.
  unfold strip, strip_by, rstrip_by. rewrite (lstrip_by_front _ _ _ Hf).
  destruct t as [|c t].
  - cbn [app]. rewrite (lstrip_by_all _ _ Hb). reflexivity.
  - cbn [app lstrip_by]. rewrite (not_white_space _ Hh).
    change (c :: t ++ back) with ((c :: t) ++ back).
    rewrite rev_app_distr, lstrip_by_front by (apply Forall_rev; exact Hb).
    destruct (rev (c :: t)) as [|d r] eqn:R.
    + apply (f_equal (@length ascii)) in R. rewrite length_rev in R.
      discriminate R.
    + cbn [lstrip_by]. rewrite (not_white_space _ Hl).
      rewrite <- R. apply rev_involutive.
Qed.

Lemma lstrip_by_head (p : ascii -> bool) (s : str) :
  match lstrip_by p s with
  | [] => True
  | c :: _ => p c = false
  end.
Proof.
  induction s as [|c s IH]; cbn [lstrip_by]; [exact I|].
  destruct (p c) eqn:E; [exact IH | exact E].
Qed.

(** Every line has such a rest: the one [strip()] gives. *)
Lemma stripped_of_strip (line : str) : stripped_of line (strip line).
Proof.
  unfold strip, strip_by, rstrip_by.
  destruct (lstrip_split line) as [front [Hline Hfront]].
  pose proof (lstrip_by_head is_space line) as Hhead.
  remember (lstrip_by is_space line) as t eqn:Dt. clear Dt.
  destruct (lstrip_split (rev t)) as [back [Ht Hback]].
  pose proof (lstrip_by_head is_space (rev t)) as Hlast.
  remember (lstrip_by is_space (rev t)) as u eqn:Du. clear Du.
  assert (Et : t = rev u ++ rev back).
  { rewrite <- rev_app_distr, <- Ht. symmetry. apply rev_involutive. }
  assert (W : forall ws, Forall (fun c => is_space c = true) ws ->
                         Forall white_space ws).
  { intros ws H. eapply Forall_impl; [|exact H].
    intros c. apply is_space_white_space. }
  exists front, (rev back). split; [rewrite <- Et; exact Hline|].
  split; [apply W; exact Hfront|].
  split; [apply W; apply Forall_rev; exact Hback|].
  split.
  - rewrite Et in Hhead. destruct (rev u) as [|c r]; [exact I|].
    cbn [app] in Hhead. intros H. apply is_space_white_space in H. congruence.
  - rewrite rev_involutive. destruct u as [|c r]; [exact I|].
    intros H. apply is_space_white_space in H. congruence.
Qed.

(** ** [process_indexfile] *)

Lemma extract_measurement_signature_empty :
  extract_measurement_signature [] = None.
Proof. reflexivity. Qed.

Lemma truthy_false (s : str) : truthy s = false -> s = [].
Proof. destruct s; [reflexivity | discriminate]. Qed.

Lemma split_tab (s : str) : split [TAB] s = Ok (split_from (length s) [TAB] s).
Proof. reflexivity. Qed.

(** Without a URL column the reader stops behind the header line. *)
Lemma process_indexfile_no_url_column (path text line1 rest : str)
  (header_cols : list str) :
  readline text = (line1, rest) ->
  split [TAB] (strip line1) = Ok header_cols ->
  find_url_col 0 header_cols = None ->
  process_indexfile path (File text) =
  {| ro_value := None;
     ro_printed := [py "Warning: No URL column found in " ++ path];
     ro_unread := Some rest |}.
Proof.
  intros Hl Hs Hf. unfold process_indexfile, indexfile_try.
  cbn [open_read bind]. rewrite Hl, Hs. cbn [bind]. rewrite Hf. reflexivity.
Qed.

(** With URL column [i] the reader takes cell [i] of the first data line. *)
Lemma process_indexfile_url_column (path text line1 rest line2 rest2 : str)
  (header_cols columns : list str) (i : nat) :
  readline text = (line1, rest) ->
  split [TAB] (strip line1) = Ok header_cols ->
  find_url_col 0 header_cols = Some i ->
  readline rest = (line2, rest2) ->
  split [TAB] (strip line2) = Ok columns ->
  process_indexfile path (File text) =
  {| ro_value := match nth_error columns i with
                 | Some url => extract_measurement_signature url
                 | None => None
                 end;
     ro_printed := [];
     ro_unread := Some rest2 |}.
Proof.
  intros Hl Hs Hf Hl2 Hs2. unfold process_indexfile, indexfile_try.
  cbn [open_read bind]. rewrite Hl, Hs. cbn [bind]. rewrite Hf, Hl2.
  destruct (truthy (strip line2)) eqn:T.
  - rewrite Hs2. cbn [bind]. destruct (i <? length columns) eqn:L.
    + apply Nat.ltb_lt in L. unfold getitem.
      destruct (nth_error columns i) as [url|] eqn:N; [reflexivity|].
      apply nth_error_None in N. lia.
    + apply Nat.ltb_ge in L. apply nth_error_None in L. rewrite L. reflexivity.
  - apply truthy_false in T. rewrite T in Hs2. injection Hs2 as <-.
    destruct i as [|[|i]]; reflexivity.
Qed.

(** C5, as stated, fails: on a header line that begins with a tab, the
    leftmost column of the line that holds URL is the second one, and the
    second cell of the first data line holds a URL with a signature; the
    reader, which drops the tab in front of the header, takes the first cell
    and returns [None]. *)
Lemma url_column_not_of_header_line :
  ~ url_column_of_header_line (py "100__A/indexfile.txt") file_with_leading_tab.
Proof.
  intros H.
  assert (Hi : first_url_column [[]; py "URL"] 1).
  { apply find_url_col_first. reflexivity. }
  pose proof
    (H ([TAB] ++ py "URL" ++ [LF])
       (py "0" ++ [TAB]
          ++ py "http://host/abc12345-1111-2222-3333-444455556666/file" ++ [LF])
       ([TAB] ++ py "URL") [[]; py "URL"] 1
       (py "0" ++ [TAB]
          ++ py "http://host/abc12345-1111-2222-3333-444455556666/file" ++ [LF])
       []
       (py "0" ++ [TAB]
          ++ py "http://host/abc12345-1111-2222-3333-444455556666/file")
       [py "0"; py "http://host/abc12345-1111-2222-3333-444455556666/file"]
       eq_refl (or_introl eq_refl) eq_refl Hi
       eq_refl (or_introl eq_refl) eq_refl) as E.
  vm_compute in E. discriminate E.
Qed.

(** C5, amended. The reader takes the header line without the white space
    at its two ends (tabs among it), splits it on tabs and selects the
    leftmost of these columns whose name holds URL in any mix of cases; the
    cell that goes to the extractor is the one at that index of the first
    data line, taken without the white space at its ends and split in the
    same way. Without such a column the reader returns [None] with the
    warning about the missing URL column, whatever follows the header line,
    all of which stays unread; for this half it makes no difference whether
    the columns are those of the line as it stands. *)
Theorem process_indexfile_url_column_spec (path text line1 rest header : str)
  (header_cols : list str) :
  readline text = (line1, rest) ->
  stripped_of line1 header ->
  split [TAB] header = Ok header_cols ->
  (forall i, find_url_col 0 header_cols = Some i <->
             first_url_column header_cols i)
  /\ (forall i line2 rest2 first_line columns,
        first_url_column header_cols i ->
        readline rest = (line2, rest2) ->
        stripped_of line2 first_line ->
        split [TAB] first_line = Ok columns ->
        process_indexfile path (File text) =
        {| ro_value := match nth_error columns i with
                       | Some url => extract_measurement_signature url
                       | None => None
                       end;
           ro_printed := [];
           ro_unread := Some rest2 |})
  /\ ((forall col, In col header_cols -> ~ contains_url_ci col) ->
      process_indexfile path (File text) =
      {| ro_value := None;
         ro_printed := [py "Warning: No URL column found in " ++ path];
         ro_unread := Some rest |})
  /\ (forall raw_cols,
        split [TAB] line1 = Ok raw_cols ->
        (forall col, In col raw_cols -> ~ contains_url_ci col) ->
        process_indexfile path (File text) =
        {| ro_value := None;
           ro_printed := [py "Warning: No URL column found in " ++ path];
           ro_unread := Some rest |}).
Proof.
  intros Hl Hst Hs. apply strip_stripped_of in Hst. subst header.
  assert (Hnone : (forall col, In col header_cols -> ~ contains_url_ci col) ->
            process_indexfile path (File text) =
            {| ro_value := None;
               ro_printed := [py "Warning: No URL column found in " ++ path];
               ro_unread := Some rest |}).
  { intros Hno. apply (find_url_col_None _ 0) in Hno.
    exact (process_indexfile_no_url_column _ _ _ _ _ Hl Hs Hno). }
  split; [|split; [|split; [exact Hnone|]]].
  - intros i. apply find_url_col_first.
  - intros i line2 rest2 first_line columns Hi Hl2 Hst2 Hs2.
    apply strip_stripped_of in Hst2. subst first_line.
    apply find_url_col_first in Hi.
    exact (process_indexfile_url_column _ _ _ _ _ _ _ _ _ Hl Hs Hi Hl2 Hs2).
  - intros raw_cols Hraw Hno. apply Hnone. intros col Hin Hc.
    rewrite split_tab in Hs, Hraw. injection Hs as <-. injection Hraw as <-.
    destruct (proj1 (stripped_columns_url line1)) as [col' [Hin' Hc']].
    { exists col. auto. }
    exact (Hno col' Hin' Hc').
Qed.

Lemma process_indexfile_url_column_spec_witness :
  process_indexfile (py "100__A/indexfile.txt") (File well_formed_file)
  = {| ro_value := Some (py "abc12345-1111-2222-3333-444455556666");
       ro_printed := [];
       ro_unread := Some [] |}
  /\ process_indexfile (py "100__A/indexfile.txt") (File file_with_leading_tab)
     = {| ro_value := None; ro_printed := []; ro_unread := Some [] |}
  /\ process_indexfile (py "100__A/indexfile.txt")
       (File file_without_url_column)
     = {| ro_value := None;
          ro_printed :=
            [py "Warning: No URL column found in 100__A/indexfile.txt"];
          ro_unread :=
            Some (py "1" ++ [TAB]
                    ++ py "http://host/abc12345-1111-2222-3333-444455556666/file"
                    ++ [LF]) |}.
Proof.
  split; [|split].
  - refine (proj1 (proj2 (process_indexfile_url_column_spec
              (py "100__A/indexfile.txt") well_formed_file
              (py "Row" ++ [TAB] ++ py "URL" ++ [TAB] ++ py "Date" ++ [LF]) _
              (py "Row" ++ [TAB] ++ py "URL" ++ [TAB] ++ py "Date")
              [py "Row"; py "URL"; py "Date"] _ _ _))
            1
            (py "1" ++ [TAB]
               ++ py "http://host/abc12345-1111-2222-3333-444455556666/file"
               ++ [TAB] ++ py "2024-01-01" ++ [LF])
            []
            (py "1" ++ [TAB]
               ++ py "http://host/abc12345-1111-2222-3333-444455556666/file"
               ++ [TAB] ++ py "2024-01-01")
            [py "1";
             py "http://host/abc12345-1111-2222-3333-444455556666/file";
             py "2024-01-01"] _ _ _ _).
    + reflexivity.
    + solve_stripped_of (@nil ascii) [LF].
    + reflexivity.
    + apply find_url_col_first. reflexivity.
    + reflexivity.
    + solve_stripped_of (@nil ascii) [LF].
    + reflexivity.
  - refine (proj1 (proj2 (process_indexfile_url_column_spec
              (py "100__A/indexfile.txt") file_with_leading_tab
              ([TAB] ++ py "URL" ++ [LF]) _ (py "URL") [py "URL"] _ _ _))
            0
            (py "0" ++ [TAB]
               ++ py "http://host/abc12345-1111-2222-3333-444455556666/file"
               ++ [LF])
            []
            (py "0" ++ [TAB]
               ++ py "http://host/abc12345-1111-2222-3333-444455556666/file")
            [py "0";
             py "http://host/abc12345-1111-2222-3333-444455556666/file"]
            _ _ _ _).
    + reflexivity.
    + solve_stripped_of [TAB] [LF].
    + reflexivity.
    + apply find_url_col_first. reflexivity.
    + reflexivity.
    + solve_stripped_of (@nil ascii) [LF].
    + reflexivity.
  - refine (proj1 (proj2 (proj2 (process_indexfile_url_column_spec
              (py "100__A/indexfile.txt") file_without_url_column
              (py "Row" ++ [TAB] ++ py "Date" ++ [LF]) _
              (py "Row" ++ [TAB] ++ py "Date")
              [py "Row"; py "Date"] _ _ _))) _).
    + reflexivity.
    + solve_stripped_of (@nil ascii) [LF].
    + reflexivity.
    + intros col Hin. apply contains_URL_upper_false.
      destruct Hin as [<-|[<-|[]]]; reflexivity.
Defined.

(** The well-formed file of the specification. *)
Example process_indexfile_well_formed :
  process_indexfile (py "100__A/indexfile.txt")
    (File (py "Row" ++ [TAB] ++ py "URL" ++ [TAB] ++ py "Date" ++ [LF]
             ++ py "1" ++ [TAB]
             ++ py "http://host/abc12345-1111-2222-3333-444455556666/file"
             ++ [TAB] ++ py "2024-01-01" ++ [LF]))
  = {| ro_value := Some (py "abc12345-1111-2222-3333-444455556666");
       ro_printed := [];
       ro_unread := Some [] |}.
Proof. reflexivity. Qed.

(** The first data line is stripped before it is split, so empty cells at
    its front are lost: here the URL, third cell of the line, becomes the
    only column and is not reached at index 2. *)
Example process_indexfile_leading_empty_cells :
  process_indexfile (py "100__A/indexfile.txt")
    (File (py "Row" ++ [TAB] ++ py "Date" ++ [TAB] ++ py "URL" ++ [LF]
             ++ [TAB; TAB]
             ++ py "http://host/abc12345-1111-2222-3333-444455556666/file"
             ++ [LF]))
  = {| ro_value := None; ro_printed := []; ro_unread := Some [] |}.
Proof. reflexivity. Qed.

(** A first data line with no cell at the index of the URL column: the
    reader returns [None] and prints nothing. *)
Lemma process_indexfile_short_row (path text line1 rest line2 rest2 : str)
  (header_cols columns : list str) (i : nat) :
  readline text = (line1, rest) ->
  split [TAB] (strip line1) = Ok header_cols ->
  first_url_column header_cols i ->
  readline rest = (line2, rest2) ->
  split [TAB] (strip line2) = Ok columns ->
  length columns <= i ->
  process_indexfile path (File text) =
  {| ro_value := None; ro_printed := []; ro_unread := Some rest2 |}.
Proof.
  intros Hl Hs Hi Hl2 Hs2 Hlen. apply find_url_col_first in Hi.
  rewrite (process_indexfile_url_column _ _ _ _ _ _ _ _ _ Hl Hs Hi Hl2 Hs2).
  apply nth_error_None in Hlen. rewrite Hlen. reflexivity.
Qed.

(** C2, as stated, fails: on a header with the URL column at index 2 and a
    first data line of one column, the reader reports nothing. *)
Lemma malformed_row_not_reported :
  ~ malformed_row_reported (py "100__A/indexfile.txt") file_with_short_row.
Proof.
  intros H.
  destruct (H (py "Row" ++ [TAB] ++ py "Date" ++ [TAB] ++ py "URL" ++ [LF])
              (py "1" ++ [LF]) (py "1" ++ [LF]) []
              [py "Row"; py "Date"; py "URL"] [py "1"] 2) as [Hrep _];
    try reflexivity.
  - apply find_url_col_first. reflexivity.
  - simpl. lia.
  - apply Hrep. reflexivity.
Qed.

(** C2, amended. Let [i] be the index of the URL column among the columns
    of the header line taken without the white space at its two ends (tabs
    among it). When the first data line, taken without the white space at
    its ends and split on tabs, has fewer columns than [i], the reader gives
    no signature: it returns [None], without a condition of its own and
    without printing anything. *)
Theorem process_indexfile_malformed_row (path text line1 rest line2 rest2 : str)
  (header first_line : str) (header_cols columns : list str) (i : nat) :
  readline text = (line1, rest) ->
  stripped_of line1 header ->
  split [TAB] header = Ok header_cols ->
  first_url_column header_cols i ->
  readline rest = (line2, rest2) ->
  stripped_of line2 first_line ->
  split [TAB] first_line = Ok columns ->
  length columns < i ->
  process_indexfile path (File text) =
  {| ro_value := None; ro_printed := []; ro_unread := Some rest2 |}
  /\ ~ reports_failure (process_indexfile path (File text)).
Proof.
  intros Hl Hst Hs Hi Hl2 Hst2 Hs2 Hlen.
  apply strip_stripped_of in Hst, Hst2. subst header first_line.
  assert (E : process_indexfile path (File text) =
              {| ro_value := None; ro_printed := []; ro_unread := Some rest2 |}).
  { apply (process_indexfile_short_row _ _ _ _ _ _ _ _ _ Hl Hs Hi Hl2 Hs2). lia. }
  split; [exact E|]. rewrite E. intros H; apply H; reflexivity.
Qed.

Lemma process_indexfile_malformed_row_witness :
  process_indexfile (py "100__A/indexfile.txt") (File file_with_short_row)
  = {| ro_value := None; ro_printed := []; ro_unread := Some [] |}
  /\ ~ reports_failure
        (process_indexfile (py "100__A/indexfile.txt") (File file_with_short_row)).
Proof.
  apply (process_indexfile_malformed_row (py "100__A/indexfile.txt")
           file_with_short_row
           (py "Row" ++ [TAB] ++ py "Date" ++ [TAB] ++ py "URL" ++ [LF])
           (py "1" ++ [LF]) (py "1" ++ [LF]) []
           (py "Row" ++ [TAB] ++ py "Date" ++ [TAB] ++ py "URL") (py "1")
           [py "Row"; py "Date"; py "URL"] [py "1"] 2).
  - reflexivity.
  - solve_stripped_of (@nil ascii) [LF].
  - reflexivity.
  - apply find_url_col_first. reflexivity.
  - reflexivity.
  - solve_stripped_of (@nil ascii) [LF].
  - reflexivity.
  - simpl. lia.
Defined.

(** The index and the number of columns are not those of the lines as they
    stand: the URL column of this header is the third column of the line,
    the first data line is one cell, and the reader, which finds the URL
    column at index 0 behind the two tabs it drops, returns the signature
    of that cell. *)
Example process_indexfile_leading_tabs :
  process_indexfile (py "100__A/indexfile.txt") (File file_with_leading_tabs)
  = {| ro_value := Some (py "abc12345-1111-2222-3333-444455556666");
       ro_printed := [];
       ro_unread := Some [] |}.
Proof. reflexivity. Qed.

(** ** [process_indexfiles_directory] *)

Lemma is_uuid_length (s : str) : is_uuid s -> length s = 36.
Proof.
  intros [g1 [g2 [g3 [g4 [g5 [-> [[L1 _] [[L2 _] [[L3 _] [[L4 _] [L5 _]]]]]]]]]]].
  rewrite !length_app. simpl. lia.
Qed.

Lemma is_uuid_truthy (s : str) : is_uuid s -> truthy s = true.
Proof.
  intros H. apply is_uuid_length in H. destruct s; [discriminate | reflexivity].
Qed.

Lemma extract_Some_is_uuid (url s : str) :
  extract_measurement_signature url = Some s -> is_uuid s.
Proof.
  intros H. destruct (extract_Some_leftmost _ _ H) as [pre [post [[_ Hu] _]]].
  exact Hu.
Qed.

(** A signature the reader returns comes out of the extractor, and the
    reader prints nothing on the way. *)
Lemma process_indexfile_value_Some (path : str) (f : node) (s : str) :
  ro_value (process_indexfile path f) = Some s ->
  ro_printed (process_indexfile path f) = []
  /\ exists url, extract_measurement_signature url = Some s.
Proof.
  unfold process_indexfile, indexfile_try.
  destruct f as [text|err|children]; cbn [open_read bind ro_value ro_printed];
    try discriminate.
  destruct (readline text) as [line1 rest1]. rewrite split_tab. cbn [bind].
  destruct (find_url_col 0 _) as [i|]; [|discriminate].
  destruct (readline rest1) as [line2 rest2].
  destruct (truthy (strip line2)); [|discriminate].
  rewrite split_tab. cbn [bind].
  destruct (i <? _); [|discriminate].
  unfold getitem. destruct (nth_error _ i) as [url|]; cbn [bind ro_value ro_printed];
    [|discriminate].
  intros Hv. split; [reflexivity | exists url; exact Hv].
Qed.

(** Each turn appends to the state, by an amount that depends on the entry
    alone; in particular no turn raises. *)
Lemma scan_step_delta (dir : str) (results : list (str * str))
  (out : list str) (entry : str * node) :
  scan_step dir (results, out) entry =
  Ok (results ++ fst (step_delta dir entry), out ++ snd (step_delta dir entry)).
Proof.
  unfold step_delta, scan_step. destruct entry as [name [text|err|children]];
    cbn [fst snd]; rewrite ?app_nil_r; try reflexivity.
  destruct (extract_plate_barcode_total name) as [b ->]. cbn [bind].
  destruct (lookup _ children) as [f|]; [|rewrite app_nil_r; reflexivity].
  destruct (ro_value _) as [sig|]; [destruct (truthy sig)|];
    cbn [fst snd app]; rewrite ?app_nil_r; reflexivity.
Qed.

Lemma scan_loop_delta (dir : str) (entries : list (str * node))
  (results : list (str * str)) (out : list str) :
  scan_loop dir entries (results, out) =
  Ok (results ++ flat_map (fun e => fst (step_delta dir e)) entries,
      out ++ flat_map (fun e => snd (step_delta dir e)) entries).
Proof.
  revert results out; induction entries as [|e entries IH]; intros results out;
    cbn [scan_loop flat_map].
  - rewrite !app_nil_r. reflexivity.
  - rewrite scan_step_delta. cbn [bind]. rewrite IH, <- !app_assoc. reflexivity.
Qed.

Lemma process_indexfiles_directory_delta (dir : str)
  (entries : list (str * node)) :
  process_indexfiles_directory dir entries =
  Ok (flat_map (fun e => fst (step_delta dir e)) entries,
      flat_map (fun e => snd (step_delta dir e)) entries).
Proof. unfold process_indexfiles_directory. apply scan_loop_delta. Qed.

(** A turn adds a pair only for a folder with a metadata file on which the
    reader returns a signature. *)
Lemma step_delta_pair (dir name : str) (nd : node) (b s : str) :
  In (b, s) (fst (step_delta dir (name, nd))) ->
  exists children f,
    nd = Dir children
    /\ extract_plate_barcode name = Ok b
    /\ lookup indexfile_name children = Some f
    /\ ro_value (process_indexfile (indexfile_path_of dir name) f) = Some s.
Proof.
  unfold step_delta, scan_step, indexfile_path_of, indexfile_name.
  destruct nd as [text|err|children]; cbn [fst]; [intros []|intros []|].
  destruct (extract_plate_barcode_total name) as [b' ->]. cbn [bind].
  destruct (lookup _ children) as [f|] eqn:Lk; [|intros []].
  destruct (ro_value _) as [sig|] eqn:V; [destruct (truthy sig)|];
    cbn [fst app]; [|intros []|intros []].
  intros [Hin|[]]. injection Hin as <- <-. exists children, f. auto.
Qed.

(** A folder without signature adds no pair, and its warning. *)
Lemma step_delta_no_signature (dir name b : str) (children : list (str * node)) :
  extract_plate_barcode name = Ok b ->
  no_signature dir name children ->
  fst (step_delta dir (name, Dir children)) = []
  /\ In (skip_warning dir name b children)
        (snd (step_delta dir (name, Dir children))).
Proof.
  unfold step_delta, scan_step, no_signature, skip_warning, indexfile_path_of,
    indexfile_name.
  intros -> H. cbn [bind].
  destruct (lookup _ children) as [f|].
  - rewrite H. cbn [fst snd app]. split; [reflexivity|].
    apply in_or_app. right. left. reflexivity.
  - cbn [fst snd app]. split; [reflexivity | left; reflexivity].
Qed.

(** The scan never raises. *)
Lemma process_indexfiles_directory_total (dir : str)
  (entries : list (str * node)) :
  exists results out,
    process_indexfiles_directory dir entries = Ok (results, out).
Proof. rewrite process_indexfiles_directory_delta. eauto. Qed.

(** C6. Every pair in the list the scan returns has both parts derived: the
    barcode from the name of a sub-folder, and the signature, a non-empty
    string in UUID form that the extractor returned, from the metadata file
    of that folder. A folder that gives no signature adds no pair (the list
    is the one the scan returns without that folder) and is warned about. *)
Theorem scan_results_invariant (dir : str) (entries : list (str * node))
  (results : list (str * str)) (out : list str) :
  process_indexfiles_directory dir entries = Ok (results, out) ->
  (forall b s,
      In (b, s) results ->
      is_uuid s /\ s <> []
      /\ exists name children f url,
          In (name, Dir children) entries
          /\ extract_plate_barcode name = Ok b
          /\ lookup indexfile_name children = Some f
          /\ ro_value (process_indexfile (indexfile_path_of dir name) f) = Some s
          /\ extract_measurement_signature url = Some s)
  /\ (forall es1 name children es2 b,
        entries = es1 ++ (name, Dir children) :: es2 ->
        extract_plate_barcode name = Ok b ->
        no_signature dir name children ->
        In (skip_warning dir name b children) out
        /\ exists out',
            process_indexfiles_directory dir (es1 ++ es2) = Ok (results, out')).
Proof.
  rewrite process_indexfiles_directory_delta. intros H.
  injection H as <- <-. split.
  - intros b s Hin. apply in_flat_map in Hin as [[name nd] [He Hin]].
    destruct (step_delta_pair _ _ _ _ _ Hin) as [children [f [-> [Hb [Hl Hv]]]]].
    destruct (process_indexfile_value_Some _ _ _ Hv) as [_ [url Hu]].
    pose proof (extract_Some_is_uuid _ _ Hu) as U.
    split; [exact U|]. split.
    + intros ->. apply is_uuid_length in U. discriminate.
    + exists name, children, f, url. auto.
  - intros es1 name children es2 b -> Hb Hno.
    destruct (step_delta_no_signature _ _ _ _ Hb Hno) as [Hnil Hw]. split.
    + apply in_flat_map. exists (name, Dir children). split; [|exact Hw].
      apply in_or_app. right. left. reflexivity.
    + rewrite process_indexfiles_directory_delta. eexists.
      rewrite !flat_map_app. cbn [flat_map]. rewrite Hnil. reflexivity.
Qed.

Lemma scan_results_invariant_witness :
  (forall b s,
      In (b, s) [(py "100", py "abc12345-1111-2222-3333-444455556666")] ->
      is_uuid s /\ s <> []
      /\ exists name children f url,
          In (name, Dir children) example_root
          /\ extract_plate_barcode name = Ok b
          /\ lookup indexfile_name children = Some f
          /\ ro_value
               (process_indexfile (indexfile_path_of (py "root") name) f)
             = Some s
          /\ extract_measurement_signature url = Some s)
  /\ (forall es1 name children es2 b,
        example_root = es1 ++ (name, Dir children) :: es2 ->
        extract_plate_barcode name = Ok b ->
        no_signature (py "root") name children ->
        In (skip_warning (py "root") name b children)
          [py "Processed: 100 -> abc12345-1111-2222-3333-444455556666";
           py "Warning: indexfile.txt not found in root/200__B"]
        /\ exists out',
            process_indexfiles_directory (py "root") (es1 ++ es2)
            = Ok ([(py "100", py "abc12345-1111-2222-3333-444455556666")],
                  out')).
Proof.
  apply (scan_results_invariant (py "root") example_root). reflexivity.
Defined.

Lemma path_join_suffix (p name : str) : exists pre, path_join p name = pre ++ name.
Proof.
  unfold path_join. destruct (str_eqb p (py ".")); [exists []; reflexivity|].
  destruct (endswith [SLASH] p); [exists p; reflexivity|].
  exists (p ++ [SLASH]). rewrite <- app_assoc. reflexivity.
Qed.

(** C8. The scan looks at the entries of the root only: a plain file under
    the root changes nothing, and of a sub-folder nothing but its own entry
    [indexfile.txt] is used. A sub-folder without that entry adds no result
    but a warning that names the folder. On the folders [100__A], with a
    metadata file that gives a signature, and [200__B], without metadata
    file, the scan returns the one pair for barcode 100 and warns about
    [200__B]. *)
Theorem scan_immediate_subdirectories (dir : str) :
  (forall es1 name text es2,
      process_indexfiles_directory dir (es1 ++ (name, File text) :: es2)
      = process_indexfiles_directory dir (es1 ++ es2))
  /\ (forall es1 name children children' es2,
        lookup indexfile_name children = lookup indexfile_name children' ->
        process_indexfiles_directory dir (es1 ++ (name, Dir children) :: es2)
        = process_indexfiles_directory dir (es1 ++ (name, Dir children') :: es2))
  /\ (forall results out name children,
        lookup indexfile_name children = None ->
        scan_step dir (results, out) (name, Dir children)
        = Ok (results,
              out ++ [py "Warning: indexfile.txt not found in "
                        ++ path_join dir name])
        /\ occurs name (py "Warning: indexfile.txt not found in "
                          ++ path_join dir name))
  /\ (forall children_A children_B f sig,
        lookup indexfile_name children_A = Some f ->
        ro_value (process_indexfile (indexfile_path_of dir (py "100__A")) f)
        = Some sig ->
        lookup indexfile_name children_B = None ->
        process_indexfiles_directory dir
          [(py "100__A", Dir children_A); (py "200__B", Dir children_B)]
        = Ok ([(py "100", sig)],
              [py "Processed: 100 -> " ++ sig;
               py "Warning: indexfile.txt not found in "
                 ++ path_join dir (py "200__B")])).
Proof.
  split; [|split; [|split]].
  - intros es1 name text es2. rewrite !process_indexfiles_directory_delta.
    rewrite !flat_map_app. reflexivity.
  - intros es1 name children children' es2 Hl.
    rewrite !process_indexfiles_directory_delta, !flat_map_app.
    cbn [flat_map].
    assert (E : step_delta dir (name, Dir children)
                = step_delta dir (name, Dir children')).
    { unfold step_delta, scan_step. fold indexfile_name. rewrite Hl.
      reflexivity. }
    rewrite E. reflexivity.
  - intros results out name children Hl. split.
    + unfold scan_step. fold indexfile_name. rewrite Hl.
      destruct (extract_plate_barcode_total name) as [b ->]. reflexivity.
    + destruct (path_join_suffix dir name) as [pre ->].
      exists (py "Warning: indexfile.txt not found in " ++ pre), [].
      rewrite app_nil_r, <- app_assoc. reflexivity.
  - intros children_A children_B f sig HA Hv HB.
    destruct (process_indexfile_value_Some _ _ _ Hv) as [Hp [url Hu]].
    pose proof (is_uuid_truthy _ (extract_Some_is_uuid _ _ Hu)) as Ht.
    unfold process_indexfiles_directory, scan_loop, scan_step.
    fold indexfile_name. fold (indexfile_path_of dir (py "100__A")).
    replace (extract_plate_barcode (py "100__A")) with (Ok (py "100"))
      by reflexivity.
    replace (extract_plate_barcode (py "200__B")) with (Ok (py "200"))
      by reflexivity.
    cbn [bind]. rewrite HA, Hv, Ht, Hp, HB. reflexivity.
Qed.

Lemma scan_immediate_subdirectories_witness :
  process_indexfiles_directory (py "root")
    [(py "100__A", Dir [(py "indexfile.txt", File well_formed_file)]);
     (py "200__B", Dir [(py "nested", Dir [(py "indexfile.txt",
                                            File well_formed_file)])])]
  = Ok ([(py "100", py "abc12345-1111-2222-3333-444455556666")],
        [py "Processed: 100 -> abc12345-1111-2222-3333-444455556666";
         py "Warning: indexfile.txt not found in root/200__B"]).
Proof.
  apply (proj2 (proj2 (proj2 (scan_immediate_subdirectories (py "root"))))
           _ _ (File well_formed_file)); reflexivity.
Defined.

(** C10. On a file whose header has a URL column and whose first data line
    is absent or empty (nothing but white space), the reader returns [None]:
    it neither raises nor prints. The scanner then prints its warning for
    the folder, adds no pair, and goes on with the entries that follow. *)
Theorem process_indexfile_header_only (path text line1 rest : str)
  (header_cols : list str) (i : nat) :
  readline text = (line1, rest) ->
  split [TAB] (strip line1) = Ok header_cols ->
  first_url_column header_cols i ->
  strip (fst (readline rest)) = [] ->
  process_indexfile path (File text) =
  {| ro_value := None; ro_printed := [];
     ro_unread := Some (snd (readline rest)) |}
  /\ forall dir name children es results out,
      path = indexfile_path_of dir name ->
      lookup indexfile_name children = Some (File text) ->
      exists barcode,
        extract_plate_barcode name = Ok barcode
        /\ scan_loop dir ((name, Dir children) :: es) (results, out)
           = scan_loop dir es
               (results,
                out ++ [py "Warning: No measurement signature found for "
                          ++ barcode]).
Proof.
  intros Hl Hs Hi Hempty.
  assert (E : process_indexfile path (File text) =
              {| ro_value := None; ro_printed := [];
                 ro_unread := Some (snd (readline rest)) |}).
  { apply find_url_col_first in Hi.
    rewrite (process_indexfile_url_column path text line1 rest
               (fst (readline rest)) (snd (readline rest)) header_cols [[]] i);
      auto.
    - destruct i as [|[|i]]; reflexivity.
    - destruct (readline rest); reflexivity.
    - rewrite Hempty. reflexivity. }
  split; [exact E|].
  intros dir name children es results out -> Hlk.
  destruct (extract_plate_barcode_total name) as [b Hb]. exists b.
  split; [exact Hb|].
  cbn [scan_loop]. unfold scan_step. fold indexfile_name.
  fold (indexfile_path_of dir name). rewrite Hb. cbn [bind].
  rewrite Hlk, E. cbn [ro_value ro_printed app bind]. reflexivity.
Qed.

Lemma process_indexfile_header_only_witness :
  process_indexfile (indexfile_path_of (py "root") (py "100__A"))
    (File header_only_file)
  = {| ro_value := None; ro_printed := []; ro_unread := Some [] |}
  /\ forall dir name children es results out,
      indexfile_path_of (py "root") (py "100__A") = indexfile_path_of dir name ->
      lookup indexfile_name children = Some (File header_only_file) ->
      exists barcode,
        extract_plate_barcode name = Ok barcode
        /\ scan_loop dir ((name, Dir children) :: es) (results, out)
           = scan_loop dir es
               (results,
                out ++ [py "Warning: No measurement signature found for "
                          ++ barcode]).
Proof.
  apply (process_indexfile_header_only
           (indexfile_path_of (py "root") (py "100__A")) header_only_file
           header_only_file [] [py "Row"; py "URL"; py "Date"] 1);
    try reflexivity.
  apply find_url_col_first. reflexivity.
Defined.

(** ** [sorted] *)

Section Sorting.

Context {A : Type}.

Lemma insert_key_perm (k : Z) (x : A) (l : list (Z * A)) :
  Permutation (insert_key k x l) ((k, x) :: l).
Proof.
  induction l as [|[k' y] l IH]; cbn [insert_key]; [reflexivity|].
  destruct (k <=? k')%Z; [reflexivity|].
  rewrite IH. apply perm_swap.
Qed.

Lemma sort_keyed_perm (l : list (Z * A)) : Permutation (sort_keyed l) l.
Proof.
  induction l as [|[k x] l IH]; cbn [sort_keyed]; [reflexivity|].
  rewrite insert_key_perm, IH. reflexivity.
Qed.

Lemma insert_key_sorted (k : Z) (x : A) (l : list (Z * A)) :
  StronglySorted key_le l -> StronglySorted key_le (insert_key k x l).
Proof.
  induction 1 as [|[k' y] l Hs IH Hall]; cbn [insert_key].
  - repeat constructor.
  - destruct (k <=? k')%Z eqn:E.
    + apply Z.leb_le in E. constructor; [constructor; assumption|].
      constructor; [exact E|].
      eapply Forall_impl; [|exact Hall]. unfold key_le; simpl; intros; lia.
    + apply Z.leb_gt in E. constructor; [exact IH|].
      rewrite (insert_key_perm k x l). constructor; [|exact Hall].
      unfold key_le; simpl; lia.
Qed.

Lemma sort_keyed_sorted (l : list (Z * A)) :
  StronglySorted key_le (sort_keyed l).
Proof.
  induction l as [|[k x] l IH]; cbn [sort_keyed]; [constructor|].
  apply insert_key_sorted. exact IH.
Qed.

(** Elements of equal key keep their order. *)
Lemma insert_key_stable (k k0 : Z) (x : A) (l : list (Z * A)) :
  filter (fun p => (fst p =? k0)%Z) (insert_key k x l)
  = filter (fun p => (fst p =? k0)%Z) ((k, x) :: l).
Proof.
  induction l as [|[k' y] l IH]; cbn [insert_key]; [reflexivity|].
  destruct (k <=? k')%Z eqn:E; [reflexivity|].
  apply Z.leb_gt in E. cbn [filter fst] in *. rewrite IH.
  destruct (k =? k0)%Z eqn:E1; destruct (k' =? k0)%Z eqn:E2; try reflexivity.
  apply Z.eqb_eq in E1, E2. lia.
Qed.

Lemma sort_keyed_stable (k0 : Z) (l : list (Z * A)) :
  filter (fun p => (fst p =? k0)%Z) (sort_keyed l)
  = filter (fun p => (fst p =? k0)%Z) l.
Proof.
  induction l as [|[k x] l IH]; cbn [sort_keyed]; [reflexivity|].
  rewrite insert_key_stable. cbn [filter]. rewrite IH. reflexivity.
Qed.

Variable key : A -> result Z.

Lemma decorate_Ok (l : list A) (d : list (Z * A)) :
  decorate key l = Ok d ->
  map snd d = l /\ Forall (fun p => key (snd p) = Ok (fst p)) d.
Proof.
  revert d; induction l as [|x l IH]; intros d H; cbn [decorate] in H.
  - injection H as <-. split; constructor.
  - destruct (key x) as [k|] eqn:K; [|discriminate]. cbn [bind] in H.
    destruct (decorate key l) as [d'|]; [|discriminate]. cbn [bind] in H.
    injection H as <-. destruct (IH _ eq_refl) as [Hm Hall].
    split; [simpl; f_equal; exact Hm | constructor; assumption].
Qed.

Lemma decorate_total (l : list A) :
  (forall x, In x l -> exists k, key x = Ok k) ->
  exists d, decorate key l = Ok d.
Proof.
  induction l as [|x l IH]; intros H; cbn [decorate]; [eauto|].
  destruct (H x (or_introl eq_refl)) as [k ->]. cbn [bind].
  destruct IH as [d ->]; [intros y Hy; apply H; right; exact Hy|].
  cbn [bind]. eauto.
Qed.

(** If some key raises, so does the decoration, with the exception of one
    of the keys. *)
Lemma decorate_Raise (l : list A) (x : A) :
  In x l -> (forall k, key x <> Ok k) ->
  exists e y, decorate key l = Raise e /\ In y l /\ key y = Raise e.
Proof.
  induction l as [|a l IH]; intros Hin Hx; [destruct Hin|].
  cbn [decorate]. destruct (key a) as [k|e] eqn:K.
  - cbn [bind]. destruct Hin as [->|Hin]; [exfalso; exact (Hx _ K)|].
    destruct (IH Hin Hx) as [e [y [-> [Hy Hk]]]]. cbn [bind].
    exists e, y. auto using in_cons.
  - cbn [bind]. exists e, a. auto using in_eq.
Qed.

Lemma sorted_map_snd (d : list (Z * A)) :
  StronglySorted key_le d ->
  Forall (fun p => key (snd p) = Ok (fst p)) d ->
  StronglySorted (key_ok_le key) (map snd d).
Proof.
  induction 1 as [|p d Hs IH Hall]; intros Hk; cbn [map]; [constructor|].
  inversion Hk as [|? ? Hp Hd]; subst. constructor; [exact (IH Hd)|].
  rewrite Forall_map. rewrite Forall_forall in *. intros q Hq.
  exists (fst p), (fst q). repeat split; auto. exact (Hall q Hq).
Qed.

Lemma filter_map_snd (k : Z) (d : list (Z * A)) :
  Forall (fun p => key (snd p) = Ok (fst p)) d ->
  filter (key_is key k) (map snd d)
  = map snd (filter (fun p => (fst p =? k)%Z) d).
Proof.
  induction 1 as [|p d Hp _ IH]; cbn [map filter]; [reflexivity|].
  unfold key_is at 1. rewrite Hp, IH.
  destruct (fst p =? k)%Z; reflexivity.
Qed.

(** [sorted] returns the elements in ascending order of their keys, those
    of equal key in their former order. *)
Lemma sorted_spec (l l' : list A) :
  sorted key l = Ok l' ->
  Permutation l l'
  /\ StronglySorted (key_ok_le key) l'
  /\ forall k, filter (key_is key k) l' = filter (key_is key k) l.
Proof.
  unfold sorted. destruct (decorate key l) as [d|] eqn:D; [|discriminate].
  cbn [bind]. intros H; injection H as <-.
  destruct (decorate_Ok _ _ D) as [Hm Hall].
  assert (Hall' : Forall (fun p => key (snd p) = Ok (fst p)) (sort_keyed d)).
  { rewrite Forall_forall in *. intros p Hp. apply Hall.
    exact (Permutation_in _ (sort_keyed_perm d) Hp). }
  split; [|split].
  - rewrite <- Hm. apply Permutation_map. symmetry. apply sort_keyed_perm.
  - apply sorted_map_snd; [apply sort_keyed_sorted | exact Hall'].
  - intros k. rewrite (filter_map_snd k _ Hall'), sort_keyed_stable.
    rewrite <- (filter_map_snd k _ Hall), Hm. reflexivity.
Qed.

End Sorting.

Lemma py_int_raises (s : str) (e : exn) : py_int s = Raise e -> e = ValueError.
Proof.
  unfold py_int.
  destruct (match strip_by is_int_space s with
            | [] => (false, strip_by is_int_space s)
            | c :: r =>
                if eqc c DASH then (true, r)
                else if eqc c "+" then (false, r)
                else (false, strip_by is_int_space s)
            end) as [negative body].
  destruct body as [|c body]; [intros H; injection H; auto|].
  destruct (is_digit c); [|intros H; injection H; auto].
  destruct (int_digits 0 false (c :: body)); [discriminate|].
  intros H; injection H; auto.
Qed.

(** ** [save_results_to_csv] *)

Lemma writerow_header :
  writerow csv_header = py "Plate_Barcode,Measurement_Signature" ++ [CR; LF].
Proof. reflexivity. Qed.

Lemma fold_left_rows (rows : list (str * str)) (file : str) :
  fold_left
    (fun file (r : str * str) =>
       let (plate_barcode, measurement_signature) := r in
       file ++ writerow [plate_barcode; measurement_signature])
    rows file
  = file ++ csv_rows rows.
Proof.
  revert file; induction rows as [|[b s] rows IH]; intros file;
    cbn [fold_left].
  - unfold csv_rows. simpl. rewrite app_nil_r. reflexivity.
  - rewrite IH. unfold csv_rows. cbn [map concat fst snd].
    rewrite <- app_assoc. reflexivity.
Qed.

Lemma open_write_writable (path : str) (old : option node) :
  writable old -> open_write path old = Ok [].
Proof. intros [->|[text ->]]; reflexivity. Qed.

(** The call, once the sort has gone through. *)
Lemma save_results_to_csv_sorted (results rows : list (str * str))
  (path : str) (old : option node) :
  sorted barcode_int results = Ok rows ->
  writable old ->
  save_results_to_csv results path old =
  (Ok tt,
   Some (File (py "Plate_Barcode,Measurement_Signature" ++ [CR; LF]
                 ++ csv_rows rows)),
   [py "Results saved to: " ++ path]).
Proof.
  intros Hs Hw. unfold save_results_to_csv. fold barcode_int.
  rewrite Hs, (open_write_writable _ _ Hw), fold_left_rows, writerow_header.
  cbn [app]. rewrite <- app_assoc. reflexivity.
Qed.

Lemma sorted_total (results : list (str * str)) :
  (forall r, In r results -> exists n, py_int (fst r) = Ok n) ->
  exists rows, sorted barcode_int results = Ok rows.
Proof.
  intros H. unfold sorted.
  destruct (decorate_total barcode_int results H) as [d ->].
  cbn [bind]. eauto.
Qed.

(** C3. If some barcode does not parse as an integer, the call raises
    [ValueError] before the file is opened: nothing is written, what was at
    the output path is still there, and nothing is printed. [main] does not
    catch the exception: the run ends with it, the input directory as it
    was. *)
Theorem save_results_to_csv_non_numeric (results : list (str * str))
  (path : str) (old : option node) :
  (exists r, In r results /\ forall n, py_int (fst r) <> Ok n) ->
  save_results_to_csv results path old = (Raise ValueError, old, [])
  /\ forall dir entries out1,
      process_indexfiles_directory dir entries = Ok (results, out1) ->
      main dir (Some (Dir entries)) =
      (Raise ValueError,
       [py "Processing indexfiles directory: " ++ dir] ++ out1,
       Some (Dir entries)).
Proof.
  intros [r [Hin Hr]].
  assert (E : forall path old,
             save_results_to_csv results path old = (Raise ValueError, old, [])).
  { clear path old. intros path old. unfold save_results_to_csv, sorted.
    destruct (decorate_Raise (fun x => py_int (fst x)) results r Hin Hr)
      as [e [y [-> [_ Hy]]]].
    cbn [bind]. rewrite (py_int_raises _ _ Hy). reflexivity. }
  split; [apply E|].
  intros dir entries out1 Hscan. unfold main. rewrite Hscan.
  destruct results as [|r0 results]; [destruct Hin|].
  cbn [length Nat.eqb]. rewrite E. rewrite app_nil_r. reflexivity.
Qed.

Lemma save_results_to_csv_non_numeric_witness :
  save_results_to_csv [(py "10", py "uuid1"); (py "A7", py "uuid2")]
    (py "root/plates_measurement_signatures.csv")
    (Some (File (py "Plate_Barcode,Measurement_Signature" ++ [CR; LF])))
  = (Raise ValueError,
     Some (File (py "Plate_Barcode,Measurement_Signature" ++ [CR; LF])),
     []).
Proof.
  refine (proj1 (save_results_to_csv_non_numeric
                   [(py "10", py "uuid1"); (py "A7", py "uuid2")] _ _ _)).
  exists (py "A7", py "uuid2"). split.
  - right. left. reflexivity.
  - intros n. discriminate.
Defined.

(** The example of the specification: numeric, not lexical, order. *)
Example save_results_to_csv_numeric_order :
  save_results_to_csv [(py "200", py "uuid2"); (py "10", py "uuid1")]
    (py "root/plates_measurement_signatures.csv") None
  = (Ok tt,
     Some (File (py "Plate_Barcode,Measurement_Signature" ++ [CR; LF]
                   ++ py "10,uuid1" ++ [CR; LF]
                   ++ py "200,uuid2" ++ [CR; LF])),
     [py "Results saved to: root/plates_measurement_signatures.csv"]).
Proof. reflexivity. Qed.

(** ** Reading the written file back *)

Lemma plain_needs_quote (f : str) : plain f -> needs_quote f = false.
Proof.
  unfold plain, needs_quote. induction 1 as [|c f Hc _ IH]; [reflexivity|].
  simpl. rewrite Hc, IH. reflexivity.
Qed.

Lemma is_special_false (c : ascii) :
  is_special c = false ->
  eqc c COMMA = false /\ eqc c DQUOTE = false
  /\ eqc c CR = false /\ eqc c LF = false.
Proof.
  unfold is_special. rewrite !orb_false_iff. tauto.
Qed.

Lemma writerow_plain (b s : str) :
  plain b -> plain s -> writerow [b; s] = b ++ [COMMA] ++ s ++ [CR; LF].
Proof.
  intros Hb Hs. apply plain_needs_quote in Hb, Hs.
  unfold writerow. destruct b as [|c b]; cbn [map join]; unfold csv_field;
    rewrite ?Hb, Hs; cbn [needs_quote existsb]; rewrite <- ?app_assoc;
    reflexivity.
Qed.

(** A stretch without line end stays in the current line. *)
Lemma file_lines_from_plain (cur f rest : str) :
  Forall (fun c => is_newline c = false) f ->
  file_lines_from cur (f ++ rest) = file_lines_from (cur ++ f) rest.
Proof.
  intros H. revert cur; induction H as [|c f Hc _ IH]; intros cur.
  - rewrite app_nil_r. reflexivity.
  - cbn [app file_lines_from]. unfold is_newline in Hc.
    apply orb_false_iff in Hc as [-> ->].
    rewrite IH, <- app_assoc. reflexivity.
Qed.

Lemma file_lines_row (body rest : str) :
  Forall (fun c => is_newline c = false) body ->
  file_lines (body ++ [CR; LF] ++ rest) = (body ++ [CR; LF]) :: file_lines rest.
Proof.
  intros H. unfold file_lines. rewrite (file_lines_from_plain [] body _ H).
  reflexivity.
Qed.

Lemma plain_no_newline (f : str) :
  plain f -> Forall (fun c => is_newline c = false) f.
Proof.
  intros H. eapply Forall_impl; [|exact H]. intros c Hc.
  apply is_special_false in Hc as [_ [_ [Hcr Hlf]]].
  unfold is_newline. rewrite Hcr, Hlf. reflexivity.
Qed.

Lemma parse_line_app (p : parser) (l1 l2 : str) :
  parse_line p (l1 ++ l2) = (p' <- parse_line p l1 ;; parse_line p' l2).
Proof.
  revert p; induction l1 as [|c l1 IH]; intros p; cbn [app parse_line bind];
    [reflexivity|].
  destruct (parse_process_char p (Some c)); cbn [bind]; [apply IH | reflexivity].
Qed.

(** Inside a field, plain characters are added to it. *)
Lemma parse_plain_in_field (f cur : str) (fields : list str) :
  plain f ->
  parse_line {| p_state := IN_FIELD; p_field := cur; p_fields := fields |} f
  = Ok {| p_state := IN_FIELD; p_field := cur ++ f; p_fields := fields |}.
Proof.
  intros H. revert cur; induction H as [|c f Hc _ IH]; intros cur.
  - rewrite app_nil_r. reflexivity.
  - cbn [parse_line]. unfold parse_process_char. cbn [p_state ends_line is_char].
    apply is_special_false in Hc as [Hco [_ [Hcr Hlf]]].
    unfold is_newline. rewrite Hlf, Hcr, Hco. cbn [orb bind].
    unfold parse_add_char. cbn [p_field p_fields]. rewrite IH, <- app_assoc.
    reflexivity.
Qed.

(** A plain field and the comma behind it, at the start of a record or of a
    field. *)
Lemma parse_plain_field_comma (f : str) (fields : list str)
  (st : parser_state) :
  plain f -> st = START_RECORD \/ st = START_FIELD ->
  parse_line {| p_state := st; p_field := []; p_fields := fields |}
    (f ++ [COMMA])
  = Ok {| p_state := START_FIELD; p_field := []; p_fields := fields ++ [f] |}.
Proof.
  intros H Hst. destruct H as [|c f Hc Hf].
  - destruct Hst as [-> | ->]; reflexivity.
  - cbn [app parse_line].
    assert (E : parse_process_char
                  {| p_state := st; p_field := []; p_fields := fields |} (Some c)
                = Ok {| p_state := IN_FIELD; p_field := [c];
                        p_fields := fields |}).
    { apply is_special_false in Hc as [Hco [Hq [Hcr Hlf]]].
      destruct Hst as [-> | ->]; unfold parse_process_char, start_field;
        cbn [p_state ends_line is_char set_state]; unfold is_newline;
        rewrite Hlf, Hcr, Hco, Hq; reflexivity. }
    rewrite E. cbn [bind]. rewrite parse_line_app, (parse_plain_in_field _ _ _ Hf).
    reflexivity.
Qed.

(** The same in front of the line end. *)
Lemma parse_plain_field_crlf (f : str) (fields : list str) :
  plain f ->
  (p <- parse_line
          {| p_state := START_FIELD; p_field := []; p_fields := fields |}
          (f ++ [CR; LF]) ;;
   parse_process_char p None)
  = Ok {| p_state := START_RECORD; p_field := []; p_fields := fields ++ [f] |}.
Proof.
  intros H. destruct H as [|c f Hc Hf].
  - reflexivity.
  - cbn [app parse_line].
    assert (E : parse_process_char
                  {| p_state := START_FIELD; p_field := []; p_fields := fields |}
                  (Some c)
                = Ok {| p_state := IN_FIELD; p_field := [c];
                        p_fields := fields |}).
    { apply is_special_false in Hc as [Hco [Hq [Hcr Hlf]]].
      unfold parse_process_char, start_field;
        cbn [p_state ends_line is_char set_state]; unfold is_newline;
        rewrite Hlf, Hcr, Hco, Hq; reflexivity. }
    rewrite E. cbn [bind]. rewrite parse_line_app, (parse_plain_in_field _ _ _ Hf).
    reflexivity.
Qed.

(** A written row of two plain fields is read as these two fields. *)
Lemma read_row (b s : str) (lines : list str) :
  plain b -> plain s ->
  read_records ((b ++ [COMMA] ++ s ++ [CR; LF]) :: lines) parse_reset
  = (records <- read_records lines parse_reset ;; Ok ([b; s] :: records)).
Proof.
  intros Hb Hs. cbn [read_records]. rewrite app_assoc, parse_line_app.
  unfold parse_reset at 1.
  rewrite (parse_plain_field_comma b [] START_RECORD Hb (or_introl eq_refl)).
  cbn [bind app].
  pose proof (parse_plain_field_crlf s [b] Hs) as E.
  destruct (parse_line _ (s ++ [CR; LF])) as [p1|]; [|discriminate].
  cbn [bind] in *. rewrite E. reflexivity.
Qed.

Lemma read_rows (rows : list (str * str)) :
  (forall r, In r rows -> plain (fst r) /\ plain (snd r)) ->
  read_records (file_lines (csv_rows rows)) parse_reset = Ok (rows_of rows).
Proof.
  induction rows as [|[b s] rows IH]; intros H; [reflexivity|].
  destruct (H (b, s) (or_introl eq_refl)) as [Hb Hs]. cbn [fst snd] in *.
  unfold csv_rows. cbn [map concat fst snd].
  rewrite (writerow_plain _ _ Hb Hs).
  replace ((b ++ [COMMA] ++ s ++ [CR; LF]) ++ concat _)
    with ((b ++ [COMMA] ++ s) ++ [CR; LF] ++ csv_rows rows)
    by (unfold csv_rows; rewrite <- !app_assoc; reflexivity).
  rewrite file_lines_row.
  - rewrite <- !app_assoc. rewrite (read_row _ _ _ Hb Hs).
    rewrite IH; [reflexivity|]. intros r Hr. apply H. right; exact Hr.
  - apply Forall_app. split; [exact (plain_no_newline _ Hb)|].
    constructor; [reflexivity | exact (plain_no_newline _ Hs)].
Qed.

Lemma plain_header :
  plain (py "Plate_Barcode") /\ plain (py "Measurement_Signature").
Proof. split; repeat constructor. Qed.

(** Reading a written file gives the header row and the rows written. *)
Lemma csv_read_written (rows : list (str * str)) :
  (forall r, In r rows -> plain (fst r) /\ plain (snd r)) ->
  csv_read (py "Plate_Barcode,Measurement_Signature" ++ [CR; LF] ++ csv_rows rows)
  = Ok (csv_header :: rows_of rows).
Proof.
  intros H. unfold csv_read.
  rewrite (file_lines_row (py "Plate_Barcode,Measurement_Signature"));
    [|repeat constructor].
  destruct plain_header as [H1 H2].
  change (py "Plate_Barcode,Measurement_Signature" ++ [CR; LF])
    with (py "Plate_Barcode" ++ [COMMA] ++ py "Measurement_Signature" ++ [CR; LF]).
  rewrite (read_row _ _ _ H1 H2), (read_rows _ H). reflexivity.
Qed.

Lemma decimal_digit_facts (c : ascii) :
  decimal_digit c ->
  is_digit c = true /\ is_int_space c = false /\ is_special c = false
  /\ eqc c DASH = false /\ eqc c "+" = false.
Proof.
  unfold decimal_digit. simpl.
  intros H; repeat (destruct H as [<-|H]; [repeat split; reflexivity|]).
  contradiction.
Qed.

Lemma lower_hex_plain (c : ascii) : lower_hex c -> is_special c = false.
Proof.
  unfold lower_hex. simpl.
  intros H; repeat (destruct H as [<-|H]; [reflexivity|]). contradiction.
Qed.

Lemma is_uuid_plain (s : str) : is_uuid s -> plain s.
Proof.
  intros [g1 [g2 [g3 [g4 [g5 [-> [[_ H1] [[_ H2] [[_ H3] [[_ H4] [_ H5]]]]]]]]]]].
  assert (G : forall g, Forall lower_hex g ->
                        Forall (fun c => is_special c = false) g).
  { intros g Hg. eapply Forall_impl; [|exact Hg]. apply lower_hex_plain. }
  unfold plain.
  repeat (apply Forall_app; split); auto; repeat constructor.
Qed.

Lemma digit_string_plain (b : str) : digit_string b -> plain b.
Proof.
  intros [_ H]. eapply Forall_impl; [|exact H].
  intros c Hc. apply decimal_digit_facts in Hc. tauto.
Qed.

Lemma lstrip_by_id (p : ascii -> bool) (s : str) :
  Forall (fun c => p c = false) s -> lstrip_by p s = s.
Proof. destruct 1 as [|c s Hc _]; cbn [lstrip_by]; [|rewrite Hc]; reflexivity. Qed.

Lemma strip_by_id (p : ascii -> bool) (s : str) :
  Forall (fun c => p c = false) s -> strip_by p s = s.
Proof.
  intros H. unfold strip_by, rstrip_by. rewrite (lstrip_by_id p s H).
  rewrite lstrip_by_id; [apply rev_involutive|].
  apply Forall_rev. exact H.
Qed.

Lemma int_digits_total (b : str) (acc : Z) :
  Forall decimal_digit b -> exists n, int_digits acc false b = Some n.
Proof.
  intros H. revert acc; induction H as [|c b Hc _ IH]; intros acc;
    cbn [int_digits]; [eauto|].
  apply decimal_digit_facts in Hc as [-> _]. apply IH.
Qed.

(** A non-empty string of digits parses as an integer. *)
Lemma digit_string_int (b : str) : digit_string b -> exists n, py_int b = Ok n.
Proof.
  intros [Hne H]. unfold py_int. rewrite strip_by_id.
  - destruct b as [|c b]; [contradiction|].
    inversion H as [|? ? Hc Hb]; subst.
    pose proof (decimal_digit_facts _ Hc) as [Hd [_ [_ [Hm Hp]]]].
    rewrite Hm, Hp, Hd.
    destruct (int_digits_total (c :: b) 0 H) as [n ->]. eauto.
  - eapply Forall_impl; [|exact H]. intros c Hc.
    apply decimal_digit_facts in Hc. tauto.
Qed.

(** ** The rows as text, and the order as decimal numbers *)











(** C9. For a collection whose barcodes are strings of digits and whose
    signatures have UUID form, the call writes a file that, read back with
    the reader, gives the header row and then the rows of the input pairs,
    all of them and no others, in the order written: ascending by the
    integer of the barcode. *)
Theorem csv_round_trip (results : list (str * str)) (path : str)
  (old : option node) :
  (forall r, In r results -> digit_string (fst r) /\ is_uuid (snd r)) ->
  writable old ->
  exists rows text,
    save_results_to_csv results path old =
    (Ok tt, Some (File text), [py "Results saved to: " ++ path])
    /\ csv_read text = Ok (csv_header :: rows_of rows)
    /\ Permutation results rows
    /\ StronglySorted int_le rows.
Proof.
  intros H Hw.
  destruct (sorted_total results) as [rows Hs].
  { intros r Hr. apply digit_string_int. apply (H r Hr). }
  destruct (sorted_spec barcode_int _ _ Hs) as [Hp [Hsorted _]].
  exists rows. eexists.
  split; [exact (save_results_to_csv_sorted _ _ _ _ Hs Hw)|].
  split; [|split; [exact Hp | exact Hsorted]].
  apply csv_read_written. intros r Hr.
  apply Permutation_sym in Hp.
  destruct (H r (Permutation_in _ Hp Hr)) as [Hb Hu].
  split; [exact (digit_string_plain _ Hb) | exact (is_uuid_plain _ Hu)].
Qed.

Lemma csv_round_trip_witness :
  exists rows text,
    save_results_to_csv round_trip_results (py "out.csv") None =
    (Ok tt, Some (File text), [py "Results saved to: out.csv"])
    /\ csv_read text = Ok (csv_header :: rows_of rows)
    /\ Permutation round_trip_results rows
    /\ StronglySorted int_le rows.
Proof.
  apply (csv_round_trip round_trip_results (py "out.csv") None).
  - intros r [<-|[<-|[]]]; (split; [split; [discriminate|];
      repeat (apply Forall_cons; [solve_decimal_digit|]); apply Forall_nil|]).
    + exists (py "abc12345"), (py "1111"), (py "2222"), (py "3333"),
        (py "444455556666").
      split; [reflexivity|]. repeat (split; [solve_hex_group|]). solve_hex_group.
    + exists (py "00000000"), (py "0000"), (py "0000"), (py "0000"),
        (py "00000000000f").
      split; [reflexivity|]. repeat (split; [solve_hex_group|]). solve_hex_group.
  - left. reflexivity.
Defined.

(** The rows read back in the example: [10] in front of [200]. *)
Example csv_round_trip_example :
  csv_read (py "Plate_Barcode,Measurement_Signature" ++ [CR; LF]
              ++ py "10,00000000-0000-0000-0000-00000000000f" ++ [CR; LF]
              ++ py "200,abc12345-1111-2222-3333-444455556666" ++ [CR; LF])
  = Ok [csv_header;
        [py "10"; py "00000000-0000-0000-0000-00000000000f"];
        [py "200"; py "abc12345-1111-2222-3333-444455556666"]].
Proof. reflexivity. Qed.

(** * Further properties of the helpers, the reader, the scan and [main] *)

(** ** The two extractors *)

Lemma extract_plate_barcode_find (folder_name : str) :
  extract_plate_barcode folder_name =
  Ok (match find (py "__") folder_name with
      | Some i => firstn i folder_name
      | None => folder_name
      end).
Proof.
  unfold extract_plate_barcode, split, py, getitem.
  cbn [list_ascii_of_string bind].
  destruct folder_name as [|c s]; [reflexivity|].
  cbn [length split_from].
  destruct (find _ (c :: s)); reflexivity.
Qed.

Lemma not_occurs_find (sub s : str) : ~ occurs sub s -> find sub s = None.
Proof.
  intros H. destruct (find sub s) as [i|] eqn:F; [|reflexivity].
  exfalso. apply H. apply contains_occurs. unfold contains. rewrite F.
  reflexivity.
Qed.

(** X1. The barcode is a prefix of the folder name, holds no delimiter [__]
    itself, and is its own barcode: extracting twice changes nothing. *)
Theorem extract_plate_barcode_prefix (folder_name barcode : str) :
  extract_plate_barcode folder_name = Ok barcode ->
  (exists rest, folder_name = barcode ++ rest)
  /\ ~ occurs (py "__") barcode
  /\ extract_plate_barcode barcode = Ok barcode.
Proof.
  rewrite extract_plate_barcode_find. intros H.
  assert (Hpre : exists rest, folder_name = barcode ++ rest).
  { destruct (find (py "__") folder_name) as [i|] eqn:F; injection H as <-.
    - destruct (find_Some_inv _ _ _ F) as [post [Hs _]].
      exists (py "__" ++ post). exact Hs.
    - exists []. rewrite app_nil_r. reflexivity. }
  assert (Hno : ~ occurs (py "__") barcode).
  { destruct (find (py "__") folder_name) as [i|] eqn:F; injection H as <-.
    - intros [p [q Hpq]].
      destruct (find_Some_inv _ _ _ F) as [post [Hs Hl]].
      rewrite Hpq in Hs. rewrite <- !app_assoc in Hs.
      pose proof (find_least _ _ _ _ _ F Hs) as Hle.
      rewrite <- Hl, Hpq, !length_app in Hle. simpl in Hle. lia.
    - intros [p [q Hpq]]. exact (find_None_inv _ _ _ _ F Hpq). }
  split; [exact Hpre|]. split; [exact Hno|].
  rewrite extract_plate_barcode_find, (not_occurs_find _ _ Hno). reflexivity.
Qed.

Lemma extract_plate_barcode_prefix_witness :
  (exists rest, py "30082__2025-05-31T01_01_45-Measurement 1" = py "30082" ++ rest)
  /\ ~ occurs (py "__") (py "30082")
  /\ extract_plate_barcode (py "30082") = Ok (py "30082").
Proof.
  apply (extract_plate_barcode_prefix
           (py "30082__2025-05-31T01_01_45-Measurement 1") (py "30082")).
  reflexivity.
Defined.

Lemma lower_hex_not_slash (c : ascii) : lower_hex c -> eqc c SLASH = false.
Proof.
  unfold lower_hex. simpl.
  intros H; repeat (destruct H as [<-|H]; [reflexivity|]). contradiction.
Qed.

Lemma is_uuid_no_slash (s : str) : is_uuid s -> ~ In SLASH s.
Proof.
  intros [g1 [g2 [g3 [g4 [g5 [-> [[_ H1] [[_ H2] [[_ H3] [[_ H4] [_ H5]]]]]]]]]]].
  assert (G : forall g, Forall lower_hex g ->
                        Forall (fun c => eqc c SLASH = false) g).
  { intros g Hg. eapply Forall_impl; [|exact Hg]. apply lower_hex_not_slash. }
  assert (F : Forall (fun c => eqc c SLASH = false)
                (g1 ++ [DASH] ++ g2 ++ [DASH] ++ g3 ++ [DASH] ++ g4
                   ++ [DASH] ++ g5)).
  { repeat (apply Forall_app; split); auto; repeat constructor. }
  intros Hin. rewrite Forall_forall in F. specialize (F _ Hin).
  rewrite eqc_refl in F. discriminate.
Qed.

(** X2. A signature the extractor returns is 36 characters long and stands
    in the URL between two slashes; put between two slashes it is found
    again, and on its own, without slashes, it is not. *)
Theorem extract_measurement_signature_result (url sig : str) :
  extract_measurement_signature url = Some sig ->
  length sig = 36
  /\ occurs ([SLASH] ++ sig ++ [SLASH]) url
  /\ extract_measurement_signature ([SLASH] ++ sig ++ [SLASH]) = Some sig
  /\ extract_measurement_signature sig = None.
Proof.
  intros H. destruct (extract_Some_leftmost _ _ H) as [pre [post [[Hurl Hu] _]]].
  split; [exact (is_uuid_length _ Hu)|]. split; [|split].
  - exists pre, post. rewrite Hurl, <- !app_assoc. reflexivity.
  - unfold extract_measurement_signature, re_search.
    destruct (match_at_complete 0 sig [] Hu) as [m [Hm Hg]].
    destruct sig as [|c sig]; [apply is_uuid_length in Hu; discriminate|].
    cbn [search_from app] in *. rewrite Hm, Hg. reflexivity.
  - destruct (extract_measurement_signature sig) as [s'|] eqn:E; [|reflexivity].
    exfalso. destruct (extract_Some_leftmost _ _ E) as [p [q [[Hs _] _]]].
    apply (is_uuid_no_slash _ Hu). rewrite Hs. apply in_or_app. right.
    left. reflexivity.
Qed.

Lemma extract_measurement_signature_result_witness :
  length (py "abc12345-1111-2222-3333-444455556666") = 36
  /\ occurs ([SLASH] ++ py "abc12345-1111-2222-3333-444455556666" ++ [SLASH])
       (py "http://host/abc12345-1111-2222-3333-444455556666/file")
  /\ extract_measurement_signature
       ([SLASH] ++ py "abc12345-1111-2222-3333-444455556666" ++ [SLASH])
     = Some (py "abc12345-1111-2222-3333-444455556666")
  /\ extract_measurement_signature (py "abc12345-1111-2222-3333-444455556666")
     = None.
Proof.
  apply (extract_measurement_signature_result
           (py "http://host/abc12345-1111-2222-3333-444455556666/file")).
  reflexivity.
Defined.

(** ** The reader *)

Lemma process_indexfile_same_lines
  (path text text' line1 line2 rest1 rest2 rest1' rest2' : str) :
  readline text = (line1, rest1) ->
  readline rest1 = (line2, rest2) ->
  readline text' = (line1, rest1') ->
  readline rest1' = (line2, rest2') ->
  ro_value (process_indexfile path (File text))
  = ro_value (process_indexfile path (File text'))
  /\ ro_printed (process_indexfile path (File text))
     = ro_printed (process_indexfile path (File text')).
Proof.
  intros H1 H2 H1' H2'. unfold process_indexfile, indexfile_try.
  cbn [open_read bind]. rewrite H1, H1', split_tab. cbn [bind].
  destruct (find_url_col 0 _) as [i|]; [|split; reflexivity].
  rewrite H2, H2'. destruct (truthy (strip line2)); [|split; reflexivity].
  rewrite split_tab. cbn [bind].
  destruct (i <? _); [|split; reflexivity].
  unfold getitem. destruct (nth_error _ i); split; reflexivity.
Qed.

(** X3. The reader looks at the first two lines only: two files that agree
    on them give the same value and the same printed lines, whatever rows
    follow. *)
Theorem process_indexfile_two_lines
  (path text text' line1 line2 rest1 rest2 rest1' rest2' : str) :
  readline text = (line1, rest1) ->
  readline rest1 = (line2, rest2) ->
  readline text' = (line1, rest1') ->
  readline rest1' = (line2, rest2') ->
  ro_value (process_indexfile path (File text))
  = ro_value (process_indexfile path (File text'))
  /\ ro_printed (process_indexfile path (File text))
     = ro_printed (process_indexfile path (File text')).
Proof. apply process_indexfile_same_lines. Qed.

Lemma process_indexfile_two_lines_witness :
  ro_value (process_indexfile (py "100__A/indexfile.txt") (File well_formed_file))
  = ro_value (process_indexfile (py "100__A/indexfile.txt") (File two_rows_file))
  /\ ro_printed
       (process_indexfile (py "100__A/indexfile.txt") (File well_formed_file))
     = ro_printed
         (process_indexfile (py "100__A/indexfile.txt") (File two_rows_file)).
Proof.
  eapply (process_indexfile_two_lines (py "100__A/indexfile.txt")
           well_formed_file two_rows_file
           (py "Row" ++ [TAB] ++ py "URL" ++ [TAB] ++ py "Date" ++ [LF])
           (py "1" ++ [TAB]
              ++ py "http://host/abc12345-1111-2222-3333-444455556666/file"
              ++ [TAB] ++ py "2024-01-01" ++ [LF])); reflexivity.
Defined.

(** X4. Whatever is at the path, the reader returns and does not raise; it
    prints at most one line; when it returns a signature, that is a string
    in UUID form and nothing was printed; and the file was never opened
    exactly when the node is not a readable file, in which case the one line
    printed is the error report. *)
Theorem process_indexfile_outcome (path : str) (f : node) :
  length (ro_printed (process_indexfile path f)) <= 1
  /\ (forall s,
        ro_value (process_indexfile path f) = Some s ->
        is_uuid s /\ ro_printed (process_indexfile path f) = [])
  /\ (ro_unread (process_indexfile path f) = None <->
      forall text, f <> File text)
  /\ (forall e,
        open_read path f = Raise e ->
        process_indexfile path f =
        {| ro_value := None;
           ro_printed := [py "Error processing " ++ path ++ py ": "
                            ++ exn_str e];
           ro_unread := None |}).
Proof.
  split; [|split; [|split]].
  - unfold process_indexfile, indexfile_try.
    destruct f as [text|err|children]; cbn [open_read bind ro_printed length];
      try lia.
    destruct (readline text) as [line1 rest1]. rewrite split_tab. cbn [bind].
    destruct (find_url_col 0 _) as [i|]; [|cbn; lia].
    destruct (readline rest1) as [line2 rest2].
    destruct (truthy (strip line2)); [|cbn; lia].
    rewrite split_tab. cbn [bind]. destruct (i <? _); [|cbn; lia].
    unfold getitem. destruct (nth_error _ i); cbn; lia.
  - intros s Hs. destruct (process_indexfile_value_Some _ _ _ Hs) as [Hp [url Hu]].
    split; [exact (extract_Some_is_uuid _ _ Hu) | exact Hp].
  - unfold process_indexfile, indexfile_try.
    destruct f as [text|err|children]; cbn [open_read bind ro_unread].
    + split; [|intros H; exfalso; exact (H text eq_refl)].
      destruct (readline text) as [line1 rest1]. rewrite split_tab. cbn [bind].
      destruct (find_url_col 0 _) as [i|]; [|intros H; simpl in H; discriminate H].
      destruct (readline rest1) as [line2 rest2].
      destruct (truthy (strip line2)); [|intros H; simpl in H; discriminate H].
      rewrite split_tab. cbn [bind].
      destruct (i <? _) eqn:L; [|intros H; simpl in H; discriminate H].
      apply Nat.ltb_lt in L. unfold getitem.
      destruct (nth_error _ i) eqn:N; [intros H; simpl in H; discriminate H|].
      apply nth_error_None in N. lia.
    + split; [intros _ text H; discriminate H | reflexivity].
    + split; [intros _ text H; discriminate H | reflexivity].
  - intros e He. unfold process_indexfile, indexfile_try. rewrite He.
    reflexivity.
Qed.

(** ** The scan *)

(** X5. A metadata file that cannot be opened (no permission, or a
    directory of that name) does not stop the scan: the error is printed,
    then the warning for the folder, no pair is added, and the scan goes on
    with the entries that follow. *)
Theorem scan_unreadable_indexfile (dir name : str)
  (children es : list (str * node)) (f : node) (e : exn)
  (results : list (str * str)) (out : list str) :
  lookup indexfile_name children = Some f ->
  open_read (indexfile_path_of dir name) f = Raise e ->
  exists barcode,
    extract_plate_barcode name = Ok barcode
    /\ scan_loop dir ((name, Dir children) :: es) (results, out)
       = scan_loop dir es
           (results,
            out ++ [py "Error processing " ++ indexfile_path_of dir name
                      ++ py ": " ++ exn_str e;
                    py "Warning: No measurement signature found for "
                      ++ barcode]).
Proof.
  intros Hl He. destruct (extract_plate_barcode_total name) as [b Hb].
  exists b. split; [exact Hb|].
  cbn [scan_loop]. unfold scan_step. fold indexfile_name.
  fold (indexfile_path_of dir name). rewrite Hb. cbn [bind]. rewrite Hl.
  unfold process_indexfile, indexfile_try. rewrite He.
  cbn [bind ro_value ro_printed app]. reflexivity.
Qed.

Lemma scan_unreadable_indexfile_witness :
  exists barcode,
    extract_plate_barcode (py "300__C") = Ok barcode
    /\ scan_loop (py "root") unreadable_root ([], [])
       = scan_loop (py "root") []
           ([],
            [] ++ [py "Error processing "
                     ++ indexfile_path_of (py "root") (py "300__C")
                     ++ py ": " ++ exn_str (OSError (py "Permission denied"));
                   py "Warning: No measurement signature found for "
                     ++ barcode]).
Proof.
  apply (scan_unreadable_indexfile (py "root") (py "300__C")
           [(py "indexfile.txt", Unreadable (py "Permission denied"))] []
           (Unreadable (py "Permission denied"))); reflexivity.
Defined.

(** X6. The scan of a listing is the scan of its front followed by the scan
    of its back: pairs and printed lines come in the order of the listing,
    and no entry influences what another one gives. *)
Theorem process_indexfiles_directory_app (dir : str)
  (es1 es2 : list (str * node)) (results1 results2 : list (str * str))
  (out1 out2 : list str) :
  process_indexfiles_directory dir es1 = Ok (results1, out1) ->
  process_indexfiles_directory dir es2 = Ok (results2, out2) ->
  process_indexfiles_directory dir (es1 ++ es2)
  = Ok (results1 ++ results2, out1 ++ out2).
Proof.
  rewrite !process_indexfiles_directory_delta, !flat_map_app.
  intros H1 H2. injection H1 as <- <-. injection H2 as <- <-. reflexivity.
Qed.

Lemma process_indexfiles_directory_app_witness :
  process_indexfiles_directory (py "root") (example_root ++ unreadable_root)
  = Ok ([(py "100", py "abc12345-1111-2222-3333-444455556666")] ++ [],
        [py "Processed: 100 -> abc12345-1111-2222-3333-444455556666";
         py "Warning: indexfile.txt not found in root/200__B"]
          ++ [py "Error processing root/300__C/indexfile.txt: Permission denied";
              py "Warning: No measurement signature found for 300"]).
Proof.
  apply process_indexfiles_directory_app; reflexivity.
Defined.

Lemma step_delta_has_signature (dir : str) (entry : str * node) :
  length (fst (step_delta dir entry))
  = if has_signature dir entry then 1 else 0.
Proof.
  unfold step_delta, scan_step, has_signature, indexfile_path_of.
  destruct entry as [name [text|err|children]]; [reflexivity|reflexivity|].
  destruct (extract_plate_barcode_total name) as [b ->]. cbn [bind].
  fold indexfile_name. destruct (lookup indexfile_name children) as [f|];
    [|reflexivity].
  destruct (ro_value _) as [sig|] eqn:V; [|reflexivity].
  destruct (process_indexfile_value_Some _ _ _ V) as [_ [url Hu]].
  rewrite (is_uuid_truthy _ (extract_Some_is_uuid _ _ Hu)). reflexivity.
Qed.

Lemma scan_results_length (dir : str) (entries : list (str * node))
  (results : list (str * str)) (out : list str) :
  process_indexfiles_directory dir entries = Ok (results, out) ->
  length results = length (filter (has_signature dir) entries)
  /\ length results <= length entries
  /\ (results = [] <-> forall entry, In entry entries ->
                                     has_signature dir entry = false).
Proof.
  rewrite process_indexfiles_directory_delta. intros H. injection H as <- _.
  assert (Hlen : length (flat_map (fun e => fst (step_delta dir e)) entries)
                 = length (filter (has_signature dir) entries)).
  { induction entries as [|e entries IH]; [reflexivity|].
    cbn [flat_map filter]. rewrite length_app, step_delta_has_signature, IH.
    destruct (has_signature dir e); reflexivity. }
  split; [exact Hlen|]. split.
  - rewrite Hlen. apply filter_length_le.
  - split.
    + intros Hnil entry Hin. rewrite Hnil in Hlen. cbn [length] in Hlen.
      destruct (has_signature dir entry) eqn:E; [|reflexivity].
      assert (Hf : In entry (filter (has_signature dir) entries))
        by (apply filter_In; auto).
      destruct (filter (has_signature dir) entries); [destruct Hf|discriminate].
    + intros Hall. apply length_zero_iff_nil. rewrite Hlen.
      apply length_zero_iff_nil. clear Hlen.
      induction entries as [|e entries IH]; [reflexivity|].
      cbn [filter]. rewrite (Hall e (or_introl eq_refl)).
      apply IH. intros x Hx. apply Hall. right; exact Hx.
Qed.

(** X7. The scan returns one pair for each complete folder and none for
    anything else: the number of pairs is the number of complete folders,
    at most the number of entries, and the list is empty exactly when no
    entry is a complete folder. *)
Theorem scan_results_count (dir : str) (entries : list (str * node))
  (results : list (str * str)) (out : list str) :
  process_indexfiles_directory dir entries = Ok (results, out) ->
  length results = length (filter (has_signature dir) entries)
  /\ length results <= length entries
  /\ (results = [] <-> forall entry, In entry entries ->
                                     has_signature dir entry = false).
Proof. apply scan_results_length. Qed.

Lemma scan_results_count_witness :
  length [(py "100", py "abc12345-1111-2222-3333-444455556666")]
  = length (filter (has_signature (py "root")) example_root)
  /\ length [(py "100", py "abc12345-1111-2222-3333-444455556666")]
     <= length example_root
  /\ ([(py "100", py "abc12345-1111-2222-3333-444455556666")] = [] <->
      forall entry, In entry example_root ->
                    has_signature (py "root") entry = false).
Proof.
  apply (scan_results_count (py "root") example_root _
           [py "Processed: 100 -> abc12345-1111-2222-3333-444455556666";
            py "Warning: indexfile.txt not found in root/200__B"]).
  reflexivity.
Defined.

(** ** The writer, case by case *)

Lemma decorate_Raise_inv {A} (key : A -> result Z) (l : list A) (e : exn) :
  decorate key l = Raise e -> exists y, In y l /\ key y = Raise e.
Proof.
  induction l as [|x l IH]; cbn [decorate]; [discriminate|].
  destruct (key x) as [k|e'] eqn:K; cbn [bind].
  - destruct (decorate key l) as [d|e'']; cbn [bind]; [discriminate|].
    intros H; injection H as ->. destruct (IH eq_refl) as [y [Hy Hk]].
    exists y. auto using in_cons.
  - intros H; injection H as ->. exists x. auto using in_eq.
Qed.

Lemma sorted_Ok_keys {A} (key : A -> result Z) (l l' : list A) :
  sorted key l = Ok l' -> forall x, In x l -> exists k, key x = Ok k.
Proof.
  unfold sorted. destruct (decorate key l) as [d|] eqn:D; [|discriminate].
  intros _ x Hx. destruct (decorate_Ok key _ _ D) as [Hm Hall].
  rewrite <- Hm in Hx. apply in_map_iff in Hx as [p [<- Hp]].
  rewrite Forall_forall in Hall. exists (fst p). exact (Hall p Hp).
Qed.

Lemma not_writable_raises (path : str) (old : option node) :
  ~ writable old -> exists msg, open_write path old = Raise (OSError msg).
Proof.
  intros H. destruct old as [[text|err|children]|]; cbn [open_write];
    unfold is_a_directory; eauto.
  - exfalso. apply H. right. eauto.
  - exfalso. apply H. left. reflexivity.
Qed.

Lemma writable_dec (old : option node) : writable old \/ ~ writable old.
Proof.
  destruct old as [[text|err|children]|].
  - left. right. eauto.
  - right. intros [H|[t H]]; discriminate.
  - right. intros [H|[t H]]; discriminate.
  - left. left. reflexivity.
Qed.

(** The three ways a call of the writer ends. *)
Lemma save_results_to_csv_cases (results : list (str * str)) (path : str)
  (old : option node) :
  (exists r, In r results /\ (forall n, py_int (fst r) <> Ok n)
             /\ save_results_to_csv results path old
                = (Raise ValueError, old, []))
  \/ ((forall r, In r results -> exists n, py_int (fst r) = Ok n)
      /\ ~ writable old
      /\ exists msg, save_results_to_csv results path old
                     = (Raise (OSError msg), old, []))
  \/ ((forall r, In r results -> exists n, py_int (fst r) = Ok n)
      /\ writable old
      /\ exists rows,
          sorted barcode_int results = Ok rows
          /\ save_results_to_csv results path old
             = (Ok tt,
                Some (File (py "Plate_Barcode,Measurement_Signature"
                              ++ [CR; LF] ++ csv_rows rows)),
                [py "Results saved to: " ++ path])).
Proof.
  destruct (sorted barcode_int results) as [rows|e] eqn:S.
  - pose proof (sorted_Ok_keys _ _ _ S) as Hall.
    destruct (writable_dec old) as [Hw|Hw].
    + right. right. split; [exact Hall|]. split; [exact Hw|].
      exists rows. split; [reflexivity|].
      exact (save_results_to_csv_sorted _ _ _ _ S Hw).
    + right. left. split; [exact Hall|]. split; [exact Hw|].
      destruct (not_writable_raises path old Hw) as [msg Hm]. exists msg.
      unfold save_results_to_csv. fold barcode_int. rewrite S, Hm. reflexivity.
  - left. unfold sorted in S.
    destruct (decorate barcode_int results) as [d|e'] eqn:D; [discriminate|].
    cbn [bind] in S. injection S as ->.
    destruct (decorate_Raise_inv _ _ _ D) as [y [Hy Hk]].
    exists y. split; [exact Hy|]. split.
    + intros n Hn. unfold barcode_int in Hk. rewrite Hn in Hk. discriminate.
    + unfold save_results_to_csv, sorted. fold barcode_int. rewrite D.
      cbn [bind]. rewrite (py_int_raises _ _ Hk). reflexivity.
Qed.

(** ** [main] *)

(** The ways a run on a directory ends. *)
Lemma main_dir_cases (dir : str) (entries : list (str * node)) :
  exists results out1,
    process_indexfiles_directory dir entries = Ok (results, out1)
    /\ ((results = []
         /\ main dir (Some (Dir entries))
            = (Ok 1%Z,
               [py "Processing indexfiles directory: " ++ dir] ++ out1
                 ++ [py "No results found. Please check your directory structure and indexfile.txt files."],
               Some (Dir entries)))
        \/ (results <> []
            /\ (exists r, In r results /\ forall n, py_int (fst r) <> Ok n)
            /\ main dir (Some (Dir entries))
               = (Raise ValueError,
                  [py "Processing indexfiles directory: " ++ dir] ++ out1,
                  Some (Dir entries)))
        \/ (results <> []
            /\ (forall r, In r results -> exists n, py_int (fst r) = Ok n)
            /\ ~ writable (lookup output_name entries)
            /\ exists msg,
                main dir (Some (Dir entries))
                = (Raise (OSError msg),
                   [py "Processing indexfiles directory: " ++ dir] ++ out1,
                   Some (Dir entries)))
        \/ (results <> []
            /\ (forall r, In r results -> exists n, py_int (fst r) = Ok n)
            /\ writable (lookup output_name entries)
            /\ exists rows,
                sorted barcode_int results = Ok rows
                /\ main dir (Some (Dir entries))
                   = (Ok 0%Z,
                      [py "Processing indexfiles directory: " ++ dir] ++ out1
                        ++ [py "Results saved to: " ++ path_join dir output_name]
                        ++ [py "Successfully processed "
                              ++ str_of_nat (length results)
                              ++ py " indexfiles"],
                      Some (Dir (set_child output_name
                                   (File (py "Plate_Barcode,Measurement_Signature"
                                            ++ [CR; LF] ++ csv_rows rows))
                                   entries))))).
Proof.
  destruct (process_indexfiles_directory_total dir entries) as [results [out1 Hs]].
  exists results, out1. split; [exact Hs|].
  unfold main. rewrite Hs.
  destruct results as [|r0 results]; [left; split; reflexivity|].
  right. cbn [length Nat.eqb].
  assert (Hne : r0 :: results <> []) by discriminate.
  destruct (save_results_to_csv_cases (r0 :: results)
              (path_join dir output_name) (lookup output_name entries))
    as [[r [Hin [Hr E]]] | [[Hall [Hw [msg E]]] | [Hall [Hw [rows [Hsort E]]]]]];
    rewrite E.
  - left. split; [exact Hne|]. split; [exists r; auto|].
    rewrite app_nil_r. reflexivity.
  - right. left. split; [exact Hne|]. split; [exact Hall|]. split; [exact Hw|].
    exists msg. rewrite app_nil_r. reflexivity.
  - right. right. split; [exact Hne|]. split; [exact Hall|]. split; [exact Hw|].
    exists rows. split; [exact Hsort|]. reflexivity.
Qed.

Lemma str_eqb_refl (a : str) : str_eqb a a = true.
Proof. apply str_eqb_eq. reflexivity. Qed.

Lemma str_eqb_neq (a b : str) : a <> b -> str_eqb a b = false.
Proof.
  intros H. destruct (str_eqb a b) eqn:E; [|reflexivity].
  apply str_eqb_eq in E. contradiction.
Qed.

Lemma lookup_set_child_same (name : str) (nd : node)
  (entries : list (str * node)) :
  lookup name (set_child name nd entries) = Some nd.
Proof.
  induction entries as [|[n old] entries IH]; cbn [set_child lookup].
  - rewrite str_eqb_refl. reflexivity.
  - destruct (str_eqb n name) eqn:E; cbn [lookup]; rewrite E; auto.
Qed.

Lemma lookup_set_child_other (name name' : str) (nd : node)
  (entries : list (str * node)) :
  name' <> name ->
  lookup name' (set_child name nd entries) = lookup name' entries.
Proof.
  intros Hne. induction entries as [|[n old] entries IH];
    cbn [set_child lookup].
  - rewrite str_eqb_neq; auto.
  - destruct (str_eqb n name) eqn:E; cbn [lookup].
    + apply str_eqb_eq in E. subst n. rewrite str_eqb_neq; auto.
    + rewrite IH. reflexivity.
Qed.

Lemma set_child_idem (name : str) (nd : node) (entries : list (str * node)) :
  set_child name nd (set_child name nd entries) = set_child name nd entries.
Proof.
  induction entries as [|[n old] entries IH]; cbn [set_child].
  - rewrite str_eqb_refl. reflexivity.
  - destruct (str_eqb n name) eqn:E; cbn [set_child]; rewrite E;
      [reflexivity | rewrite IH; reflexivity].
Qed.

(** Putting a plain file where there was none, or another plain file, does
    not change what a function that ignores plain files collects. *)
Lemma flat_map_set_child_file {B} (g : str * node -> list B) (name text : str)
  (entries : list (str * node)) :
  (forall x t, g (x, File t) = []) ->
  writable (lookup name entries) ->
  flat_map g (set_child name (File text) entries) = flat_map g entries.
Proof.
  intros Hg. induction entries as [|[n old] entries IH];
    cbn [set_child lookup flat_map]; intros Hw.
  - rewrite Hg. reflexivity.
  - destruct (str_eqb n name) eqn:E; cbn [flat_map].
    + destruct Hw as [Hw|[t Hw]]; [discriminate|]. injection Hw as ->.
      rewrite !Hg. reflexivity.
    + rewrite (IH Hw). reflexivity.
Qed.

Lemma scan_set_child_file (dir name text : str) (entries : list (str * node)) :
  writable (lookup name entries) ->
  process_indexfiles_directory dir (set_child name (File text) entries)
  = process_indexfiles_directory dir entries.
Proof.
  intros Hw. rewrite !process_indexfiles_directory_delta.
  rewrite !flat_map_set_child_file; auto.
Qed.

(** X8. What the exit status tells. A run that exits with status 0 was on a
    directory whose scan gave at least one pair, with all barcodes parsing
    as integers. A run that exits with status 1 was on an input that is
    missing or no directory, or on a directory none of whose entries is a
    complete folder. *)
Theorem main_exit_status (dir : str) (root : option node) :
  (fst (fst (main dir root)) = Ok 0%Z ->
   exists entries results out1,
     root = Some (Dir entries)
     /\ process_indexfiles_directory dir entries = Ok (results, out1)
     /\ results <> []
     /\ (forall r, In r results -> exists n, py_int (fst r) = Ok n))
  /\ (fst (fst (main dir root)) = Ok 1%Z ->
      (forall entries, root <> Some (Dir entries))
      \/ exists entries,
          root = Some (Dir entries)
          /\ forall entry, In entry entries -> has_signature dir entry = false).
Proof.
  destruct root as [[text|err|entries]|].
  - split; [discriminate|]. intros _. left. intros entries H. discriminate.
  - split; [discriminate|]. intros _. left. intros entries H. discriminate.
  - destruct (main_dir_cases dir entries)
      as [results [out1 [Hs [[Hnil E] | [[Hne [[r [Hin Hr]] E]]
            | [[Hne [Hall [Hw [msg E]]]] | [Hne [Hall [Hw [rows [Hsort E]]]]]]]]]]];
      rewrite E; cbn [fst].
    + pose proof (scan_results_length _ _ _ _ Hs) as [_ [_ Hiff]].
      split; [discriminate|].
      intros _. right. exists entries. split; [reflexivity|].
      apply Hiff. exact Hnil.
    + split; discriminate.
    + split; discriminate.
    + split; [|discriminate].
      intros _. exists entries, results, out1. auto.
  - split; [discriminate|]. intros _. left. intros entries H. discriminate.
Qed.

(** X9. What a run leaves behind. Unless it exits with status 0, whatever is
    at the input path is as it was. If the input is a directory, it still is
    one afterwards, every entry other than
    [plates_measurement_signatures.csv] is as it was, and after an exit with
    status 0 that entry is a readable file. *)
Theorem main_changes_only_output (dir : str) (root : option node) :
  (fst (fst (main dir root)) <> Ok 0%Z -> snd (main dir root) = root)
  /\ forall entries,
      root = Some (Dir entries) ->
      exists entries',
        snd (main dir root) = Some (Dir entries')
        /\ (forall name, name <> output_name ->
                         lookup name entries' = lookup name entries)
        /\ (fst (fst (main dir root)) = Ok 0%Z ->
            exists text, lookup output_name entries' = Some (File text)).
Proof.
  destruct root as [[text|err|entries]|].
  - split; [reflexivity | intros entries H; discriminate].
  - split; [reflexivity | intros entries H; discriminate].
  - destruct (main_dir_cases dir entries)
      as [results [out1 [Hs [[Hnil E] | [[Hne [[r [Hin Hr]] E]]
            | [[Hne [Hall [Hw [msg E]]]] | [Hne [Hall [Hw [rows [Hsort E]]]]]]]]]]];
      rewrite E; cbn [fst snd].
    + split; [reflexivity|]. intros es H. injection H as <-.
      exists entries. split; [reflexivity|]. split; [reflexivity|discriminate].
    + split; [reflexivity|]. intros es H. injection H as <-.
      exists entries. split; [reflexivity|]. split; [reflexivity|discriminate].
    + split; [reflexivity|]. intros es H. injection H as <-.
      exists entries. split; [reflexivity|]. split; [reflexivity|discriminate].
    + split; [intros H; exfalso; apply H; reflexivity|].
      intros es H. injection H as <-. eexists. split; [reflexivity|]. split.
      * intros name Hn. apply lookup_set_child_other. exact Hn.
      * intros _. eexists. apply lookup_set_child_same.
  - split; [reflexivity | intros entries H; discriminate].
Qed.

(** X10. A second run changes nothing: after a run that exits with status 0,
    running again on the directory it left behind exits with status 0 too,
    prints the same lines and leaves the same directory; the file written
    by the first run is not taken for a folder and is written again with
    the same content. *)
Theorem main_rerun (dir : str) (root root' : option node) (out : list str) :
  main dir root = (Ok 0%Z, out, root') ->
  main dir root' = (Ok 0%Z, out, root').
Proof.
  destruct root as [[text|err|entries]|]; try discriminate.
  destruct (main_dir_cases dir entries)
    as [results [out1 [Hs [[Hnil E] | [[Hne [[r [Hin Hr]] E]]
          | [[Hne [Hall [Hw [msg E]]]] | [Hne [Hall [Hw [rows [Hsort E]]]]]]]]]]];
    rewrite E; try discriminate.
  intros H.
  pose proof (f_equal snd H) as Hroot.
  pose proof (f_equal (fun x => snd (fst x)) H) as Hout.
  cbn [fst snd] in Hroot, Hout. subst root' out. clear H.
  match goal with
  | |- main dir (Some (Dir (set_child output_name (File ?csv) entries))) = _ =>
      pose proof (scan_set_child_file dir output_name csv entries Hw) as Hsame;
      pose proof (lookup_set_child_same output_name (File csv) entries) as Hlk;
      pose proof (set_child_idem output_name (File csv) entries) as Hidem;
      destruct (main_dir_cases dir (set_child output_name (File csv) entries))
        as [results' [out1' [Hs' Hcases]]]
  end.
  rewrite Hsame, Hs in Hs'. injection Hs' as <- <-.
  destruct Hcases
    as [[Hnil E'] | [[_ [[r [Hin Hr]] E']]
          | [[_ [_ [Hnw _]]] | [_ [_ [_ [rows' [Hsort' E']]]]]]]].
  - contradiction.
  - destruct (Hall r Hin) as [n Hn]. exfalso. exact (Hr n Hn).
  - exfalso. apply Hnw. rewrite Hlk. right. eauto.
  - rewrite Hsort in Hsort'. injection Hsort' as <-.
    rewrite E', Hidem. reflexivity.
Qed.

Lemma main_rerun_witness :
  main (py "root") (snd (main (py "root") (Some (Dir example_root))))
  = (Ok 0%Z,
     snd (fst (main (py "root") (Some (Dir example_root)))),
     snd (main (py "root") (Some (Dir example_root)))).
Proof.
  apply (main_rerun (py "root") (Some (Dir example_root))). reflexivity.
Defined.

(** ** Line ends *)

Lemma readline_lf (l rest : str) :
  one_line l -> readline (l ++ [LF] ++ rest) = (l ++ [LF], rest).
Proof.
  induction 1 as [|c l [Hlf Hcr] _ IH]; cbn [app readline].
  - reflexivity.
  - rewrite Hlf, Hcr. cbn [app] in IH. rewrite IH. reflexivity.
Qed.

Lemma readline_crlf (l rest : str) :
  one_line l -> readline (l ++ [CR; LF] ++ rest) = (l ++ [LF], rest).
Proof.
  induction 1 as [|c l [Hlf Hcr] _ IH]; cbn [app readline].
  - reflexivity.
  - rewrite Hlf, Hcr. cbn [app] in IH. rewrite IH. reflexivity.
Qed.

(** X11. Line ends do not matter: a file whose first two lines end in CR LF
    gives the same value and the same printed lines as the file with the
    same two lines ending in LF. *)
Theorem process_indexfile_line_ends (path header row rest rest' : str) :
  one_line header -> one_line row ->
  ro_value (process_indexfile path
              (File (header ++ [CR; LF] ++ row ++ [CR; LF] ++ rest)))
  = ro_value (process_indexfile path
                (File (header ++ [LF] ++ row ++ [LF] ++ rest')))
  /\ ro_printed (process_indexfile path
                   (File (header ++ [CR; LF] ++ row ++ [CR; LF] ++ rest)))
     = ro_printed (process_indexfile path
                     (File (header ++ [LF] ++ row ++ [LF] ++ rest'))).
Proof.
  intros Hh Hr.
  apply (process_indexfile_same_lines path _ _ (header ++ [LF]) (row ++ [LF])
           (row ++ [CR; LF] ++ rest) rest (row ++ [LF] ++ rest') rest').
  - apply readline_crlf. exact Hh.
  - apply readline_crlf. exact Hr.
  - apply readline_lf. exact Hh.
  - apply readline_lf. exact Hr.
Qed.

Lemma process_indexfile_line_ends_witness :
  ro_value (process_indexfile (py "100__A/indexfile.txt")
              (File (py "Row" ++ [TAB] ++ py "URL" ++ [CR; LF]
                       ++ (py "1" ++ [TAB]
                             ++ py "http://host/abc12345-1111-2222-3333-444455556666/file")
                       ++ [CR; LF] ++ [])))
  = ro_value (process_indexfile (py "100__A/indexfile.txt")
                (File (py "Row" ++ [TAB] ++ py "URL" ++ [LF]
                         ++ (py "1" ++ [TAB]
                               ++ py "http://host/abc12345-1111-2222-3333-444455556666/file")
                         ++ [LF] ++ [])))
  /\ ro_printed (process_indexfile (py "100__A/indexfile.txt")
                   (File (py "Row" ++ [TAB] ++ py "URL" ++ [CR; LF]
                            ++ (py "1" ++ [TAB]
                                  ++ py "http://host/abc12345-1111-2222-3333-444455556666/file")
                            ++ [CR; LF] ++ [])))
     = ro_printed (process_indexfile (py "100__A/indexfile.txt")
                     (File (py "Row" ++ [TAB] ++ py "URL" ++ [LF]
                              ++ (py "1" ++ [TAB]
                                    ++ py "http://host/abc12345-1111-2222-3333-444455556666/file")
                              ++ [LF] ++ []))).
Proof.
  apply (process_indexfile_line_ends (py "100__A/indexfile.txt")
           (py "Row" ++ [TAB] ++ py "URL")
           (py "1" ++ [TAB]
              ++ py "http://host/abc12345-1111-2222-3333-444455556666/file")
           [] []);
    repeat (apply Forall_cons; [split; reflexivity|]); apply Forall_nil.
Defined.

(** ** The order of the listing *)

(** A list has at most one sorted arrangement when different elements have
    different keys. *)
Lemma sorted_perm_unique {A} (key : A -> result Z) (a b : list A) :
  StronglySorted (key_ok_le key) a ->
  StronglySorted (key_ok_le key) b ->
  Permutation a b ->
  (forall x y, In x a -> In y a -> key x = key y -> x = y) ->
  a = b.
Proof.
  intros Ha. revert b. induction Ha as [|x a Ha IH Hx]; intros b Hb Hp Hinj.
  - apply Permutation_nil in Hp. auto.
  - destruct b as [|y b]; [apply Permutation_sym, Permutation_nil in Hp;
                           discriminate|].
    inversion Hb as [|? ? Hb' Hy]; subst.
    assert (Exy : x = y).
    { assert (Hxb : In x (y :: b))
        by (apply (Permutation_in _ Hp); left; reflexivity).
      assert (Hya : In y (x :: a))
        by (apply (Permutation_in _ (Permutation_sym Hp)); left; reflexivity).
      destruct Hxb as [->|Hxb]; [reflexivity|].
      destruct Hya as [->|Hya]; [reflexivity|].
      rewrite Forall_forall in Hx, Hy.
      destruct (Hx _ Hya) as [kx [ky [Kx [Ky Hle]]]].
      destruct (Hy _ Hxb) as [ky' [kx' [Ky' [Kx' Hle']]]].
      apply Hinj; [left; reflexivity | right; exact Hya |].
      rewrite Kx in Kx'. rewrite Ky in Ky'.
      injection Kx' as <-. injection Ky' as <-.
      rewrite Kx, Ky. f_equal. lia. }
    subst y. f_equal. apply IH.
    + exact Hb'.
    + exact (Permutation_cons_inv Hp).
    + intros u v Hu Hv. apply Hinj; right; assumption.
Qed.

Lemma sorted_perm_same {A} (key : A -> result Z) (l l' : list A) :
  (forall x e, key x = Raise e -> e = ValueError) ->
  Permutation l l' ->
  (forall x y, In x l -> In y l -> key x = key y -> x = y) ->
  sorted key l = sorted key l'.
Proof.
  intros Hval Hp Hinj.
  destruct (sorted key l) as [rows|e] eqn:S.
  - destruct (sorted key l') as [rows'|e'] eqn:S'.
    + f_equal.
      destruct (sorted_spec key _ _ S) as [P [Sd _]].
      destruct (sorted_spec key _ _ S') as [P' [Sd' _]].
      apply (sorted_perm_unique key); auto.
      * rewrite <- P, Hp. exact P'.
      * intros x y Hx Hy. apply Hinj; apply (Permutation_in _ (Permutation_sym P));
          assumption.
    + exfalso. unfold sorted in S'.
      destruct (decorate key l') as [d|e''] eqn:D; [discriminate|].
      destruct (decorate_Raise_inv _ _ _ D) as [y [Hy Hk]].
      apply (Permutation_in _ (Permutation_sym Hp)) in Hy.
      destruct (sorted_Ok_keys _ _ _ S y Hy) as [k Hk']. rewrite Hk in Hk'.
      discriminate.
  - destruct (sorted key l') as [rows'|e'] eqn:S'.
    + exfalso. unfold sorted in S.
      destruct (decorate key l) as [d|e''] eqn:D; [discriminate|].
      destruct (decorate_Raise_inv _ _ _ D) as [y [Hy Hk]].
      apply (Permutation_in _ Hp) in Hy.
      destruct (sorted_Ok_keys _ _ _ S' y Hy) as [k Hk']. rewrite Hk in Hk'.
      discriminate.
    + unfold sorted in S, S'.
      destruct (decorate key l) as [d|e1] eqn:D; [discriminate|].
      destruct (decorate key l') as [d'|e2] eqn:D'; [discriminate|].
      cbn [bind] in S, S'. injection S as <-. injection S' as <-.
      destruct (decorate_Raise_inv _ _ _ D) as [y [_ Hk]].
      destruct (decorate_Raise_inv _ _ _ D') as [y' [_ Hk']].
      rewrite (Hval _ _ Hk), (Hval _ _ Hk'). reflexivity.
Qed.

(** X12. The file written does not depend on the order in which the
    directory lists its entries, as long as different pairs have different
    barcode integers: two listings of the same entries lead to the same
    call result, the same file and the same line printed by the writer. *)
Theorem csv_independent_of_listing_order (dir : str)
  (entries entries' : list (str * node)) (results results' : list (str * str))
  (out out' : list str) (path : str) (old : option node) :
  Permutation entries entries' ->
  process_indexfiles_directory dir entries = Ok (results, out) ->
  process_indexfiles_directory dir entries' = Ok (results', out') ->
  (forall x y, In x results -> In y results ->
               py_int (fst x) = py_int (fst y) -> x = y) ->
  Permutation results results'
  /\ save_results_to_csv results path old
     = save_results_to_csv results' path old.
Proof.
  intros Hp. rewrite !process_indexfiles_directory_delta.
  intros H H' Hinj. injection H as <- _. injection H' as <- _.
  assert (Hperm : Permutation
                    (flat_map (fun e => fst (step_delta dir e)) entries)
                    (flat_map (fun e => fst (step_delta dir e)) entries'))
    by (apply Permutation_flat_map; exact Hp).
  split; [exact Hperm|].
  unfold save_results_to_csv. fold barcode_int.
  rewrite (sorted_perm_same barcode_int _ _
             (fun x e => py_int_raises (fst x) e) Hperm Hinj).
  reflexivity.
Qed.

Lemma csv_independent_of_listing_order_witness :
  Permutation
    [(py "200", py "abc12345-1111-2222-3333-444455556666");
     (py "10", py "abc12345-1111-2222-3333-444455556666")]
    [(py "10", py "abc12345-1111-2222-3333-444455556666");
     (py "200", py "abc12345-1111-2222-3333-444455556666")]
  /\ save_results_to_csv
       [(py "200", py "abc12345-1111-2222-3333-444455556666");
        (py "10", py "abc12345-1111-2222-3333-444455556666")]
       (py "root/plates_measurement_signatures.csv") None
     = save_results_to_csv
         [(py "10", py "abc12345-1111-2222-3333-444455556666");
          (py "200", py "abc12345-1111-2222-3333-444455556666")]
         (py "root/plates_measurement_signatures.csv") None.
Proof.
  apply (csv_independent_of_listing_order (py "root") two_plates_root
           (rev two_plates_root) _ _
           [py "Processed: 200 -> abc12345-1111-2222-3333-444455556666";
            py "Warning: indexfile.txt not found in root/300__C";
            py "Processed: 10 -> abc12345-1111-2222-3333-444455556666"]
           [py "Processed: 10 -> abc12345-1111-2222-3333-444455556666";
            py "Warning: indexfile.txt not found in root/300__C";
            py "Processed: 200 -> abc12345-1111-2222-3333-444455556666"]).
  - apply Permutation_rev.
  - reflexivity.
  - reflexivity.
  - intros x y [<-|[<-|[]]] [<-|[<-|[]]] Hk; try reflexivity; discriminate Hk.
Defined.

(** ** Numeric order *)

Lemma decimal_digit_value (c : ascii) :
  decimal_digit c ->
  (0 <= digit_value c <= 9)%Z /\ (c <> "0"%char -> (1 <= digit_value c)%Z).
Proof.
  unfold decimal_digit. simpl.
  intros H;
    repeat (destruct H as [<-|H];
            [split; [cbv; split; discriminate
                    | intros Hz; try (exfalso; apply Hz; reflexivity);
                      cbv; discriminate]|]).
  contradiction.
Qed.

Lemma int_digits_bounds (s : str) (acc : Z) :
  Forall decimal_digit s -> (0 <= acc)%Z ->
  exists v,
    int_digits acc false s = Some v
    /\ (acc * 10 ^ Z.of_nat (length s) <= v
        < (acc + 1) * 10 ^ Z.of_nat (length s))%Z.
Proof.
  intros H. revert acc; induction H as [|c s Hc _ IH]; intros acc Hacc.
  - exists acc. cbn [int_digits length]. simpl. split; [reflexivity | lia].
  - cbn [int_digits].
    pose proof (decimal_digit_facts _ Hc) as [Hd _]. rewrite Hd.
    pose proof (decimal_digit_value _ Hc) as [[Hlo Hhi] _].
    destruct (IH (10 * acc + digit_value c)%Z ltac:(lia)) as [v [Hv [Hl Hu]]].
    exists v. split; [exact Hv|].
    cbn [length]. rewrite Nat2Z.inj_succ, Z.pow_succ_r by lia.
    assert (0 < 10 ^ Z.of_nat (length s))%Z by (apply Z.pow_pos_nonneg; lia).
    nia.
Qed.

(** A string of digits without leading zero has as many digits as its
    integer has decimal places. *)
Lemma digit_string_int_bounds (b : str) :
  digit_string b -> no_leading_zero b ->
  exists n,
    py_int b = Ok n
    /\ (10 ^ (Z.of_nat (length b) - 1) <= n < 10 ^ Z.of_nat (length b))%Z.
Proof.
  intros [Hne H] Hz. unfold py_int. rewrite strip_by_id.
  - destruct b as [|c b]; [contradiction|].
    inversion H as [|? ? Hc Hb]; subst.
    pose proof (decimal_digit_facts _ Hc) as [Hd [_ [_ [Hm Hp]]]].
    rewrite Hm, Hp, Hd. cbn [int_digits]. rewrite Hd.
    pose proof (decimal_digit_value _ Hc) as [[Hlo Hhi] Hone].
    specialize (Hone Hz).
    destruct (int_digits_bounds b (10 * 0 + digit_value c)%Z Hb ltac:(lia))
      as [v [-> [Hl Hu]]].
    exists v. split; [reflexivity|].
    cbn [length]. rewrite Nat2Z.inj_succ.
    replace (Z.succ (Z.of_nat (length b)) - 1)%Z with (Z.of_nat (length b))
      by lia.
    rewrite Z.pow_succ_r by lia.
    assert (0 < 10 ^ Z.of_nat (length b))%Z by (apply Z.pow_pos_nonneg; lia).
    nia.
  - eapply Forall_impl; [|exact H]. intros c Hc.
    apply decimal_digit_facts in Hc. tauto.
Qed.

Lemma sorted_precedes {A} (R : A -> A -> Prop) (b a : A) (l : list A) :
  StronglySorted R l -> precedes b a l -> R b a.
Proof.
  intros Hs [l1 [l2 [l3 ->]]]. induction l1 as [|x l1 IH].
  - cbn [app] in Hs. inversion Hs as [|? ? _ Hall]; subst.
    rewrite Forall_forall in Hall. apply Hall. apply in_elt.
  - cbn [app] in Hs. inversion Hs; subst. auto.
Qed.

(** X13. The order is numeric, not lexical: of two barcodes that are strings
    of digits without leading zero, the shorter one is the smaller integer,
    and in the sorted list its pair never stands behind the pair of the
    longer one. *)
Theorem shorter_barcode_first (results rows : list (str * str))
  (a b : str * str) :
  sorted barcode_int results = Ok rows ->
  digit_string (fst a) -> no_leading_zero (fst a) ->
  digit_string (fst b) -> no_leading_zero (fst b) ->
  length (fst a) < length (fst b) ->
  (exists x y, py_int (fst a) = Ok x /\ py_int (fst b) = Ok y /\ (x < y)%Z)
  /\ ~ precedes b a rows.
Proof.
  intros Hs Ha Hza Hb Hzb Hlen.
  destruct (digit_string_int_bounds _ Ha Hza) as [x [Hx [_ Hxu]]].
  destruct (digit_string_int_bounds _ Hb Hzb) as [y [Hy [Hyl _]]].
  assert (Hxy : (x < y)%Z).
  { assert (10 ^ Z.of_nat (length (fst a))
            <= 10 ^ (Z.of_nat (length (fst b)) - 1))%Z
      by (apply Z.pow_le_mono_r; lia).
    lia. }
  split; [exists x, y; auto|].
  intros Hprec. destruct (sorted_spec barcode_int _ _ Hs) as [_ [Hsorted _]].
  destruct (sorted_precedes _ _ _ _ Hsorted Hprec) as [y' [x' [Hy' [Hx' Hle]]]].
  unfold barcode_int in Hy', Hx'. rewrite Hy in Hy'. rewrite Hx in Hx'.
  injection Hy' as <-. injection Hx' as <-. lia.
Qed.

Lemma shorter_barcode_first_witness :
  (exists x y, py_int (fst (py "9", py "uuid2")) = Ok x
               /\ py_int (fst (py "10", py "uuid1")) = Ok y /\ (x < y)%Z)
  /\ ~ precedes (py "10", py "uuid1") (py "9", py "uuid2")
        [(py "9", py "uuid2"); (py "10", py "uuid1")].
Proof.
  apply (shorter_barcode_first [(py "10", py "uuid1"); (py "9", py "uuid2")]
           [(py "9", py "uuid2"); (py "10", py "uuid1")]
           (py "9", py "uuid2") (py "10", py "uuid1")).
  - reflexivity.
  - split; [discriminate|].
    repeat (apply Forall_cons; [solve_decimal_digit|]); apply Forall_nil.
  - discriminate.
  - split; [discriminate|].
    repeat (apply Forall_cons; [solve_decimal_digit|]); apply Forall_nil.
  - discriminate.
  - simpl. lia.
Defined.

(** ** Reading back any file the writer writes *)

Lemma read_from_char (p : parser) (cur s : str) (c : ascii) :
  eqc c LF = false -> eqc c CR = false ->
  read_from p cur (c :: s) = read_from p (cur ++ [c]) s.
Proof.
  intros Hlf Hcr. unfold read_from. cbn [file_lines_from].
  rewrite Hlf, Hcr. reflexivity.
Qed.

Lemma read_from_lf (p : parser) (cur s : str) :
  read_from p cur (LF :: s)
  = read_records ((cur ++ [LF]) :: file_lines_from [] s) p.
Proof. reflexivity. Qed.

Lemma read_from_crlf (p : parser) (cur s : str) :
  read_from p cur (CR :: LF :: s)
  = read_records ((cur ++ [CR; LF]) :: file_lines_from [] s) p.
Proof. reflexivity. Qed.

Lemma read_from_cr (p : parser) (cur s : str) (c : ascii) :
  eqc c LF = false ->
  read_from p cur (CR :: c :: s)
  = read_records ((cur ++ [CR]) :: file_lines_from [] (c :: s)) p.
Proof.
  intros Hlf. unfold read_from.
  change (file_lines_from cur (CR :: c :: s))
    with (if eqc c LF then (cur ++ [CR; LF]) :: file_lines_from [] s
          else (cur ++ [CR]) :: file_lines_from [] (c :: s)).
  rewrite Hlf. reflexivity.
Qed.

(** A line that ends inside a quoted field hands the parser on to the next
    line as it is. *)
Lemma read_line_in_quotes (p : parser) (line f : str) (fs : list str)
  (lines : list str) :
  parse_line p line
  = Ok {| p_state := IN_QUOTED_FIELD; p_field := f; p_fields := fs |} ->
  read_records (line :: lines) p
  = read_records lines
      {| p_state := IN_QUOTED_FIELD; p_field := f; p_fields := fs |}.
Proof. intros H. cbn [read_records]. rewrite H. reflexivity. Qed.

Lemma parse_line_snoc (p q : parser) (cur : str) (c : ascii) :
  parse_line p cur = Ok q ->
  parse_line p (cur ++ [c]) = parse_process_char q (Some c).
Proof.
  intros H. rewrite parse_line_app, H. cbn [bind parse_line].
  destruct (parse_process_char q (Some c)); reflexivity.
Qed.

Lemma parse_quoted_char (f : str) (fs : list str) (c : ascii) :
  eqc c DQUOTE = false ->
  parse_process_char
    {| p_state := IN_QUOTED_FIELD; p_field := f; p_fields := fs |} (Some c)
  = Ok {| p_state := IN_QUOTED_FIELD; p_field := f ++ [c]; p_fields := fs |}.
Proof. intros H. unfold parse_process_char. cbn [p_state]. rewrite H. reflexivity. Qed.

(** The content of a quoted field, however many lines it spans, is read
    into the field as it was before the quotes were doubled. *)
Lemma read_quoted (n : nat) :
  forall (q : str), length q <= n ->
  forall (p : parser) (cur f : str) (fs : list str) (tail : str),
    parse_line p cur
    = Ok {| p_state := IN_QUOTED_FIELD; p_field := f; p_fields := fs |} ->
    exists p' cur',
      read_from p cur (escape q ++ DQUOTE :: tail)
      = read_from p' cur' (DQUOTE :: tail)
      /\ parse_line p' cur'
         = Ok {| p_state := IN_QUOTED_FIELD; p_field := f ++ q;
                 p_fields := fs |}.
Proof.
  induction n as [|n IH]; intros q Hlen p cur f fs tail Hp.
  - destruct q; [|cbn [length] in Hlen; lia].
    exists p, cur. rewrite app_nil_r. split; [reflexivity | exact Hp].
  - destruct q as [|c q]; [exists p, cur; rewrite app_nil_r; auto|].
    cbn [length] in Hlen.
    replace (f ++ c :: q) with ((f ++ [c]) ++ q)
      by (rewrite <- app_assoc; reflexivity).
    destruct (eqc c DQUOTE) eqn:Eq.
    { (* a quote, written twice *)
      apply eqc_eq in Eq. subst c.
      change (escape (DQUOTE :: q)) with (DQUOTE :: DQUOTE :: escape q).
      cbn [app]. rewrite !read_from_char by reflexivity.
      apply IH; [lia|].
      rewrite <- app_assoc. cbn [app].
      change (cur ++ [DQUOTE; DQUOTE]) with (cur ++ [DQUOTE] ++ [DQUOTE]).
      rewrite app_assoc.
      rewrite (parse_line_snoc p
                 {| p_state := QUOTE_IN_QUOTED_FIELD; p_field := f;
                    p_fields := fs |}); [reflexivity|].
      rewrite (parse_line_snoc p _ _ _ Hp). reflexivity. }
    change (escape (c :: q))
      with ((if eqc c DQUOTE then [DQUOTE; DQUOTE] else [c]) ++ escape q).
    rewrite Eq. cbn [app].
    destruct (eqc c LF) eqn:Elf.
    { (* a line feed: the line ends *)
      apply eqc_eq in Elf. subst c. rewrite read_from_lf.
      rewrite (read_line_in_quotes p _ (f ++ [LF]) fs).
      - apply (IH q ltac:(lia)
                 {| p_state := IN_QUOTED_FIELD; p_field := f ++ [LF];
                    p_fields := fs |} []).
        reflexivity.
      - rewrite (parse_line_snoc p _ _ _ Hp). apply parse_quoted_char.
        reflexivity. }
    destruct (eqc c CR) eqn:Ecr.
    { (* a carriage return: the line ends, with a line feed if one follows *)
      apply eqc_eq in Ecr. subst c.
      destruct q as [|c' q'].
      - cbn [escape flat_map app]. rewrite read_from_cr by reflexivity.
        rewrite (read_line_in_quotes p _ (f ++ [CR]) fs).
        + exists {| p_state := IN_QUOTED_FIELD; p_field := f ++ [CR];
                    p_fields := fs |}, [].
          rewrite app_nil_r. split; reflexivity.
        + rewrite (parse_line_snoc p _ _ _ Hp). apply parse_quoted_char.
          reflexivity.
      - destruct (eqc c' LF) eqn:Elf'.
        + apply eqc_eq in Elf'. subst c'.
          change (escape (LF :: q')) with (LF :: escape q'). cbn [app].
          rewrite read_from_crlf.
          rewrite (read_line_in_quotes p _ ((f ++ [CR]) ++ [LF]) fs).
          * replace ((f ++ [CR]) ++ LF :: q') with (((f ++ [CR]) ++ [LF]) ++ q')
              by (rewrite <- !app_assoc; reflexivity).
            apply (IH q' ltac:(cbn [length] in Hlen; lia)
                     {| p_state := IN_QUOTED_FIELD;
                        p_field := (f ++ [CR]) ++ [LF]; p_fields := fs |} []).
            reflexivity.
          * change (cur ++ [CR; LF]) with (cur ++ [CR] ++ [LF]).
            rewrite app_assoc.
            rewrite (parse_line_snoc p
                       {| p_state := IN_QUOTED_FIELD; p_field := f ++ [CR];
                          p_fields := fs |});
              [apply parse_quoted_char; reflexivity|].
            rewrite (parse_line_snoc p _ _ _ Hp). apply parse_quoted_char.
            reflexivity.
        + assert (Hnext : exists x rest,
                     escape (c' :: q') ++ DQUOTE :: tail = x :: rest
                     /\ eqc x LF = false).
          { change (escape (c' :: q'))
              with ((if eqc c' DQUOTE then [DQUOTE; DQUOTE] else [c'])
                      ++ escape q').
            destruct (eqc c' DQUOTE); cbn [app]; eauto. }
          destruct Hnext as [x [rest [Hx Hxlf]]]. rewrite Hx.
          rewrite (read_from_cr _ _ _ _ Hxlf). rewrite <- Hx.
          rewrite (read_line_in_quotes p _ (f ++ [CR]) fs).
          * apply (IH (c' :: q') ltac:(lia)
                     {| p_state := IN_QUOTED_FIELD; p_field := f ++ [CR];
                        p_fields := fs |} []).
            reflexivity.
          * rewrite (parse_line_snoc p _ _ _ Hp). apply parse_quoted_char.
            reflexivity. }
    (* any other character stays in the line *)
    rewrite (read_from_char _ _ _ _ Elf Ecr).
    apply IH; [lia|].
    rewrite (parse_line_snoc p _ _ _ Hp). apply parse_quoted_char. exact Eq.
Qed.

Lemma needs_quote_plain (f : str) : needs_quote f = false -> plain f.
Proof.
  unfold needs_quote, plain. induction f as [|c f IH]; [constructor|].
  cbn [existsb]. intros H. apply orb_false_iff in H as [Hc Hf].
  constructor; auto.
Qed.

Lemma read_from_plain (p : parser) (cur f tail : str) :
  plain f -> read_from p cur (f ++ tail) = read_from p (cur ++ f) tail.
Proof.
  intros H. unfold read_from.
  rewrite (file_lines_from_plain cur f tail (plain_no_newline _ H)).
  reflexivity.
Qed.

Lemma parse_line_from (p q : parser) (cur more : str) :
  parse_line p cur = Ok q ->
  parse_line p (cur ++ more) = parse_line q more.
Proof. intros H. rewrite parse_line_app, H. reflexivity. Qed.

Lemma writerow_two (a b : str) :
  writerow [a; b] = csv_field a ++ COMMA :: csv_field b ++ [CR; LF].
Proof.
  unfold writerow. destruct a as [|c a]; cbn [map join];
    rewrite <- ?app_assoc; reflexivity.
Qed.

(** A written field and the comma behind it, at the start of a record or of
    a field. *)
Lemma read_field_comma (a : str) (p : parser) (cur : str)
  (st : parser_state) (fs : list str) (tail : str) :
  parse_line p cur = Ok {| p_state := st; p_field := []; p_fields := fs |} ->
  st = START_RECORD \/ st = START_FIELD ->
  exists p' cur',
    read_from p cur (csv_field a ++ COMMA :: tail) = read_from p' cur' tail
    /\ parse_line p' cur'
       = Ok {| p_state := START_FIELD; p_field := [];
               p_fields := fs ++ [a] |}.
Proof.
  intros Hp Hst. unfold csv_field. destruct (needs_quote a) eqn:Q.
  - unfold quote_field. fold (escape a).
    cbn [app]. rewrite <- app_assoc. cbn [app].
    rewrite read_from_char by reflexivity.
    assert (Hopen : parse_line p (cur ++ [DQUOTE])
                    = Ok {| p_state := IN_QUOTED_FIELD; p_field := [];
                            p_fields := fs |}).
    { rewrite (parse_line_snoc p _ _ _ Hp). destruct Hst as [-> | ->];
        reflexivity. }
    destruct (read_quoted (length a) a (le_n _) p (cur ++ [DQUOTE]) [] fs
                (COMMA :: tail) Hopen) as [p' [cur' [E Hp']]].
    rewrite E. rewrite !read_from_char by reflexivity.
    exists p', ((cur' ++ [DQUOTE]) ++ [COMMA]). split; [reflexivity|].
    rewrite (parse_line_snoc p'
               {| p_state := QUOTE_IN_QUOTED_FIELD; p_field := a;
                  p_fields := fs |}); [reflexivity|].
    rewrite (parse_line_snoc p' _ _ _ Hp'). reflexivity.
  - apply needs_quote_plain in Q.
    rewrite (read_from_plain _ _ _ _ Q), read_from_char by reflexivity.
    exists p, ((cur ++ a) ++ [COMMA]). split; [reflexivity|].
    rewrite <- app_assoc, (parse_line_from p _ _ _ Hp).
    apply parse_plain_field_comma; assumption.
Qed.

(** A written field and the line end behind it: the record is complete. *)
Lemma read_field_crlf (b : str) (p : parser) (cur : str) (fs : list str)
  (rest : str) :
  parse_line p cur
  = Ok {| p_state := START_FIELD; p_field := []; p_fields := fs |} ->
  read_from p cur (csv_field b ++ CR :: LF :: rest)
  = (records <- read_from parse_reset [] rest ;; Ok ((fs ++ [b]) :: records)).
Proof.
  intros Hp. unfold csv_field. destruct (needs_quote b) eqn:Q.
  - unfold quote_field. fold (escape b).
    cbn [app]. rewrite <- app_assoc. cbn [app].
    rewrite read_from_char by reflexivity.
    assert (Hopen : parse_line p (cur ++ [DQUOTE])
                    = Ok {| p_state := IN_QUOTED_FIELD; p_field := [];
                            p_fields := fs |}).
    { rewrite (parse_line_snoc p _ _ _ Hp). reflexivity. }
    destruct (read_quoted (length b) b (le_n _) p (cur ++ [DQUOTE]) [] fs
                (CR :: LF :: rest) Hopen) as [p' [cur' [E Hp']]].
    rewrite E. rewrite read_from_char by reflexivity. rewrite read_from_crlf.
    cbn [read_records].
    assert (Hline : parse_line p' ((cur' ++ [DQUOTE]) ++ [CR; LF])
                    = Ok {| p_state := EAT_CRNL; p_field := [];
                            p_fields := fs ++ [b] |}).
    { rewrite <- app_assoc, (parse_line_from p' _ _ _ Hp'). reflexivity. }
    rewrite Hline. reflexivity.
  - apply needs_quote_plain in Q.
    rewrite (read_from_plain _ _ _ _ Q), read_from_crlf.
    cbn [read_records].
    pose proof (parse_plain_field_crlf b fs Q) as E.
    rewrite <- app_assoc, (parse_line_from p _ _ _ Hp).
    destruct (parse_line _ (b ++ [CR; LF])) as [p1|]; [|discriminate].
    cbn [bind] in *. rewrite E. reflexivity.
Qed.

(** A written row of two fields, whatever they hold, is read as these two
    fields. *)
Lemma read_written_row (a b rest : str) :
  read_from parse_reset [] (writerow [a; b] ++ rest)
  = (records <- read_from parse_reset [] rest ;; Ok ([a; b] :: records)).
Proof.
  rewrite writerow_two. rewrite <- app_assoc. cbn [app].
  rewrite <- app_assoc. cbn [app].
  destruct (read_field_comma a parse_reset [] START_RECORD []
              (csv_field b ++ CR :: LF :: rest) eq_refl (or_introl eq_refl))
    as [p' [cur' [E Hp']]].
  rewrite E. apply (read_field_crlf b p' cur' [a] rest Hp').
Qed.

Lemma read_written_rows (rows : list (str * str)) :
  read_from parse_reset [] (csv_rows rows) = Ok (rows_of rows).
Proof.
  induction rows as [|[a b] rows IH]; [reflexivity|].
  unfold csv_rows. cbn [map concat fst snd]. fold (csv_rows rows).
  etransitivity; [apply read_written_row|].
  rewrite IH. reflexivity.
Qed.

Lemma csv_read_written_any (rows : list (str * str)) :
  csv_read (py "Plate_Barcode,Measurement_Signature" ++ [CR; LF] ++ csv_rows rows)
  = Ok (csv_header :: rows_of rows).
Proof.
  pose proof (read_written_row (py "Plate_Barcode")
                (py "Measurement_Signature") (csv_rows rows)) as E.
  rewrite read_written_rows in E. cbn [bind] in E.
  unfold csv_header. rewrite <- E. unfold csv_read, read_from, file_lines.
  do 2 f_equal.
Qed.

(** X14. Any file the writer writes can be read back: whatever the barcodes
    and signatures hold (commas, quotes, line ends), as long as the call
    goes through, the reader gets the header row and then the rows of the
    input pairs, all of them and no others, in sorted order. *)
Theorem csv_round_trip_any (results : list (str * str)) (path : str)
  (old : option node) :
  (forall r, In r results -> exists n, py_int (fst r) = Ok n) ->
  writable old ->
  exists rows text,
    save_results_to_csv results path old =
    (Ok tt, Some (File text), [py "Results saved to: " ++ path])
    /\ csv_read text = Ok (csv_header :: rows_of rows)
    /\ Permutation results rows
    /\ StronglySorted int_le rows.
Proof.
  intros H Hw. destruct (sorted_total results H) as [rows Hs].
  destruct (sorted_spec barcode_int _ _ Hs) as [Hp [Hsorted _]].
  exists rows. eexists.
  split; [exact (save_results_to_csv_sorted _ _ _ _ Hs Hw)|].
  split; [|split; [exact Hp | exact Hsorted]].
  apply csv_read_written_any.
Qed.

Lemma csv_round_trip_any_witness :
  exists rows text,
    save_results_to_csv quoted_results (py "out.csv") None =
    (Ok tt, Some (File text), [py "Results saved to: out.csv"])
    /\ csv_read text = Ok (csv_header :: rows_of rows)
    /\ Permutation quoted_results rows
    /\ StronglySorted int_le rows.
Proof.
  apply (csv_round_trip_any quoted_results (py "out.csv") None).
  - intros r [<-|[<-|[]]]; [exists 12%Z | exists 7%Z]; reflexivity.
  - left. reflexivity.
Defined.

(** ** From the directory to the file read back *)

(** X15. A run that exits with status 0 leaves the output file in the
    directory; read back, it holds the header row and one row for each
    complete folder, each with the barcode of a sub-folder and a signature
    in UUID form; and the last line printed reports that number. *)
Theorem main_end_to_end (dir : str) (entries : list (str * node))
  (out : list str) (root' : option node) :
  main dir (Some (Dir entries)) = (Ok 0%Z, out, root') ->
  exists rows text entries',
    root' = Some (Dir entries')
    /\ lookup output_name entries' = Some (File text)
    /\ csv_read text = Ok (csv_header :: rows_of rows)
    /\ length rows = length (filter (has_signature dir) entries)
    /\ last out []
       = py "Successfully processed "
           ++ str_of_nat (length (filter (has_signature dir) entries))
           ++ py " indexfiles"
    /\ forall b sig,
        In (b, sig) rows ->
        is_uuid sig
        /\ exists name children,
            In (name, Dir children) entries
            /\ extract_plate_barcode name = Ok b.
Proof.
  destruct (main_dir_cases dir entries)
    as [results [out1 [Hs [[Hnil E] | [[Hne [[r [Hin Hr]] E]]
          | [[Hne [Hall [Hw [msg E]]]] | [Hne [Hall [Hw [rows [Hsort E]]]]]]]]]]];
    rewrite E; try discriminate.
  intros H.
  pose proof (f_equal snd H) as Hroot.
  pose proof (f_equal (fun x => snd (fst x)) H) as Hout.
  cbn [fst snd] in Hroot, Hout. subst root' out. clear H E.
  destruct (sorted_spec barcode_int _ _ Hsort) as [Hp _].
  pose proof (scan_results_length _ _ _ _ Hs) as [Hcount _].
  exists rows. eexists. eexists. split; [reflexivity|].
  split; [apply lookup_set_child_same|].
  split; [apply csv_read_written_any|].
  split; [rewrite <- (Permutation_length Hp); exact Hcount|].
  split.
  - rewrite !app_assoc, last_last, <- Hcount. reflexivity.
  - intros b sig Hrow. apply (Permutation_in _ (Permutation_sym Hp)) in Hrow.
    rewrite process_indexfiles_directory_delta in Hs. injection Hs as <- _.
    apply in_flat_map in Hrow as [[name nd] [He Hd]].
    destruct (step_delta_pair _ _ _ _ _ Hd) as [children [f [-> [Hb [_ Hv]]]]].
    destruct (process_indexfile_value_Some _ _ _ Hv) as [_ [url Hu]].
    split; [exact (extract_Some_is_uuid _ _ Hu)|].
    exists name, children. auto.
Qed.

Lemma main_end_to_end_witness :
  exists rows text entries',
    snd (main (py "root") (Some (Dir two_plates_root))) = Some (Dir entries')
    /\ lookup output_name entries' = Some (File text)
    /\ csv_read text = Ok (csv_header :: rows_of rows)
    /\ length rows
       = length (filter (has_signature (py "root")) two_plates_root)
    /\ last (snd (fst (main (py "root") (Some (Dir two_plates_root))))) []
       = py "Successfully processed "
           ++ str_of_nat
                (length (filter (has_signature (py "root")) two_plates_root))
           ++ py " indexfiles"
    /\ forall b sig,
        In (b, sig) rows ->
        is_uuid sig
        /\ exists name children,
            In (name, Dir children) two_plates_root
            /\ extract_plate_barcode name = Ok b.
Proof.
  apply (main_end_to_end (py "root") two_plates_root). reflexivity.
Defined.

(** The run of the example: two rows, [10] in front of [200]. *)
Example main_two_plates :
  main (py "root") (Some (Dir two_plates_root))
  = (Ok 0%Z,
     [py "Processing indexfiles directory: root";
      py "Processed: 200 -> abc12345-1111-2222-3333-444455556666";
      py "Warning: indexfile.txt not found in root/300__C";
      py "Processed: 10 -> abc12345-1111-2222-3333-444455556666";
      py "Results saved to: root/plates_measurement_signatures.csv";
      py "Successfully processed 2 indexfiles"],
     Some (Dir (two_plates_root
                  ++ [(py "plates_measurement_signatures.csv",
                       File (py "Plate_Barcode,Measurement_Signature" ++ [CR; LF]
                               ++ py "10,abc12345-1111-2222-3333-444455556666"
                               ++ [CR; LF]
                               ++ py "200,abc12345-1111-2222-3333-444455556666"
                               ++ [CR; LF]))]))).
Proof. reflexivity. Qed.
